(** * SpecCritic: the trust boundary around untrusted model output

    A shallow embedding of the Go packages [internal/schema],
    [internal/schema/validate], [internal/review], [internal/patch] and of
    the orchestration in [cmd/speccritic/main.go], with the properties the
    specification states about them.

    Conventions.
    - A Go [string] is a sequence of bytes: Rocq's [string].
    - A Go [int] is a 64-bit two's-complement integer: a [Z] kept in range
      by [int_wrap] wherever the source does arithmetic on it.
    - A Go [error] is represented by its [Error()] text; [nil] is [None].
    - Library calls the repository makes but does not define
      ([json.Unmarshal], [strings.TrimSpace], [strconv.Quote] behind the
      [%q] verb, the diff-match-patch functions, the provider transport)
      are Section variables: every theorem holds for all of them. *)

From Stdlib Require Import ZArith List String Ascii Bool Lia DecimalString.
From Stdlib Require Import Permutation.
From ExtLib Require Import Structures.Monad Structures.MonadState.
From ExtLib Require Import Data.Monads.StateMonad.
Import ListNotations.

Local Open Scope string_scope.
Local Open Scope Z_scope.

Set Implicit Arguments.

(** Go's [==] on strings. *)
Infix "==" := String.eqb (at level 70, no associativity).

(* ===================================================================== *)
(** ** Go's machine integers *)
(* ===================================================================== *)

Module GoInt.

Definition intSize : Z := 64.
Definition maxInt : Z := 2 ^ (intSize - 1) - 1.
Definition minInt : Z := - 2 ^ (intSize - 1).

(** Two's-complement wrap-around of an [int] result. *)
Definition int_wrap (z : Z) : Z :=
  (z + 2 ^ (intSize - 1)) mod 2 ^ intSize - 2 ^ (intSize - 1).

Definition in_range (z : Z) : Prop := minInt <= z <= maxInt.

End GoInt.

(* ===================================================================== *)
(** ** internal/schema/types.go *)
(* ===================================================================== *)

Module Schema.

(** [type Severity string] and its three constants. *)
Definition Severity := string.
Definition SeverityInfo : Severity := "INFO".
Definition SeverityWarn : Severity := "WARN".
Definition SeverityCritical : Severity := "CRITICAL".

(** [type Verdict string]. *)
Definition Verdict := string.
Definition VerdictValid : Verdict := "VALID".
Definition VerdictValidWithGaps : Verdict := "VALID_WITH_GAPS".
Definition VerdictInvalid : Verdict := "INVALID".

Definition VerdictOrdinal (v : Verdict) : Z :=
  if v == VerdictValid then 0
  else if v == VerdictValidWithGaps then 1
  else if v == VerdictInvalid then 2
  else -1.

(** [type Category string] and the eleven defect categories. *)
Definition Category := string.
Definition CategoryNonTestableRequirement : Category := "NON_TESTABLE_REQUIREMENT".
Definition CategoryAmbiguousBehavior : Category := "AMBIGUOUS_BEHAVIOR".
Definition CategoryContradiction : Category := "CONTRADICTION".
Definition CategoryMissingFailureMode : Category := "MISSING_FAILURE_MODE".
Definition CategoryUndefinedInterface : Category := "UNDEFINED_INTERFACE".
Definition CategoryMissingInvariant : Category := "MISSING_INVARIANT".
Definition CategoryScopeLeak : Category := "SCOPE_LEAK".
Definition CategoryOrderingUndefined : Category := "ORDERING_UNDEFINED".
Definition CategoryTerminologyInconsistent : Category := "TERMINOLOGY_INCONSISTENT".
Definition CategoryUnspecifiedConstraint : Category := "UNSPECIFIED_CONSTRAINT".
Definition CategoryAssumptionRequired : Category := "ASSUMPTION_REQUIRED".

Definition categories : list Category :=
  [ CategoryNonTestableRequirement; CategoryAmbiguousBehavior;
    CategoryContradiction; CategoryMissingFailureMode;
    CategoryUndefinedInterface; CategoryMissingInvariant;
    CategoryScopeLeak; CategoryOrderingUndefined;
    CategoryTerminologyInconsistent; CategoryUnspecifiedConstraint;
    CategoryAssumptionRequired ].

(** The [switch] of [IsValidCategory]: one case listing the eleven
    constants, [false] otherwise. *)
Definition IsValidCategory (c : Category) : bool :=
  existsb (String.eqb c) categories.

Record Evidence := {
  Evidence_Path : string;
  Evidence_LineStart : Z;
  Evidence_LineEnd : Z;
  Evidence_Quote : string
}.

Record Issue := {
  Issue_ID : string;
  Issue_Severity : Severity;
  Issue_Category : Category;
  Issue_Title : string;
  Issue_Description : string;
  Issue_Evidence : list Evidence;
  Issue_Impact : string;
  Issue_Recommendation : string;
  Issue_Blocking : bool;
  Issue_Tags : list string
}.

Record Question := {
  Question_ID : string;
  Question_Severity : Severity;
  Question_Question : string;
  Question_WhyNeeded : string;
  Question_Blocks : list string;
  Question_Evidence : list Evidence
}.

Record Patch := {
  Patch_IssueID : string;
  Patch_Before : string;
  Patch_After : string
}.

Record Input := {
  Input_SpecFile : string;
  Input_SpecHash : string;
  Input_ContextFiles : list string;
  Input_Profile : string;
  Input_Strict : bool;
  Input_SeverityThreshold : string
}.

Record Summary := {
  Summary_Verdict : Verdict;
  Summary_Score : Z;
  Summary_CriticalCount : Z;
  Summary_WarnCount : Z;
  Summary_InfoCount : Z
}.

Section WithFloat.
(** Go's [float64]; the code only stores and copies temperatures. *)
Variable float64 : Type.

Record Meta := {
  Meta_Model : string;
  Meta_Temperature : float64
}.

Record Report := {
  Report_Tool : string;
  Report_Version : string;
  Report_Input : Input;
  Report_Summary : Summary;
  Report_Issues : list Issue;
  Report_Questions : list Question;
  Report_Patches : list Patch;
  Report_Meta : Meta
}.
End WithFloat.

End Schema.

(* ===================================================================== *)
(** ** internal/review/score.go *)
(* ===================================================================== *)

Module Review.
Import Schema GoInt.

(** [Score]: the loop is a left fold over the slice, the accumulator is
    the local [score]; a severity outside the three cases of the
    [switch] leaves it unchanged. *)
Definition Score_step (score : Z) (issue : Issue) : Z :=
  if Issue_Severity issue == SeverityCritical then int_wrap (score - 20)
  else if Issue_Severity issue == SeverityWarn then int_wrap (score - 7)
  else if Issue_Severity issue == SeverityInfo then int_wrap (score - 2)
  else score.

Definition Score (issues : list Issue) : Z :=
  let score := fold_left Score_step issues 100 in
  if score <? 0 then 0 else score.

(** [for ... { if x.Severity == s { return ... } }] *)
Fixpoint issueWithSeverity (s : Severity) (issues : list Issue) : bool :=
  match issues with
  | [] => false
  | issue :: rest =>
      if Issue_Severity issue == s then true else issueWithSeverity s rest
  end.

Fixpoint questionWithSeverity (s : Severity) (questions : list Question) : bool :=
  match questions with
  | [] => false
  | q :: rest =>
      if Question_Severity q == s then true else questionWithSeverity s rest
  end.

Definition Verdict (issues : list Issue) (questions : list Question)
  : Schema.Verdict :=
  if issueWithSeverity SeverityCritical issues then VerdictInvalid
  else if questionWithSeverity SeverityCritical questions then VerdictInvalid
  else if issueWithSeverity SeverityWarn issues then VerdictValidWithGaps
  else if 0 <? Z.of_nat (List.length issues) then VerdictValidWithGaps
  else VerdictValid.

(** [Counts]: three named results, incremented in the loop. *)
Definition Counts_step (acc : Z * Z * Z) (issue : Issue) : Z * Z * Z :=
  let '(critical, warn, info) := acc in
  if Issue_Severity issue == SeverityCritical
  then (int_wrap (critical + 1), warn, info)
  else if Issue_Severity issue == SeverityWarn
  then (critical, int_wrap (warn + 1), info)
  else if Issue_Severity issue == SeverityInfo
  then (critical, warn, int_wrap (info + 1))
  else (critical, warn, info).

Definition Counts (issues : list Issue) : Z * Z * Z :=
  fold_left Counts_step issues (0, 0, 0).

Definition severityOrdinal (s : Severity) : Z :=
  if s == SeverityInfo then 0
  else if s == SeverityWarn then 1
  else if s == SeverityCritical then 2
  else -1.

Definition meetsSeverity (s threshold : Severity) : bool :=
  severityOrdinal s >=? severityOrdinal threshold.

(** The loop of [FilterBySeverity] appends to [out] in slice order. *)
Definition FilterBySeverity_step (threshold : Severity)
           (out : list Issue) (issue : Issue) : list Issue :=
  if meetsSeverity (Issue_Severity issue) threshold
  then out ++ [issue] else out.

Definition FilterBySeverity (issues : list Issue) (threshold : Severity)
  : list Issue :=
  if threshold == SeverityInfo then issues
  else fold_left (FilterBySeverity_step threshold) issues [].

End Review.

(* ===================================================================== *)
(** ** The functions of Go's [strings] and [fmt] packages the code calls *)
(* ===================================================================== *)

Module Strings.

(** The escapes [\n], [\r] and [\t] of Go string literals. *)
Definition LF : string := String "010" EmptyString.
Definition CR : string := String "013" EmptyString.
Definition TAB : string := String "009" EmptyString.

(** [len(s)] *)
Definition len (s : string) : Z := Z.of_nat (String.length s).

Definition HasPrefix (s pre : string) : bool := String.prefix pre s.

(** [s[i:]] and [s[:i]] for [0 <= i <= len(s)]. *)
Definition slice_from (s : string) (i : Z) : string :=
  String.substring (Z.to_nat i) (String.length s - Z.to_nat i) s.
Definition slice_to (s : string) (i : Z) : string :=
  String.substring 0 (Z.to_nat i) s.

Definition HasSuffix (s suf : string) : bool :=
  (len suf <=? len s) && (slice_from s (len s - len suf) == suf).

Fixpoint Contains (s substr : string) : bool :=
  if String.prefix substr s then true
  else match s with
       | EmptyString => false
       | String _ rest => Contains rest substr
       end.

(** [Index]: position of the first occurrence, [-1] if there is none. *)
Fixpoint Index_from (i : Z) (s substr : string) : Z :=
  if String.prefix substr s then i
  else match s with
       | EmptyString => -1
       | String _ rest => Index_from (i + 1) rest substr
       end.
Definition Index (s substr : string) : Z := Index_from 0 s substr.

(** [LastIndex]: position of the last occurrence, [-1] if there is none. *)
Fixpoint LastIndex_from (i : Z) (s substr : string) : Z :=
  match s with
  | EmptyString => if String.prefix substr s then i else -1
  | String _ rest =>
      let later := LastIndex_from (i + 1) rest substr in
      if later >=? 0 then later
      else if String.prefix substr s then i else -1
  end.
Definition LastIndex (s substr : string) : Z := LastIndex_from 0 s substr.

(** [ReplaceAll(s, old, new)] for a non-empty [old]: occurrences are
    replaced left to right without overlap; [skip] counts the bytes of
    a matched [old] still to be dropped. *)
Fixpoint ReplaceAll_go (skip : nat) (s old new : string) : string :=
  match s with
  | EmptyString => EmptyString
  | String c rest =>
      match skip with
      | S k => ReplaceAll_go k rest old new
      | O =>
          if String.prefix old s
          then new ++ ReplaceAll_go (String.length old - 1) rest old new
          else String c (ReplaceAll_go O rest old new)
      end
  end.
Definition ReplaceAll (s old new : string) : string :=
  ReplaceAll_go O s old new.

(** [Split(s, sep)] for a non-empty [sep]: the pieces between the
    occurrences of [sep], always at least one piece. The result of the
    helper is the piece being read and the pieces after it. *)
Fixpoint Split_go (skip : nat) (s sep : string) : string * list string :=
  match s with
  | EmptyString => (EmptyString, [])
  | String c rest =>
      match skip with
      | S k => Split_go k rest sep
      | O =>
          if String.prefix sep s
          then let '(piece, pieces) := Split_go (String.length sep - 1) rest sep in
               (EmptyString, piece :: pieces)
          else let '(piece, pieces) := Split_go O rest sep in
               (String c piece, pieces)
      end
  end.
Definition Split (s sep : string) : list string :=
  let '(piece, pieces) := Split_go O s sep in piece :: pieces.

Definition Join (elems : list string) (sep : string) : string :=
  String.concat sep elems.

Definition in_cutset (c : ascii) (cutset : string) : bool :=
  existsb (Ascii.eqb c) (list_ascii_of_string cutset).

(** [TrimRight(s, cutset)] for a cutset of ASCII bytes: drops the
    longest suffix made of bytes of the cutset. *)
Fixpoint TrimRight (s cutset : string) : string :=
  match s with
  | EmptyString => EmptyString
  | String c rest =>
      match TrimRight rest cutset with
      | EmptyString => if in_cutset c cutset then EmptyString
                       else String c EmptyString
      | kept => String c kept
      end
  end.

End Strings.

Module Fmt.

(** The [%d] verb on an [int]. *)
Definition itoa (n : Z) : string := NilZero.string_of_int (Z.to_int n).

End Fmt.

(** A Go [error] value, by its message. *)
Definition error := string.

(** A Go result pair [(value, error)] in which exactly one side is set. *)
Inductive result (A : Type) : Type :=
| Ok (a : A)
| Err (e : error).
Arguments Ok {A} a.
Arguments Err {A} e.

(* ===================================================================== *)
(** ** internal/schema/validate/validate.go *)
(* ===================================================================== *)

Module Validate.
Import Schema.

Definition isDigit (c : ascii) : bool :=
  let n := nat_of_ascii c in (48 <=? n)%nat && (n <=? 57)%nat.

(** What a pattern [^<lit>\d{4}$] accepts; Go's [$] matches only at the
    end of the text and [\d] only the ASCII digits. *)
Definition fourDigits (s : string) : bool :=
  match s with
  | String a (String b (String c (String d EmptyString))) =>
      isDigit a && isDigit b && isDigit c && isDigit d
  | _ => false
  end.

Definition matchLitFourDigits (lit s : string) : bool :=
  String.prefix lit s
  && fourDigits (Strings.slice_from s (Strings.len lit)).

(** [issueIDPattern.MatchString] and [questionIDPattern.MatchString]. *)
Definition issueIDPattern_MatchString : string -> bool :=
  matchLitFourDigits "ISSUE-".
Definition questionIDPattern_MatchString : string -> bool :=
  matchLitFourDigits "Q-".

(** A [for i, x := range xs] loop whose body returns the first non-nil
    error; the index stays below [len(xs)], an [int]. *)
Fixpoint rangeErr (A : Type) (body : Z -> A -> option error)
         (i : Z) (xs : list A) : option error :=
  match xs with
  | [] => None
  | x :: rest =>
      match body i x with
      | Some err => Some err
      | None => rangeErr body (i + 1) rest
      end
  end.

Section WithLibraries.
Variable float64 : Type.
(** [strconv.Quote], the [%q] verb of [fmt]. *)
Variable Quote : string -> string.
(** [strings.TrimSpace]. *)
Variable TrimSpace : string -> string.
(** [json.Unmarshal] into a zero [schema.Report]. *)
Variable json_Unmarshal : string -> result (Report float64).

Definition stripFences (s : string) : string :=
  let s := TrimSpace s in
  let s :=
    if Strings.HasPrefix s "```" then
      let idx := Strings.Index s Strings.LF in
      if idx >=? 0 then Strings.slice_from s (idx + 1) else s
    else s in
  let s :=
    if Strings.HasSuffix s "```" then
      let idx := Strings.LastIndex s (Strings.LF ++ "```") in
      if idx >=? 0 then Strings.slice_to s idx else s
    else s in
  TrimSpace s.

Definition validateSeverity (s : Severity) (prefix : string) : option error :=
  if (s == SeverityInfo) || (s == SeverityWarn) || (s == SeverityCritical)
  then None
  else Some (prefix ++ ": invalid severity " ++ Quote s
                    ++ " (must be INFO, WARN, or CRITICAL)").

Definition validateEvidence (ev : Evidence) (prefix : string)
           (lineCount : Z) : option error :=
  if Evidence_LineStart ev <? 1 then
    Some (prefix ++ ": line_start " ++ Fmt.itoa (Evidence_LineStart ev)
                 ++ " must be ≥ 1")
  else if Evidence_LineEnd ev <? Evidence_LineStart ev then
    Some (prefix ++ ": line_end " ++ Fmt.itoa (Evidence_LineEnd ev)
                 ++ " must be ≥ line_start "
                 ++ Fmt.itoa (Evidence_LineStart ev))
  else if (lineCount >? 0) && (Evidence_LineEnd ev >? lineCount) then
    Some (prefix ++ ": line_end " ++ Fmt.itoa (Evidence_LineEnd ev)
                 ++ " exceeds spec line count " ++ Fmt.itoa lineCount)
  else None.

Definition validateEvidenceAll (evs : list Evidence) (prefix : string)
           (lineCount : Z) : option error :=
  rangeErr
    (fun j ev =>
       validateEvidence ev (prefix ++ ".evidence[" ++ Fmt.itoa j ++ "]")
                        lineCount)
    0 evs.

Definition validateIssue (issue : Issue) (idx : Z) (lineCount : Z)
  : option error :=
  let prefix := "issue[" ++ Fmt.itoa idx ++ "]" in
  if negb (issueIDPattern_MatchString (Issue_ID issue)) then
    Some (prefix ++ ": id " ++ Quote (Issue_ID issue)
                 ++ " does not match ISSUE-XXXX format")
  else match validateSeverity (Issue_Severity issue) prefix with
  | Some err => Some err
  | None =>
  if negb (IsValidCategory (Issue_Category issue)) then
    Some (prefix ++ ": unknown category " ++ Quote (Issue_Category issue))
  else if Issue_Title issue == "" then
    Some (prefix ++ ": title is required")
  else validateEvidenceAll (Issue_Evidence issue) prefix lineCount
  end.

Definition validateQuestion (q : Question) (idx : Z) (lineCount : Z)
  : option error :=
  let prefix := "question[" ++ Fmt.itoa idx ++ "]" in
  if negb (questionIDPattern_MatchString (Question_ID q)) then
    Some (prefix ++ ": id " ++ Quote (Question_ID q)
                 ++ " does not match Q-XXXX format")
  else match validateSeverity (Question_Severity q) prefix with
  | Some err => Some err
  | None =>
  if Question_Question q == "" then
    Some (prefix ++ ": question text is required")
  else validateEvidenceAll (Question_Evidence q) prefix lineCount
  end.

Definition validateReport (r : Report float64) (lineCount : Z)
  : option error :=
  match rangeErr (fun i issue => validateIssue issue i lineCount)
                 0 (Report_Issues r) with
  | Some err => Some err
  | None =>
      rangeErr (fun i q => validateQuestion q i lineCount)
               0 (Report_Questions r)
  end.

Definition Parse (raw : string) (lineCount : Z) : result (Report float64) :=
  let cleaned := stripFences raw in
  match json_Unmarshal cleaned with
  | Err err => Err ("JSON parse failed: " ++ err)
  | Ok report =>
      match validateReport report lineCount with
      | Some err => Err err
      | None => Ok report
      end
  end.

End WithLibraries.

End Validate.

(* ===================================================================== *)
(** ** internal/patch/patch.go *)
(* ===================================================================== *)

Module Patch.
Import Schema Strings.

Record diffPatch := {
  issueID : string;
  before : string;
  after : string
}.

(** The zero value [diffPatch{}]. *)
Definition diffPatch_zero : diffPatch :=
  {| issueID := ""; before := ""; after := "" |}.

Definition normalize (s : string) : string :=
  let s := ReplaceAll s (CR ++ LF) LF in
  let lines := Split s LF in
  let lines := map (fun line => TrimRight line (" " ++ TAB)) lines in
  Join lines LF.

Definition resolve (p : Schema.Patch) (specRaw normSpec : string)
  : diffPatch * bool :=
  let normBefore := normalize (Patch_Before p) in
  let normAfter := normalize (Patch_After p) in
  if Contains specRaw (Patch_Before p) then
    ({| issueID := Patch_IssueID p;
        before := Patch_Before p;
        after := Patch_After p |}, true)
  else if Contains normSpec normBefore then
    ({| issueID := Patch_IssueID p;
        before := normBefore;
        after := normAfter |}, true)
  else (diffPatch_zero, false).

Section WithDiffMatchPatch.
(** github.com/sergi/go-diff/diffmatchpatch: its diff and patch
    values and the three methods [GenerateDiff] calls. *)
Variables Diff DmpPatch : Type.
Variable DiffMain : string -> string -> bool -> list Diff.
Variable PatchMake : string -> list Diff -> list DmpPatch.
Variable PatchToText : list DmpPatch -> string.

(** An [io.Writer] is the text written to it so far; [None] is the
    [nil] writer. *)
Definition Writer := option string.

Definition skipWarning (issue_id : string) : string :=
  "WARN: patch for " ++ issue_id
    ++ " could not be located in spec (before text not matched)" ++ LF.

(** One iteration of the loop of [GenerateDiff]; the state is the
    [strings.Builder] [out] and the writer [w]. *)
Definition GenerateDiff_body (specRaw normSpec : string)
           (st : string * Writer) (p : Schema.Patch) : string * Writer :=
  let '(out, w) := st in
  let '(dp, ok) := resolve p specRaw normSpec in
  if negb ok then
    match w with
    | Some written => (out, Some (written ++ skipWarning (Patch_IssueID p)))
    | None => (out, None)
    end
  else
    let diffs := DiffMain (before dp) (after dp) false in
    let patchList := PatchMake (before dp) diffs in
    let patchText := PatchToText patchList in
    if patchText == "" then (out, w)
    else (out ++ ("# patch for " ++ issueID dp ++ LF)
              ++ patchText ++ LF, w).

Definition GenerateDiff (specRaw : string) (patches : list Schema.Patch)
           (w : Writer) : string * Writer :=
  if (List.length patches =? 0)%nat then ("", w)
  else
    let normSpec := normalize specRaw in
    fold_left (GenerateDiff_body specRaw normSpec) patches ("", w).

End WithDiffMatchPatch.

End Patch.

(* ===================================================================== *)
(** ** internal/llm: the request, the response and the provider *)
(* ===================================================================== *)

Module Llm.
Section WithFloat.
Variable float64 : Type.

Record Request := {
  SystemPrompt : string;
  UserPrompt : string;
  Temperature : float64;
  MaxTokens : Z;
  Model : string
}.
End WithFloat.

Record Response := {
  Content : string;
  Response_Model : string
}.
End Llm.

(* ===================================================================== *)
(** ** cmd/speccritic/main.go *)
(* ===================================================================== *)

Module Main.
Import Schema Strings Llm.
Import MonadNotation.
Local Open Scope monad_scope.

Record exitErr := {
  code : Z;
  msg : string
}.

(** [codeError(code, "%s", text)] and [codeError(code, "<lit>: %s", text)]. *)
Definition codeError (c : Z) (text : string) : exitErr :=
  {| code := c; msg := text |}.

(** What [main] passes to [os.Exit] for the value [root.Execute] gives
    back when it is [nil] or an [*exitErr]. *)
Definition exitStatus (err : option exitErr) : Z :=
  match err with
  | None => 0
  | Some ee => code ee
  end.

(** The error [runCheck] returns at a point where it either returns an
    [*exitErr] or goes on with a value. *)
Definition returned (A : Type) (r : exitErr + A) : option exitErr :=
  match r with
  | inl ee => Some ee
  | inr _ => None
  end.

Definition sanitizeErrForPrompt (err : error) : string :=
  let msg := err in
  if HasPrefix msg "JSON parse failed" then
    "JSON syntax error"
  else if Contains msg "invalid severity" then
    "invalid enum value (severity must be INFO, WARN, or CRITICAL)"
  else if Contains msg "unknown category" then
    "invalid enum value (unknown defect category)"
  else if Contains msg "title is required"
          || Contains msg "question text is required" then
    "missing required field"
  else if Contains msg "does not match ISSUE-"
          || Contains msg "does not match Q-" then
    "invalid ID format"
  else if Contains msg "line_start" || Contains msg "line_end" then
    "invalid line range in evidence"
  else
    "schema validation error".

Definition parseSeverityThreshold (s : string) : Severity :=
  if s == "warn" then SeverityWarn
  else if s == "critical" then SeverityCritical
  else SeverityInfo.

Section WithWorld.
Variable float64 : Type.
Variable Quote : string -> string.
Variable TrimSpace : string -> string.
Variable json_Unmarshal : string -> result (Report float64).

(** The [llm.Provider] behind the interface: some state (a
    connection, a scripted test server) and its [Complete] method. *)
Variable Provider : Type.
Variable Complete :
  Provider -> Request float64 -> result Response * Provider.

(** [var version], set at build time. *)
Variable version : string.

Record checkFlags := {
  format : string;
  out : string;
  contextFiles : list string;
  profileName : string;
  strict : bool;
  failOn : string;
  severityThreshold : string;
  patchOut : string;
  temperature : float64;
  maxTokens : Z;
  offline : bool;
  verbose : bool;
  debug : bool
}.

(** What the orchestration acts on: the provider, the text on
    standard error, and the requests [Complete] has received so far
    (kept for the statements about the number of calls). *)
Record World := {
  provider : Provider;
  stderr : string;
  calls : list (Request float64)
}.

Definition M := state World.

Definition provider_Complete (req : Request float64) : M (result Response) :=
  w <- get ;;
  let '(resp, p') := Complete (provider w) req in
  put {| provider := p'; stderr := stderr w; calls := calls w ++ [req] |} ;;
  ret resp.

Definition logVerbose (verbose : bool) (text : string) : M unit :=
  if verbose then
    w <- get ;;
    put {| provider := provider w;
           stderr := stderr w ++ "INFO: " ++ text ++ LF;
           calls := calls w |}
  else ret tt.

Definition repairSuffix (parseErr : error) : string :=
  LF ++ LF
     ++ "Your previous response failed schema validation (error category: "
     ++ Quote (sanitizeErrForPrompt parseErr)
     ++ "). Return only valid JSON matching the schema above.".

Definition callWithRetry (req : Request float64) (lineCount : Z)
           (verbose : bool) : M (result (Report float64 * string)) :=
  r <- provider_Complete req ;;
  match r with
  | Err err => ret (Err ("LLM call failed: " ++ err))
  | Ok resp =>
      match Validate.Parse Quote TrimSpace json_Unmarshal
                           (Content resp) lineCount with
      | Ok report => ret (Ok (report, Response_Model resp))
      | Err parseErr =>
          logVerbose verbose ("Validation failed, retrying: " ++ parseErr) ;;
          let repairReq :=
            {| SystemPrompt := SystemPrompt req;
               UserPrompt := UserPrompt req ++ repairSuffix parseErr;
               Temperature := Temperature req;
               MaxTokens := MaxTokens req;
               Model := Model req |} in
          r2 <- provider_Complete repairReq ;;
          match r2 with
          | Err err => ret (Err ("LLM retry call failed: " ++ err))
          | Ok resp2 =>
              match Validate.Parse Quote TrimSpace json_Unmarshal
                                   (Content resp2) lineCount with
              | Err parseErr2 =>
                  ret (Err ("invalid model output after retry: " ++ parseErr2))
              | Ok report => ret (Ok (report, Response_Model resp2))
              end
          end
      end
  end.

(** Steps 12 to 14 of [runCheck]: the summary is computed from the
    report as validated, the fields are populated, and then
    [report.Issues] is overwritten by its filtered view. *)
Definition populateAndFilter (specPath specHash : string)
           (flags : checkFlags) (report : Report float64)
           (llmModel : string) : Report float64 :=
  let score := Review.Score (Report_Issues report) in
  let verdict := Review.Verdict (Report_Issues report)
                                (Report_Questions report) in
  let '(critical, warn, info) := Review.Counts (Report_Issues report) in
  let input :=
    {| Input_SpecFile := specPath;
       Input_SpecHash := specHash;
       Input_ContextFiles := contextFiles flags;
       Input_Profile := profileName flags;
       Input_Strict := strict flags;
       Input_SeverityThreshold := severityThreshold flags |} in
  let summary :=
    {| Summary_Verdict := verdict;
       Summary_Score := score;
       Summary_CriticalCount := critical;
       Summary_WarnCount := warn;
       Summary_InfoCount := info |} in
  let meta :=
    {| Meta_Model := llmModel;
       Meta_Temperature := temperature flags |} in
  let severityFilter := parseSeverityThreshold (severityThreshold flags) in
  {| Report_Tool := "speccritic";
     Report_Version := version;
     Report_Input := input;
     Report_Summary := summary;
     Report_Issues :=
       Review.FilterBySeverity (Report_Issues report) severityFilter;
     Report_Questions := Report_Questions report;
     Report_Patches := Report_Patches report;
     Report_Meta := meta |}.

(** Steps 11 to 14 of [runCheck]: the call with its one retry, whose
    error becomes [codeError(5, "%s", callErr)], then the summary and
    the filter. The steps before load files and build the request;
    the steps after write the patches and render the report. *)
Definition runCheck_steps11to14 (specPath specHash : string)
           (flags : checkFlags) (req : Request float64) (lineCount : Z)
  : M (exitErr + Report float64) :=
  r <- callWithRetry req lineCount (verbose flags) ;;
  match r with
  | Err callErr => ret (inl (codeError 5 callErr))
  | Ok (report, llmModel) =>
      ret (inr (populateAndFilter specPath specHash flags report llmModel))
  end.

End WithWorld.

End Main.

(* ===================================================================== *)
(** ** Specification-level vocabulary *)
(* ===================================================================== *)

Module Spec.
Import Schema.

(** "severity: one of INFO, WARN, CRITICAL". *)
Definition ValidSeverity (s : Severity) : Prop :=
  s = SeverityInfo \/ s = SeverityWarn \/ s = SeverityCritical.

Definition IsCritical (i : Issue) : Prop := Issue_Severity i = SeverityCritical.
Definition IsWarn (i : Issue) : Prop := Issue_Severity i = SeverityWarn.
Definition IsInfo (i : Issue) : Prop := Issue_Severity i = SeverityInfo.
Definition IsCriticalQ (q : Question) : Prop :=
  Question_Severity q = SeverityCritical.

(** The number of issues of a severity. *)
Definition countSeverity (s : Severity) (issues : list Issue) : Z :=
  Z.of_nat (List.length (filter (fun i => Issue_Severity i == s) issues)).

(** "start at 100; subtract 20 per CRITICAL issue, 7 per WARN issue, 2
    per INFO issue; clamp the result to the range [0, 100]". *)
Definition Score_spec (issues : list Issue) : Z :=
  Z.max 0 (100 - 20 * countSeverity SeverityCritical issues
               - 7 * countSeverity SeverityWarn issues
               - 2 * countSeverity SeverityInfo issues).

(** "INFO=0, WARN=1, CRITICAL=2". *)
Definition ordinal_spec (s : Severity) : option Z :=
  if s == SeverityInfo then Some 0
  else if s == SeverityWarn then Some 1
  else if s == SeverityCritical then Some 2
  else None.

(** "only issues whose severity ordinal is >= the threshold's ordinal". *)
Definition atOrAbove (threshold : Severity) (i : Issue) : bool :=
  match ordinal_spec (Issue_Severity i), ordinal_spec threshold with
  | Some a, Some b => b <=? a
  | _, _ => false
  end.

Definition Filter_spec (issues : list Issue) (threshold : Severity)
  : list Issue :=
  filter (atOrAbove threshold) issues.

(** An ID made of a literal and four ASCII digits. *)
Definition IDFormat (lit id : string) : Prop :=
  exists a b c d,
    id = lit ++ String a (String b (String c (String d EmptyString)))
    /\ Validate.isDigit a = true /\ Validate.isDigit b = true
    /\ Validate.isDigit c = true /\ Validate.isDigit d = true.

(** "1 <= lineStart <= lineEnd <= sourceLineCount", the last bound in
    force only for a positive count. *)
Definition EvidenceOK (lineCount : Z) (ev : Evidence) : Prop :=
  1 <= Evidence_LineStart ev <= Evidence_LineEnd ev
  /\ (0 < lineCount -> Evidence_LineEnd ev <= lineCount).

Definition IssueOK (lineCount : Z) (i : Issue) : Prop :=
  IDFormat "ISSUE-" (Issue_ID i)
  /\ ValidSeverity (Issue_Severity i)
  /\ In (Issue_Category i) categories
  /\ Issue_Title i <> ""
  /\ Forall (EvidenceOK lineCount) (Issue_Evidence i).

Definition QuestionOK (lineCount : Z) (q : Question) : Prop :=
  IDFormat "Q-" (Question_ID q)
  /\ ValidSeverity (Question_Severity q)
  /\ Question_Question q <> ""
  /\ Forall (EvidenceOK lineCount) (Question_Evidence q).

(** The report with its [patches] array replaced. *)
Definition withPatches (float64 : Type) (r : Report float64)
           (patches : list Schema.Patch) : Report float64 :=
  {| Report_Tool := Report_Tool r;
     Report_Version := Report_Version r;
     Report_Input := Report_Input r;
     Report_Summary := Report_Summary r;
     Report_Issues := Report_Issues r;
     Report_Questions := Report_Questions r;
     Report_Patches := patches;
     Report_Meta := Report_Meta r |}.

(** The evidence entries of all the findings of a report. *)
Definition allEvidence (float64 : Type) (r : Report float64) : list Evidence :=
  (flat_map Issue_Evidence (Report_Issues r)
     ++ flat_map Question_Evidence (Report_Questions r))%list.

(** The list is short enough for the running score to stay a 64-bit
    [int]: at most 2^63/20 issues, more than any slice of issues that
    fits in a 64-bit address space. *)
Definition ScoreFits (issues : list Issue) : Prop :=
  GoInt.minInt <= 100 - 20 * Z.of_nat (List.length issues).

(** The summary of step 13 of [runCheck], from the issues and
    questions it is given. *)
Definition summaryOf (issues : list Issue) (questions : list Question)
  : Summary :=
  {| Summary_Verdict := Review.Verdict issues questions;
     Summary_Score := Review.Score issues;
     Summary_CriticalCount := fst (fst (Review.Counts issues));
     Summary_WarnCount := snd (fst (Review.Counts issues));
     Summary_InfoCount := snd (Review.Counts issues) |}.

(** The request of the repair attempt. *)
Definition repairRequest (float64 : Type) (Quote : string -> string)
           (req : Llm.Request float64) (parseErr : error)
  : Llm.Request float64 :=
  {| Llm.SystemPrompt := Llm.SystemPrompt req;
     Llm.UserPrompt :=
       Llm.UserPrompt req ++ Strings.LF ++ Strings.LF
         ++ "Your previous response failed schema validation (error category: "
         ++ Quote (Main.sanitizeErrForPrompt parseErr)
         ++ "). Return only valid JSON matching the schema above.";
     Llm.Temperature := Llm.Temperature req;
     Llm.MaxTokens := Llm.MaxTokens req;
     Llm.Model := Llm.Model req |}.

Section PatchOutput.
Variables Diff DmpPatch : Type.
Variable DiffMain : string -> string -> bool -> list Diff.
Variable PatchMake : string -> list Diff -> list DmpPatch.
Variable PatchToText : list DmpPatch -> string.

(** The text of the patch between two anchored texts. *)
Definition patchTextOf (dp : Patch.diffPatch) : string :=
  PatchToText
    (PatchMake (Patch.before dp)
               (DiffMain (Patch.before dp) (Patch.after dp) false)).

(** What one suggestion contributes to the diff: its hunk under a
    header naming the issue, or nothing when it is not anchored or
    its patch text is empty. *)
Definition hunkOf (specRaw : string) (p : Schema.Patch) : string :=
  let '(dp, ok) := Patch.resolve p specRaw (Patch.normalize specRaw) in
  if ok then
    if patchTextOf dp == "" then ""
    else ("# patch for " ++ Patch.issueID dp ++ Strings.LF)
           ++ patchTextOf dp ++ Strings.LF
  else "".

(** What one suggestion contributes to the warnings. *)
Definition warningOf (specRaw : string) (p : Schema.Patch) : string :=
  if snd (Patch.resolve p specRaw (Patch.normalize specRaw)) then ""
  else Patch.skipWarning (Patch_IssueID p).

(** Writing a text to a writer that may be [nil]. *)
Definition written (w : Patch.Writer) (text : string) : Patch.Writer :=
  match w with
  | Some sofar => Some (sofar ++ text)
  | None => None
  end.
End PatchOutput.

(** Case analysis on a severity the way the [switch] statements of the
    source see it: one of the three constants, or something else. *)
Inductive severity_view (s : Severity) : Prop :=
| view_critical : s = SeverityCritical -> severity_view s
| view_warn : s = SeverityWarn -> severity_view s
| view_info : s = SeverityInfo -> severity_view s
| view_other :
    (s == SeverityCritical) = false -> (s == SeverityWarn) = false ->
    (s == SeverityInfo) = false -> severity_view s.

(** The fixed labels a retry prompt may name. *)
Definition promptCategories : list string :=
  [ "JSON syntax error";
    "invalid enum value (severity must be INFO, WARN, or CRITICAL)";
    "invalid enum value (unknown defect category)";
    "missing required field";
    "invalid ID format";
    "invalid line range in evidence";
    "schema validation error" ].

End Spec.

(* ===================================================================== *)
(** ** Concrete instances used in the examples *)
(* ===================================================================== *)

Module Fixtures.
Import Schema Strings Llm.

(** The double-quote character. *)
Definition DQ : string := String "034" EmptyString.
Definition BS : string := String "092" EmptyString.

Definition hexDigit (n : nat) : ascii :=
  ascii_of_nat (if (n <? 10)%nat then 48 + n else 87 + n).

(** [strconv.Quote] on ASCII text: printable bytes stand for
    themselves, the quote and the backslash are escaped, control bytes
    use Go's named or [\x] escapes. *)
Definition quoteByte (c : ascii) : string :=
  let n := nat_of_ascii c in
  if (n =? 34)%nat then BS ++ DQ
  else if (n =? 92)%nat then BS ++ BS
  else if (32 <=? n)%nat && (n <=? 126)%nat then String c EmptyString
  else if (n =? 7)%nat then BS ++ "a"
  else if (n =? 8)%nat then BS ++ "b"
  else if (n =? 12)%nat then BS ++ "f"
  else if (n =? 10)%nat then BS ++ "n"
  else if (n =? 13)%nat then BS ++ "r"
  else if (n =? 9)%nat then BS ++ "t"
  else if (n =? 11)%nat then BS ++ "v"
  else BS ++ "x" ++ String (hexDigit (n / 16))
                           (String (hexDigit (n mod 16)) EmptyString).

Definition asciiQuote (s : string) : string :=
  DQ ++ String.concat "" (map quoteByte (list_ascii_of_string s)) ++ DQ.

(** [strings.TrimSpace] on ASCII text. *)
Definition asciiSpace : string :=
  TAB ++ LF ++ String "011" (String "012" CR) ++ " ".

Fixpoint trimLeft (s : string) : string :=
  match s with
  | String c rest => if in_cutset c asciiSpace then trimLeft rest else s
  | EmptyString => EmptyString
  end.

Definition asciiTrimSpace (s : string) : string :=
  TrimRight (trimLeft s) asciiSpace.

(** Temperatures in the examples are written in hundredths. *)
Definition float64 : Type := Z.

(** A decoder that knows a table of documents and rejects the rest,
    standing for [json.Unmarshal] on those documents. *)
Fixpoint tableUnmarshal (table : list (string * Report float64))
         (doc : string) : result (Report float64) :=
  match table with
  | [] => Err "invalid character 'n' looking for beginning of object key string"
  | (text, report) :: rest =>
      if doc == text then Ok report else tableUnmarshal rest doc
  end.

(** A provider that replays a script, like the test server of the
    repository's tests; an entry is a response or a transport error. *)
Definition Scripted : Type := list (result Response).

Definition scriptedComplete (p : Scripted) (req : Request float64)
  : result Response * Scripted :=
  match p with
  | [] => (Err "HTTP request failed: connection refused", [])
  | r :: rest => (r, rest)
  end.

(** [schema.Issue{Severity: s}], as the tests of [review] build issues. *)
Definition issueOfSeverity (s : Severity) : Issue :=
  {| Issue_ID := ""; Issue_Severity := s; Issue_Category := "";
     Issue_Title := ""; Issue_Description := ""; Issue_Evidence := [];
     Issue_Impact := ""; Issue_Recommendation := ""; Issue_Blocking := false;
     Issue_Tags := [] |}.

Definition questionOfSeverity (s : Severity) : Question :=
  {| Question_ID := ""; Question_Severity := s; Question_Question := "";
     Question_WhyNeeded := ""; Question_Blocks := []; Question_Evidence := [] |}.

Definition evidence (line_start line_end : Z) : Evidence :=
  {| Evidence_Path := "SPEC.md"; Evidence_LineStart := line_start;
     Evidence_LineEnd := line_end; Evidence_Quote := "q" |}.

(** A finding that satisfies every schema constraint. *)
Definition goodIssue (id : string) (s : Severity) (evs : list Evidence) : Issue :=
  {| Issue_ID := id; Issue_Severity := s;
     Issue_Category := CategoryNonTestableRequirement;
     Issue_Title := "Test issue"; Issue_Description := "desc";
     Issue_Evidence := evs; Issue_Impact := "imp";
     Issue_Recommendation := "rec"; Issue_Blocking := true;
     Issue_Tags := [] |}.

Definition goodQuestion (id : string) (s : Severity) : Question :=
  {| Question_ID := id; Question_Severity := s;
     Question_Question := "Which unit?"; Question_WhyNeeded := "why";
     Question_Blocks := []; Question_Evidence := [evidence 1 1] |}.

Definition emptyInput : Input :=
  {| Input_SpecFile := ""; Input_SpecHash := ""; Input_ContextFiles := [];
     Input_Profile := ""; Input_Strict := false; Input_SeverityThreshold := "" |}.

Definition emptySummary : Summary :=
  {| Summary_Verdict := ""; Summary_Score := 0; Summary_CriticalCount := 0;
     Summary_WarnCount := 0; Summary_InfoCount := 0 |}.

(** A report as decoded from model output: only the findings and the
    patches are set. *)
Definition reportOf (issues : list Issue) (questions : list Question)
           (patches : list Schema.Patch) : Report float64 :=
  {| Report_Tool := ""; Report_Version := ""; Report_Input := emptyInput;
     Report_Summary := emptySummary; Report_Issues := issues;
     Report_Questions := questions; Report_Patches := patches;
     Report_Meta := {| Meta_Model := ""; Meta_Temperature := 0 |} |}.

Definition request : Request float64 :=
  {| SystemPrompt := "You are a specification auditor.";
     UserPrompt := "Analyze the following specification for defects.";
     Temperature := 20; MaxTokens := 4096; Model := "" |}.

Definition flagsWith (threshold : string) : Main.checkFlags float64 :=
  {| Main.format := "json"; Main.out := ""; Main.contextFiles := [];
     Main.profileName := "general"; Main.strict := false; Main.failOn := "";
     Main.severityThreshold := threshold; Main.patchOut := "";
     Main.temperature := 20; Main.maxTokens := 4096; Main.offline := false;
     Main.verbose := false; Main.debug := false |}.

Definition world (p : Scripted) : Main.World float64 Scripted :=
  {| Main.provider := p; Main.stderr := ""; Main.calls := [] |}.

(** A stand-in for the diff-match-patch library that replaces the
    whole text: like the library, it has no edit, no patch and no text
    for two equal inputs. *)
Inductive toyDiff : Type :=
| DiffEqual (text : string)
| DiffDelete (text : string)
| DiffInsert (text : string).

Definition toyDiffMain (text1 text2 : string) (checklines : bool)
  : list toyDiff :=
  if text1 == text2 then
    if text1 == "" then [] else [DiffEqual text1]
  else [DiffDelete text1; DiffInsert text2].

Definition isEqualDiff (d : toyDiff) : bool :=
  match d with
  | DiffEqual _ => true
  | _ => false
  end.

Definition toyPatchMake (text1 : string) (diffs : list toyDiff)
  : list (list toyDiff) :=
  if forallb isEqualDiff diffs then [] else [diffs].

Definition toyDiffText (d : toyDiff) : string :=
  match d with
  | DiffEqual t => " " ++ t ++ LF
  | DiffDelete t => "-" ++ t ++ LF
  | DiffInsert t => "+" ++ t ++ LF
  end.

Definition toyPatchToText (patches : list (list toyDiff)) : string :=
  String.concat ""
    (map (fun diffs => "@@ -1 +1 @@" ++ LF
                         ++ String.concat "" (map toyDiffText diffs))
         patches).



(** The document of the tests of [patch]: a line with trailing spaces. *)
Definition specWithTrailingSpaces : string :=
  "The system must be fast.   " ++ LF ++ "Other line." ++ LF.

Definition patchOf (id before after : string) : Schema.Patch :=
  {| Patch_IssueID := id; Patch_Before := before; Patch_After := after |}.

Definition response (content : string) : Response :=
  {| Content := content; Response_Model := "anthropic:claude-sonnet-4-6" |}.

(** Steps 11 to 14 of [runCheck] against a scripted provider and a
    table of known documents. *)
Definition runScripted (table : list (string * Report float64))
           (script : Scripted) (threshold : string) (lineCount : Z)
  : (Main.exitErr + Report float64) * Main.World float64 Scripted :=
  runState
    (Main.runCheck_steps11to14 asciiQuote asciiTrimSpace (tableUnmarshal table)
                               scriptedComplete "dev" "SPEC.md" "0f3a"
                               (flagsWith threshold) request lineCount)
    (world script).

Definition goodReport : Report float64 :=
  reportOf [goodIssue "ISSUE-0001" SeverityWarn [evidence 1 2];
            goodIssue "ISSUE-0002" SeverityInfo [evidence 3 3]]
           [goodQuestion "Q-0001" SeverityInfo] [].

(** A report citing line 50 of a shorter document. *)
Definition outOfBoundsReport : Report float64 :=
  reportOf [goodIssue "ISSUE-0001" SeverityWarn [evidence 1 50]] [] [].

(** Model output wrapped in a fenced code block. *)
Definition fenced (doc : string) : string :=
  "```json" ++ LF ++ doc ++ LF ++ "```".

(** The documents the decoder of the examples knows. *)
Definition documents : list (string * Report float64) :=
  [ ("{good}", goodReport); ("{line 50}", outOfBoundsReport) ].

(** The normalized-only suggestion, a suggestion matching nothing and
    a suggestion that changes nothing. *)
Definition acrossLines : Schema.Patch :=
  patchOf "ISSUE-0002" ("The system must be fast." ++ LF ++ "Other line.")
          ("The system must respond within 250ms p95." ++ LF ++ "Other line.").
Definition nowhere : Schema.Patch :=
  patchOf "ISSUE-0003" "text that does not exist" "replacement".
Definition unchanged : Schema.Patch :=
  patchOf "ISSUE-0004" "Other line." "Other line.".

(** Patches no issue of a report accounts for. *)
Definition oddPatches : list Schema.Patch :=
  [ patchOf "" "must be fast" "must respond within 250ms";
    patchOf "ISSUE-9999" "a" "b";
    patchOf "not an issue id" "a" "b";
    patchOf "ISSUE-0001" "" "" ].

Definition badSeverityIssue : Issue :=
  goodIssue "ISSUE-0002" "HIGH" [evidence 1 2].

End Fixtures.

(* ===================================================================== *)
(** ** internal/spec: line numbering *)
(* ===================================================================== *)

Module SpecLoader.
Import Strings.

(** The loop of [addLineNumbers]: [n] is [len(lines)], [i] the index of
    [line]; the loop breaks at a last line that is empty. The counter
    stays at or below [len(lines)], an [int]. *)
Fixpoint addLineNumbers_loop (n i : Z) (lines out : list string)
         (lineCount : Z) : list string * Z :=
  match lines with
  | [] => (out, lineCount)
  | line :: rest =>
      if (i =? n - 1) && (line == "") then (out, lineCount)
      else
        let lineCount := lineCount + 1 in
        addLineNumbers_loop
          n (i + 1) rest
          (out ++ ["L" ++ Fmt.itoa lineCount ++ ": " ++ line]) lineCount
  end.

Definition addLineNumbers (content : string) : string * Z :=
  let lines := Split content LF in
  let '(out, lineCount) :=
    addLineNumbers_loop (Z.of_nat (List.length lines)) 0 lines [] 0 in
  (Join out LF, lineCount).

End SpecLoader.

(* ===================================================================== *)
(** ** internal/render: the choice of a renderer *)
(* ===================================================================== *)

Module Render.

(** The two implementations of the [Renderer] interface. *)
Inductive Renderer : Type :=
| jsonRenderer
| markdownRenderer.

Section WithQuote.
Variable Quote : string -> string.

Definition NewRenderer (format : string) : result Renderer :=
  if format == "json" then Ok jsonRenderer
  else if format == "md" then Ok markdownRenderer
  else Err ("unknown format " ++ Quote format
              ++ ": supported formats are json, md").
End WithQuote.

End Render.

(* ===================================================================== *)
(** ** cmd/speccritic/main.go: the flags and the last step of runCheck *)
(* ===================================================================== *)

Module Flags.
Import Schema Main.

Section WithFloat.
Variable float64 : Type.
(** Go's [<] on [float64], the constants [0] and [2] as [float64], and
    the [%g] verb. *)
Variable float_lt : float64 -> float64 -> bool.
Variables float_0 float_2 : float64.
Variable fmt_g : float64 -> string.
Variable Quote : string -> string.

Definition validateFlags (flags : checkFlags float64) : option error :=
  if negb ((format flags == "json") || (format flags == "md")) then
    Some ("--format must be json or md, got " ++ Quote (format flags))
  else if negb (failOn flags == "")
          && negb ((failOn flags == VerdictValidWithGaps)
                   || (failOn flags == VerdictInvalid)) then
    Some ("--fail-on must be VALID_WITH_GAPS or INVALID, got "
            ++ Quote (failOn flags))
  else if negb ((severityThreshold flags == "info")
                || (severityThreshold flags == "warn")
                || (severityThreshold flags == "critical")) then
    Some ("--severity-threshold must be info, warn, or critical, got "
            ++ Quote (severityThreshold flags))
  else if float_lt (temperature flags) float_0
          || float_lt float_2 (temperature flags) then
    Some ("--temperature must be between 0.0 and 2.0, got "
            ++ fmt_g (temperature flags))
  else if maxTokens flags <=? 0 then
    Some ("--max-tokens must be > 0, got " ++ Fmt.itoa (maxTokens flags))
  else None.

(** Step 1 of [runCheck]. *)
Definition runCheck_step1 (flags : checkFlags float64) : option exitErr :=
  match validateFlags flags with
  | Some err => Some (codeError 3 ("invalid flags: " ++ err))
  | None => None
  end.

End WithFloat.

(** Step 18 of [runCheck], the value it returns at its end. *)
Definition runCheck_step18 (verdict : Verdict) (failOn : string)
  : option exitErr :=
  if negb (failOn == "") then
    let verdictThreshold : Verdict := failOn in
    if VerdictOrdinal verdict >=? VerdictOrdinal verdictThreshold then
      Some (codeError 2 ("verdict " ++ verdict
                           ++ " meets or exceeds --fail-on threshold "
                           ++ verdictThreshold))
    else None
  else None.

End Flags.


(* ===================================================================== *)
(** ** More specification-level vocabulary *)
(* ===================================================================== *)

Module MoreSpec.
Import Schema Strings.

(** The higher of two thresholds. *)
Definition higher (t1 t2 : Severity) : Severity :=
  if Review.severityOrdinal t1 <=? Review.severityOrdinal t2 then t2 else t1.

(** A document inside a fenced code block with a language tag. *)
Definition fence (lang doc : string) : string :=
  "```" ++ lang ++ LF ++ doc ++ LF ++ "```".

(** The lines of a document that carry a number: all of them, but for
    the empty piece after a final newline. *)
Definition numberedLinesOf (content : string) : list string :=
  let lines := Split content LF in
  if last lines "x" == "" then removelast lines else lines.

(** Lines prefixed with [L<k>: ], counting from [k]. *)
Fixpoint numberFrom (k : Z) (lines : list string) : list string :=
  match lines with
  | [] => []
  | line :: rest => ("L" ++ Fmt.itoa k ++ ": " ++ line) :: numberFrom (k + 1) rest
  end.

(** The last byte of a text, and whether it is one of the blanks that
    [normalize] trims. *)
Fixpoint lastByte (s : string) : option ascii :=
  match s with
  | EmptyString => None
  | String c rest =>
      match rest with
      | EmptyString => Some c
      | String _ _ => lastByte rest
      end
  end.

Definition endsBlank (line : string) : bool :=
  match lastByte line with
  | Some c => in_cutset c (" " ++ TAB)
  | None => false
  end.

(** A line exists under a 1-based number. *)
Definition lineExists (content : string) (n : Z) : Prop :=
  1 <= n /\ exists line, nth_error (numberedLinesOf content) (Z.to_nat (n - 1)) = Some line.

End MoreSpec.


(* ===================================================================== *)
(** ** internal/llm: the choice of a provider *)
(* ===================================================================== *)

Module LlmProvider.
Import Strings.

(** [strings.SplitN(s, sep, 2)] for a non-empty [sep]: at most one cut,
    at the first occurrence of [sep]. *)
Definition SplitN2 (s sep : string) : list string :=
  let m := Index s sep in
  if m <? 0 then [s]
  else [slice_to s m; slice_from s (m + len sep)].

(** The two implementations of the [Provider] interface, with the
    fields [NewProvider] sets. *)
Inductive Provider : Type :=
| anthropicProvider (model apiKey : string)
| openaiProvider (model apiKey : string).

Section WithEnvironment.
Variable Quote : string -> string.
(** [os.Getenv] *)
Variable Getenv : string -> string.

Definition NewProvider (providerModel : string) : result Provider :=
  let parts := SplitN2 providerModel ":" in
  if negb (List.length parts =? 2)%nat
     || (nth 0 parts "" == "") || (nth 1 parts "" == "")
  then Err ("invalid model format " ++ Quote providerModel
              ++ ": expected provider:model (e.g. anthropic:claude-sonnet-4-6)")
  else if nth 0 parts "" == "anthropic" then
    let apiKey := Getenv "ANTHROPIC_API_KEY" in
    if apiKey == "" then Err "ANTHROPIC_API_KEY environment variable not set"
    else Ok (anthropicProvider (nth 1 parts "") apiKey)
  else if nth 0 parts "" == "openai" then
    let apiKey := Getenv "OPENAI_API_KEY" in
    if apiKey == "" then Err "OPENAI_API_KEY environment variable not set"
    else Ok (openaiProvider (nth 1 parts "") apiKey)
  else Err ("unknown provider " ++ Quote (nth 0 parts "")
              ++ ": supported providers are anthropic, openai").

End WithEnvironment.

End LlmProvider.

(* ===================================================================== *)
(** ** internal/context: the grounding documents *)
(* ===================================================================== *)

Module Context.
Import Strings.

Record ContextFile := {
  ContextFile_Path : string;
  ContextFile_Content : string
}.

Section WithFiles.
Variable Quote : string -> string.
(** [redact.RedactFile]: the redacted content of the file at a path, or
    the error of reading it. *)
Variable RedactFile : string -> result string.
(** [filepath.Base] *)
Variable Base : string -> string.

(** The loop of [Load]; [files] is the slice built so far. *)
Fixpoint Load_loop (paths : list string) (files : list ContextFile)
  : result (list ContextFile) :=
  match paths with
  | [] => Ok files
  | p :: rest =>
      match RedactFile p with
      | Err err => Err ("loading context file " ++ Quote p ++ ": " ++ err)
      | Ok content =>
          Load_loop rest
                    (files ++ [{| ContextFile_Path := p;
                                  ContextFile_Content := content |}])
      end
  end.

Definition Load (paths : list string) : result (list ContextFile) :=
  Load_loop paths [].

(** One iteration of the loop of [FormatForPrompt]; the state is the
    [strings.Builder]. *)
Definition FormatForPrompt_body (sb : string) (f : ContextFile) : string :=
  let name := Base (ContextFile_Path f) in
  let sb := sb ++ ("<context file=" ++ Quote name ++ ">" ++ LF) in
  let sb := sb ++ ContextFile_Content f in
  let sb := if negb (HasSuffix (ContextFile_Content f) LF) then sb ++ LF
            else sb in
  sb ++ ("</context>" ++ LF).

Definition FormatForPrompt (files : list ContextFile) : string :=
  if (List.length files =? 0)%nat then ""
  else fold_left FormatForPrompt_body files "".

End WithFiles.

End Context.


(* ===================================================================== *)
(** ** More inputs for the examples *)
(* ===================================================================== *)

Module MoreFixtures.
Import Schema Strings Llm Fixtures.

(** [%g] on a temperature written in hundredths. *)
Definition gHundredths (t : float64) : string :=
  let a := Z.abs t in
  (if t <? 0 then "-" else "")
    ++ Fmt.itoa (a / 100)
    ++ (if a mod 100 =? 0 then ""
        else "." ++ Fmt.itoa (a mod 100 / 10)
                 ++ (if a mod 10 =? 0 then "" else Fmt.itoa (a mod 10))).

(** [validateFlags] on temperatures in hundredths. *)
Definition validateFlagsHundredths (flags : Main.checkFlags float64)
  : option error :=
  Flags.validateFlags Z.ltb 0 200 gHundredths asciiQuote flags.

(** Flags with --fail-on and --severity-threshold given. *)
Definition flagsFailOn (failOn threshold : string) : Main.checkFlags float64 :=
  {| Main.format := "json"; Main.out := ""; Main.contextFiles := [];
     Main.profileName := "general"; Main.strict := false;
     Main.failOn := failOn; Main.severityThreshold := threshold;
     Main.patchOut := ""; Main.temperature := 20; Main.maxTokens := 4096;
     Main.offline := false; Main.verbose := false; Main.debug := false |}.

(** A document of three lines that ends with a newline. *)
Definition threeLines : string :=
  "alpha" ++ LF ++ "beta" ++ LF ++ "gamma" ++ LF.

Definition mixedIssues : list Issue :=
  map issueOfSeverity [SeverityCritical; SeverityWarn; SeverityInfo; SeverityWarn].

(** The error of the first call of a provider without a script. *)
Definition connectionRefused : error :=
  "LLM call failed: HTTP request failed: connection refused".

(** [callWithRetry] against a scripted provider and the documents of
    the examples. *)
Definition callScripted (script : Scripted) (lineCount : Z)
  : result (Report float64 * string) :=
  fst (runState
         (Main.callWithRetry asciiQuote asciiTrimSpace
                             (tableUnmarshal documents) scriptedComplete
                             request lineCount false)
         (world script)).

End MoreFixtures.


(* ===================================================================== *)
(** * Properties *)
(* ===================================================================== *)

(** ** Machine integers *)

Module GoIntFacts.
Import GoInt.

Lemma maxInt_value : maxInt = 9223372036854775807.
Proof. reflexivity. Qed.

Lemma minInt_value : minInt = -9223372036854775808.
Proof. reflexivity. Qed.

Lemma int_wrap_id z : in_range z -> int_wrap z = z.
Proof.
  unfold in_range, int_wrap, minInt, maxInt, intSize. intros H.
  rewrite Z.mod_small; lia.
Qed.

End GoIntFacts.

(** ** The severities *)

Module SeverityFacts.
Import Schema Spec.

Lemma severity_cases s : severity_view s.
Proof.
  destruct (String.eqb_spec s SeverityCritical) as [Hc | Hc];
    [now apply view_critical |].
  destruct (String.eqb_spec s SeverityWarn) as [Hw | Hw];
    [now apply view_warn |].
  destruct (String.eqb_spec s SeverityInfo) as [Hi | Hi];
    [now apply view_info |].
  apply view_other; now apply String.eqb_neq.
Qed.

(** Evaluates the comparisons between string constants in the goal. *)
Ltac eval_eqb :=
  repeat match goal with
         | |- context [String.eqb ?a ?b] =>
             let v := eval cbv in (String.eqb a b) in
             match v with
             | true => idtac
             | false => idtac
             end;
             change (String.eqb a b) with v
         end;
  cbv iota.

(** Splits on the severity of a [switch]. *)
Ltac by_severity s :=
  let E := fresh "E" in
  let E1 := fresh "E" in
  let E2 := fresh "E" in
  destruct (severity_cases s) as [E | E | E | E E1 E2];
  [ rewrite E | rewrite E | rewrite E | rewrite E, E1, E2 ];
  eval_eqb.

Lemma valid_ordinal s :
  ValidSeverity s -> ordinal_spec s = Some (Review.severityOrdinal s).
Proof. intros [-> | [-> | ->]]; reflexivity. Qed.

Lemma ordinal_nonneg s : ValidSeverity s -> 0 <= Review.severityOrdinal s.
Proof. intros [-> | [-> | ->]]; cbv; discriminate. Qed.

End SeverityFacts.

(** ** Score, Verdict, Counts and the severity filter *)

Module ReviewFacts.
Import Schema Spec Review GoInt GoIntFacts SeverityFacts.

Lemma countSeverity_cons s i issues :
  countSeverity s (i :: issues) =
  (if Issue_Severity i == s then 1 else 0) + countSeverity s issues.
Proof.
  unfold countSeverity. simpl.
  destruct (Issue_Severity i == s); simpl List.length; lia.
Qed.

Lemma countSeverity_nonneg s issues : 0 <= countSeverity s issues.
Proof. unfold countSeverity. lia. Qed.

(** The loop of [Score] from any accumulator that leaves room. *)
Lemma Score_loop issues : forall acc,
  acc <= maxInt ->
  minInt <= acc - 20 * Z.of_nat (List.length issues) ->
  fold_left Score_step issues acc =
  acc - 20 * countSeverity SeverityCritical issues
      - 7 * countSeverity SeverityWarn issues
      - 2 * countSeverity SeverityInfo issues.
Proof.
  induction issues as [| i issues IH]; intros acc Hhi Hlo.
  - cbn. lia.
  - simpl List.length in Hlo. rewrite Nat2Z.inj_succ in Hlo.
    simpl fold_left. rewrite !countSeverity_cons.
    unfold Score_step.
    by_severity (Issue_Severity i);
      try (rewrite int_wrap_id by (unfold in_range; lia));
      rewrite IH by lia; lia.
Qed.

Lemma Score_exact issues : ScoreFits issues -> Score issues = Score_spec issues.
Proof.
  unfold ScoreFits, Score, Score_spec. intros H.
  rewrite Score_loop by (rewrite ?maxInt_value; lia).
  destruct (Z.ltb_spec
              (100 - 20 * countSeverity SeverityCritical issues
                   - 7 * countSeverity SeverityWarn issues
                   - 2 * countSeverity SeverityInfo issues) 0); lia.
Qed.

Lemma Score_spec_bounds issues : 0 <= Score_spec issues <= 100.
Proof.
  unfold Score_spec.
  pose proof (countSeverity_nonneg SeverityCritical issues).
  pose proof (countSeverity_nonneg SeverityWarn issues).
  pose proof (countSeverity_nonneg SeverityInfo issues).
  lia.
Qed.

Lemma countSeverity_all s issues :
  Forall (fun i => Issue_Severity i = s) issues ->
  countSeverity s issues = Z.of_nat (List.length issues).
Proof.
  induction 1 as [| i issues Hi _ IH]; [reflexivity |].
  rewrite countSeverity_cons, IH, Hi, String.eqb_refl.
  simpl List.length. lia.
Qed.

Lemma countSeverity_none s s' issues :
  Forall (fun i => Issue_Severity i = s) issues ->
  (s == s') = false ->
  countSeverity s' issues = 0.
Proof.
  intros Hall Hne.
  induction Hall as [| i issues Hi _ IH]; [reflexivity |].
  now rewrite countSeverity_cons, IH, Hi, Hne.
Qed.

(** *** The loops of [Verdict] *)

Lemma issueWithSeverity_Exists s issues :
  issueWithSeverity s issues = true <->
  Exists (fun i => Issue_Severity i = s) issues.
Proof.
  induction issues as [| i issues IH]; simpl.
  - split; [discriminate | intros H; inversion H].
  - destruct (String.eqb_spec (Issue_Severity i) s) as [E | E].
    + split; [intros _; now constructor | reflexivity].
    + rewrite IH. split; [now constructor 2 |].
      intros H; inversion H; subst; [contradiction | assumption].
Qed.

Lemma questionWithSeverity_Exists s questions :
  questionWithSeverity s questions = true <->
  Exists (fun q => Question_Severity q = s) questions.
Proof.
  induction questions as [| q questions IH]; simpl.
  - split; [discriminate | intros H; inversion H].
  - destruct (String.eqb_spec (Question_Severity q) s) as [E | E].
    + split; [intros _; now constructor | reflexivity].
    + rewrite IH. split; [now constructor 2 |].
      intros H; inversion H; subst; [contradiction | assumption].
Qed.

Lemma issueWithSeverity_false s issues :
  ~ Exists (fun i => Issue_Severity i = s) issues ->
  issueWithSeverity s issues = false.
Proof.
  intros H. destruct (issueWithSeverity s issues) eqn:E; [| reflexivity].
  exfalso. apply H. now apply issueWithSeverity_Exists.
Qed.

Lemma questionWithSeverity_false s questions :
  ~ Exists (fun q => Question_Severity q = s) questions ->
  questionWithSeverity s questions = false.
Proof.
  intros H. destruct (questionWithSeverity s questions) eqn:E; [| reflexivity].
  exfalso. apply H. now apply questionWithSeverity_Exists.
Qed.

Lemma Verdict_critical_issue issues questions :
  Exists IsCritical issues -> Verdict issues questions = VerdictInvalid.
Proof.
  intros H. unfold Verdict.
  now rewrite (proj2 (issueWithSeverity_Exists SeverityCritical issues) H).
Qed.

Lemma Verdict_critical_question issues questions :
  Exists IsCriticalQ questions -> Verdict issues questions = VerdictInvalid.
Proof.
  intros H. unfold Verdict.
  rewrite (proj2 (questionWithSeverity_Exists SeverityCritical questions) H).
  now destruct (issueWithSeverity SeverityCritical issues).
Qed.

Lemma Verdict_no_critical issues questions :
  ~ Exists IsCritical issues -> ~ Exists IsCriticalQ questions ->
  Verdict issues questions =
  if issueWithSeverity SeverityWarn issues then VerdictValidWithGaps
  else match issues with
       | [] => VerdictValid
       | _ :: _ => VerdictValidWithGaps
       end.
Proof.
  intros Hi Hq. unfold Verdict.
  rewrite (issueWithSeverity_false Hi), (questionWithSeverity_false Hq).
  destruct (issueWithSeverity SeverityWarn issues); [reflexivity |].
  destruct issues; [reflexivity |].
  simpl List.length. rewrite Nat2Z.inj_succ.
  destruct (Z.ltb_spec 0 (Z.succ (Z.of_nat (List.length issues)))); [reflexivity | lia].
Qed.

(** *** The loop of [Counts] *)

Lemma Counts_loop issues : forall c w i,
  0 <= c -> 0 <= w -> 0 <= i ->
  c + Z.of_nat (List.length issues) <= maxInt ->
  w + Z.of_nat (List.length issues) <= maxInt ->
  i + Z.of_nat (List.length issues) <= maxInt ->
  fold_left Counts_step issues (c, w, i) =
  (c + countSeverity SeverityCritical issues,
   w + countSeverity SeverityWarn issues,
   i + countSeverity SeverityInfo issues).
Proof.
  induction issues as [| x issues IH]; intros c w i Hc Hw Hi Hcm Hwm Him.
  - cbn. now rewrite !Z.add_0_r.
  - simpl List.length in *. rewrite Nat2Z.inj_succ in *.
    cbn [fold_left]. rewrite !countSeverity_cons. unfold Counts_step.
    pose proof minInt_value as Hmin.
    by_severity (Issue_Severity x);
      try (rewrite int_wrap_id by (unfold in_range; lia));
      rewrite IH by lia; (apply f_equal2; [apply f_equal2 |]); lia.
Qed.

(** The three counts are the numbers of issues of each severity. *)
Lemma Counts_exact issues :
  Z.of_nat (List.length issues) <= maxInt ->
  Counts issues =
  (countSeverity SeverityCritical issues,
   countSeverity SeverityWarn issues,
   countSeverity SeverityInfo issues).
Proof.
  intros H. unfold Counts. now rewrite Counts_loop by lia.
Qed.

(** *** The loop of [FilterBySeverity] *)

Lemma FilterBySeverity_loop threshold issues : forall out,
  fold_left (FilterBySeverity_step threshold) issues out =
  (out ++ filter (fun i => meetsSeverity (Issue_Severity i) threshold) issues)%list.
Proof.
  induction issues as [| i issues IH]; intros out; simpl.
  - now rewrite app_nil_r.
  - rewrite IH. unfold FilterBySeverity_step.
    destruct (meetsSeverity (Issue_Severity i) threshold); [| reflexivity].
    now rewrite <- app_assoc.
Qed.

(** Above INFO the code keeps an issue exactly when its ordinal reaches
    the threshold's, whatever the severities in the list are. *)
Lemma FilterBySeverity_above_info issues threshold :
  threshold = SeverityWarn \/ threshold = SeverityCritical ->
  FilterBySeverity issues threshold =
  filter (fun i => meetsSeverity (Issue_Severity i) threshold) issues.
Proof.
  intros [-> | ->]; unfold FilterBySeverity; eval_eqb;
    now rewrite FilterBySeverity_loop.
Qed.

(** Above INFO the two tests agree on every issue: an unrecognised
    severity has ordinal -1 in the code and none in the specification,
    and is kept by neither. *)
Lemma meetsSeverity_atOrAbove_above_info threshold i :
  threshold = SeverityWarn \/ threshold = SeverityCritical ->
  meetsSeverity (Issue_Severity i) threshold = atOrAbove threshold i.
Proof.
  intros Ht. unfold meetsSeverity, atOrAbove, severityOrdinal, ordinal_spec.
  rewrite Z.geb_leb.
  destruct Ht as [-> | ->]; by_severity (Issue_Severity i); reflexivity.
Qed.

Lemma Filter_spec_info issues :
  Forall (fun i => ValidSeverity (Issue_Severity i)) issues ->
  Filter_spec issues SeverityInfo = issues.
Proof.
  unfold Filter_spec.
  induction 1 as [| i issues Hi _ IH]; [reflexivity |].
  simpl. rewrite IH. unfold atOrAbove.
  rewrite (valid_ordinal Hi). change (ordinal_spec SeverityInfo) with (Some 0).
  pose proof (ordinal_nonneg Hi) as Hnn.
  apply Z.leb_le in Hnn. cbv beta iota. now rewrite Hnn.
Qed.

(** C2. For every issue list (of a length whose deductions fit a 64-bit
    [int]) [Score] is 100 minus 20 per CRITICAL issue, 7 per WARN issue
    and 2 per INFO issue, clamped below at 0; the result lies in
    [0, 100]; the score written into the summary depends on the issues
    of the report only, not on its questions; and six CRITICAL issues
    and nothing else score 0. *)
Theorem Score_formula_and_bounds (issues : list Issue) :
  ScoreFits issues ->
  Score issues =
    Z.max 0 (100 - 20 * countSeverity SeverityCritical issues
                 - 7 * countSeverity SeverityWarn issues
                 - 2 * countSeverity SeverityInfo issues)
  /\ 0 <= Score issues <= 100
  /\ (forall (float64 : Type) version specPath specHash flags llmModel
             (report : Report float64),
         Report_Issues report = issues ->
         Summary_Score
           (Report_Summary
              (Main.populateAndFilter version specPath specHash flags
                                      report llmModel))
         = Score issues)
  /\ (List.length issues = 6%nat -> Forall IsCritical issues ->
       Score issues = 0).
Proof.
  intros Hfit. pose proof (Score_exact Hfit) as Hex.
  pose proof (Score_spec_bounds issues) as Hb.
  repeat split.
  - exact Hex.
  - rewrite Hex; apply Hb.
  - rewrite Hex; apply Hb.
  - intros float64 version specPath specHash flags llmModel report <-.
    unfold Main.populateAndFilter.
    destruct (Counts (Report_Issues report)) as [[c w] i]. reflexivity.
  - intros Hlen Hall. rewrite Hex. unfold Score_spec.
    rewrite (countSeverity_all Hall), Hlen.
    rewrite (countSeverity_none SeverityWarn Hall) by reflexivity.
    rewrite (countSeverity_none SeverityInfo Hall) by reflexivity.
    reflexivity.
Qed.

(** C8. For every issue list and every threshold among INFO, WARN and
    CRITICAL, [FilterBySeverity] returns exactly the issues whose ordinal
    (INFO=0, WARN=1, CRITICAL=2) is at least the threshold's, in their
    original order ([filter] keeps the order of the list), and with
    threshold INFO it returns the list itself. The severities of the
    issues are those of the data model, INFO, WARN or CRITICAL, which is
    needed for threshold INFO only. *)
Theorem FilterBySeverity_ordinal_filter (issues : list Issue)
        (threshold : Severity) :
  ValidSeverity threshold ->
  (threshold = SeverityInfo ->
   Forall (fun i => ValidSeverity (Issue_Severity i)) issues) ->
  FilterBySeverity issues threshold = Filter_spec issues threshold
  /\ (Forall (fun i => ValidSeverity (Issue_Severity i)) issues ->
      Filter_spec issues SeverityInfo = issues)
  /\ FilterBySeverity issues SeverityInfo = issues.
Proof.
  intros Ht Hall. split; [| split; [apply Filter_spec_info | reflexivity]].
  destruct Ht as [-> | Ht].
  - now rewrite (Filter_spec_info (Hall eq_refl)).
  - rewrite FilterBySeverity_above_info by exact Ht.
    unfold Filter_spec. apply filter_ext. intros i.
    now apply meetsSeverity_atOrAbove_above_info.
Qed.

End ReviewFacts.

(** ** Strings *)

Module StringFacts.
Import Strings.

Lemma append_assoc (a b c : string) : (a ++ b) ++ c = a ++ (b ++ c).
Proof. induction a as [| x a IH]; simpl; [reflexivity | now rewrite IH]. Qed.

Lemma append_nil_r (a : string) : a ++ "" = a.
Proof. induction a as [| x a IH]; simpl; [reflexivity | now rewrite IH]. Qed.

Lemma length_append (a b : string) :
  String.length (a ++ b) = (String.length a + String.length b)%nat.
Proof. induction a as [| x a IH]; simpl; [reflexivity | now rewrite IH]. Qed.

Lemma concat_cons (x : string) (xs : list string) :
  String.concat "" (x :: xs) = x ++ String.concat "" xs.
Proof. destruct xs; simpl; [now rewrite append_nil_r | reflexivity]. Qed.

Lemma substring_all s : String.substring 0 (String.length s) s = s.
Proof. induction s as [| c s IH]; simpl; [reflexivity | now rewrite IH]. Qed.

Lemma prefix_split lit : forall s,
  String.prefix lit s = true -> exists rest, s = lit ++ rest.
Proof.
  induction lit as [| c lit IH]; intros s H.
  - now exists s.
  - destruct s as [| c' s]; simpl in H; [discriminate |].
    destruct (Ascii.ascii_dec c c') as [-> | ]; [| discriminate].
    destruct (IH s H) as [rest ->]. now exists rest.
Qed.

Lemma prefix_append lit rest : String.prefix lit (lit ++ rest) = true.
Proof.
  induction lit as [| c lit IH]; simpl; [now destruct rest |].
  destruct (Ascii.ascii_dec c c); [assumption | contradiction].
Qed.

Lemma slice_from_append lit rest :
  slice_from (lit ++ rest) (len lit) = rest.
Proof.
  unfold slice_from, len. rewrite Nat2Z.id.
  induction lit as [| c lit IH]; simpl.
  - rewrite Nat.sub_0_r. apply substring_all.
  - exact IH.
Qed.

Lemma Contains_prefix s substr :
  String.prefix substr s = true -> Contains s substr = true.
Proof. intros H. destruct s; simpl; simpl in H; now rewrite H. Qed.

Lemma Contains_append_r a b substr :
  Contains b substr = true -> Contains (a ++ b) substr = true.
Proof.
  induction a as [| c a IH]; intros H; simpl; [exact H |].
  destruct substr as [| d substr]; [reflexivity |].
  destruct (Ascii.ascii_dec d c); [| now apply IH].
  destruct (String.prefix substr (a ++ b)); [reflexivity | now apply IH].
Qed.

Lemma Contains_append_l a b substr :
  Contains a substr = true -> Contains (a ++ b) substr = true.
Proof.
  induction a as [| c a IH]; intros H.
  - simpl in H. destruct substr; [| discriminate].
    now destruct b.
  - simpl in H. simpl.
    destruct substr as [| d substr]; [reflexivity |].
    destruct (Ascii.ascii_dec d c) as [-> |]; [| now apply IH].
    destruct (String.prefix substr a) eqn:Hp.
    + destruct (prefix_split _ _ Hp) as [rest ->].
      rewrite append_assoc, prefix_append. reflexivity.
    + destruct (String.prefix substr (a ++ b)); [reflexivity | now apply IH].
Qed.

End StringFacts.

(** ** The validator *)

Module ValidateFacts.
Import Schema Spec Validate StringFacts SeverityFacts.

Lemma fourDigits_iff s :
  fourDigits s = true <->
  exists a b c d,
    s = String a (String b (String c (String d EmptyString)))
    /\ isDigit a = true /\ isDigit b = true
    /\ isDigit c = true /\ isDigit d = true.
Proof.
  split.
  - destruct s as [| a [| b [| c [| d [| e s]]]]]; simpl; try discriminate.
    intros H.
    apply andb_true_iff in H as [H Hd]. apply andb_true_iff in H as [H Hc].
    apply andb_true_iff in H as [Ha Hb].
    exists a, b, c, d. auto.
  - intros (a & b & c & d & -> & Ha & Hb & Hc & Hd). simpl.
    now rewrite Ha, Hb, Hc, Hd.
Qed.

Lemma matchLitFourDigits_iff lit s :
  matchLitFourDigits lit s = true <-> IDFormat lit s.
Proof.
  unfold matchLitFourDigits, IDFormat. rewrite andb_true_iff. split.
  - intros [Hp Hd]. destruct (prefix_split _ _ Hp) as [rest ->].
    rewrite slice_from_append in Hd. apply fourDigits_iff in Hd.
    destruct Hd as (a & b & c & d & -> & H). now exists a, b, c, d.
  - intros (a & b & c & d & -> & H). split; [apply prefix_append |].
    rewrite slice_from_append. apply fourDigits_iff. now exists a, b, c, d.
Qed.

Lemma IsValidCategory_In c : IsValidCategory c = true <-> In c categories.
Proof.
  unfold IsValidCategory. rewrite existsb_exists. split.
  - intros (x & Hin & Heq). apply String.eqb_eq in Heq. now subst.
  - intros Hin. exists c. split; [assumption | apply String.eqb_refl].
Qed.

(** *** The range loops *)

Section RangeErr.
Variable A : Type.
Variable body : Z -> A -> option error.



Variable P : A -> Prop.
Hypothesis body_None : forall i x, body i x = None <-> P x.

Lemma rangeErr_None_Forall xs : forall i,
  rangeErr body i xs = None <-> Forall P xs.
Proof.
  induction xs as [| x xs IH]; intros i; simpl.
  - split; [constructor | reflexivity].
  - destruct (body i x) as [e |] eqn:Hx.
    + split; [discriminate |]. intros H. inversion H; subst.
      apply body_None with (i := i) in H2. congruence.
    + rewrite IH. split.
      * intros H. constructor; [now apply (body_None i) | assumption].
      * intros H. now inversion H.
Qed.
End RangeErr.

Section WithLibraries.
Variable float64 : Type.
Variable Quote : string -> string.
Variable TrimSpace : string -> string.
Variable json_Unmarshal : string -> result (Report float64).

Lemma validateSeverity_None s prefix :
  validateSeverity Quote s prefix = None <-> ValidSeverity s.
Proof.
  unfold validateSeverity, ValidSeverity.
  destruct (String.eqb_spec s SeverityInfo) as [Hi | Hi]; simpl.
  { split; auto. }
  destruct (String.eqb_spec s SeverityWarn) as [Hw | Hw]; simpl.
  { split; auto. }
  destruct (String.eqb_spec s SeverityCritical) as [Hc | Hc]; simpl.
  { split; auto. }
  split; [discriminate | intros [? | [? | ?]]; contradiction].
Qed.

Lemma validateEvidence_None ev prefix lineCount :
  validateEvidence ev prefix lineCount = None <-> EvidenceOK lineCount ev.
Proof.
  unfold validateEvidence, EvidenceOK.
  rewrite !Z.gtb_ltb.
  destruct (Z.ltb_spec (Evidence_LineStart ev) 1).
  { split; [discriminate | lia]. }
  destruct (Z.ltb_spec (Evidence_LineEnd ev) (Evidence_LineStart ev)).
  { split; [discriminate | lia]. }
  destruct (Z.ltb_spec 0 lineCount); simpl.
  - destruct (Z.ltb_spec lineCount (Evidence_LineEnd ev)).
    + split; [discriminate | lia].
    + split; [lia | reflexivity].
  - split; [lia | reflexivity].
Qed.

Lemma validateEvidenceAll_None evs prefix lineCount :
  validateEvidenceAll evs prefix lineCount = None <->
  Forall (EvidenceOK lineCount) evs.
Proof.
  unfold validateEvidenceAll. apply rangeErr_None_Forall.
  intros j ev. apply validateEvidence_None.
Qed.

Lemma validateIssue_None issue idx lineCount :
  validateIssue Quote issue idx lineCount = None <-> IssueOK lineCount issue.
Proof.
  unfold validateIssue, IssueOK, issueIDPattern_MatchString.
  destruct (matchLitFourDigits "ISSUE-" (Issue_ID issue)) eqn:Hid; simpl negb;
    cbv iota.
  2:{ split; [discriminate |]. intros (Hf & _).
      apply matchLitFourDigits_iff in Hf. congruence. }
  apply matchLitFourDigits_iff in Hid.
  destruct (validateSeverity Quote (Issue_Severity issue) _) as [e |] eqn:Hsev.
  { split; [discriminate |]. intros (_ & Hs & _).
    apply (validateSeverity_None _ ("issue[" ++ Fmt.itoa idx ++ "]")) in Hs.
    congruence. }
  apply validateSeverity_None in Hsev.
  destruct (IsValidCategory (Issue_Category issue)) eqn:Hcat; simpl negb;
    cbv iota.
  2:{ split; [discriminate |]. intros (_ & _ & Hc & _).
      apply IsValidCategory_In in Hc. congruence. }
  apply IsValidCategory_In in Hcat.
  destruct (String.eqb_spec (Issue_Title issue) "") as [Ht | Ht].
  { split; [discriminate |]. intros (_ & _ & _ & Hne & _). contradiction. }
  rewrite validateEvidenceAll_None. tauto.
Qed.

Lemma validateQuestion_None q idx lineCount :
  validateQuestion Quote q idx lineCount = None <-> QuestionOK lineCount q.
Proof.
  unfold validateQuestion, QuestionOK, questionIDPattern_MatchString.
  destruct (matchLitFourDigits "Q-" (Question_ID q)) eqn:Hid; simpl negb;
    cbv iota.
  2:{ split; [discriminate |]. intros (Hf & _).
      apply matchLitFourDigits_iff in Hf. congruence. }
  apply matchLitFourDigits_iff in Hid.
  destruct (validateSeverity Quote (Question_Severity q) _) as [e |] eqn:Hsev.
  { split; [discriminate |]. intros (_ & Hs & _).
    apply (validateSeverity_None _ ("question[" ++ Fmt.itoa idx ++ "]")) in Hs.
    congruence. }
  apply validateSeverity_None in Hsev.
  destruct (String.eqb_spec (Question_Question q) "") as [Ht | Ht].
  { split; [discriminate |]. intros (_ & _ & Hne & _). contradiction. }
  rewrite validateEvidenceAll_None. tauto.
Qed.

Lemma validateReport_None (r : Report float64) lineCount :
  validateReport Quote r lineCount = None <->
  Forall (IssueOK lineCount) (Report_Issues r)
  /\ Forall (QuestionOK lineCount) (Report_Questions r).
Proof.
  unfold validateReport.
  pose proof (rangeErr_None_Forall
                (fun i issue => validateIssue Quote issue i lineCount)
                (IssueOK lineCount)
                (fun i x => validateIssue_None x i lineCount)
                (Report_Issues r) 0) as Hi.
  pose proof (rangeErr_None_Forall
                (fun i q => validateQuestion Quote q i lineCount)
                (QuestionOK lineCount)
                (fun i x => validateQuestion_None x i lineCount)
                (Report_Questions r) 0) as Hq.
  destruct (rangeErr _ 0 (Report_Issues r)) as [e |].
  - split; [discriminate |]. intros [H _]. apply Hi in H. discriminate.
  - rewrite Hq. split; [intros H; split; [now apply Hi | exact H] | tauto].
Qed.

(** A parse that succeeds returns the decoded report itself, and only
    when the validator found nothing. *)
Lemma Parse_Ok_inv raw lineCount r :
  Parse Quote TrimSpace json_Unmarshal raw lineCount = Ok r ->
  json_Unmarshal (stripFences TrimSpace raw) = Ok r
  /\ validateReport Quote r lineCount = None.
Proof.
  unfold Parse.
  destruct (json_Unmarshal (stripFences TrimSpace raw)) as [r' | e];
    [| discriminate].
  destruct (validateReport Quote r' lineCount) eqn:Hv; [discriminate |].
  intros H; injection H as <-. auto.
Qed.

Lemma Parse_Ok_intro raw lineCount r :
  json_Unmarshal (stripFences TrimSpace raw) = Ok r ->
  validateReport Quote r lineCount = None ->
  Parse Quote TrimSpace json_Unmarshal raw lineCount = Ok r.
Proof. unfold Parse. now intros -> ->. Qed.

End WithLibraries.

End ValidateFacts.

(** ** Validation: what is accepted, what is rejected, and how *)

Module ValidationClaims.
Import Schema Spec Validate StringFacts SeverityFacts ValidateFacts ReviewFacts.

Lemma sanitizeErrForPrompt_fixed err :
  In (Main.sanitizeErrForPrompt err) promptCategories.
Proof.
  unfold Main.sanitizeErrForPrompt, promptCategories.
  repeat match goal with
         | |- context [if ?c then _ else _] => destruct c
         end; simpl; tauto.
Qed.


Lemma Verdict_cases issues questions :
  (Exists IsCritical issues \/ Exists IsCriticalQ questions ->
   Review.Verdict issues questions = VerdictInvalid)
  /\ (~ Exists IsCritical issues -> ~ Exists IsCriticalQ questions ->
      Exists IsWarn issues ->
      Review.Verdict issues questions = VerdictValidWithGaps)
  /\ (~ Exists IsCritical issues -> ~ Exists IsCriticalQ questions ->
      ~ Exists IsWarn issues -> issues <> [] ->
      Review.Verdict issues questions = VerdictValidWithGaps)
  /\ (~ Exists IsCritical issues -> ~ Exists IsCriticalQ questions ->
      issues = [] ->
      Review.Verdict issues questions = VerdictValid).
Proof.
  repeat split.
  - intros [H | H];
      [now apply Verdict_critical_issue | now apply Verdict_critical_question].
  - intros Hi Hq Hw. rewrite (Verdict_no_critical Hi Hq).
    now rewrite (proj2 (issueWithSeverity_Exists SeverityWarn issues) Hw).
  - intros Hi Hq Hw Hne. rewrite (Verdict_no_critical Hi Hq).
    rewrite (issueWithSeverity_false Hw). now destruct issues.
  - intros Hi Hq ->. now rewrite (Verdict_no_critical Hi Hq).
Qed.

Lemma info_only issues :
  Forall (fun i => ValidSeverity (Issue_Severity i)) issues ->
  ~ Exists IsCritical issues -> ~ Exists IsWarn issues ->
  Forall IsInfo issues.
Proof.
  induction 1 as [| i issues Hi _ IH]; intros Hc Hw; constructor.
  - destruct Hi as [Hi | [Hi | Hi]]; [exact Hi | |];
      exfalso; [apply Hw | apply Hc]; now constructor.
  - apply IH; intros H; [apply Hc | apply Hw]; now constructor 2.
Qed.

Section WithLibraries.
Variable float64 : Type.
Variable Quote : string -> string.
Variable TrimSpace : string -> string.
Variable json_Unmarshal : string -> result (Report float64).

Lemma validated_severities (r : Report float64) lineCount :
  validateReport Quote r lineCount = None ->
  Forall (fun i => ValidSeverity (Issue_Severity i)) (Report_Issues r).
Proof.
  intros H. apply validateReport_None in H. destruct H as [H _].
  eapply Forall_impl; [| exact H]. now intros i (_ & Hs & _).
Qed.

(** C1. For every validated report, [Verdict] is INVALID if an issue
    or a question is CRITICAL (so also for no issues and a single
    CRITICAL question); otherwise VALID_WITH_GAPS if an issue is
    WARN; otherwise VALID_WITH_GAPS if the issue list is non-empty,
    all its issues then being INFO; otherwise VALID. *)
Theorem Verdict_of_validated_report (r : Report float64) (lineCount : Z) :
  validateReport Quote r lineCount = None ->
  let issues := Report_Issues r in
  let questions := Report_Questions r in
  (Exists IsCritical issues \/ Exists IsCriticalQ questions ->
   Review.Verdict issues questions = VerdictInvalid)
  /\ (issues = [] -> (exists q, questions = [q] /\ IsCriticalQ q) ->
      Review.Verdict issues questions = VerdictInvalid)
  /\ (~ Exists IsCritical issues -> ~ Exists IsCriticalQ questions ->
      Exists IsWarn issues ->
      Review.Verdict issues questions = VerdictValidWithGaps)
  /\ (~ Exists IsCritical issues -> ~ Exists IsCriticalQ questions ->
      ~ Exists IsWarn issues -> issues <> [] ->
      Review.Verdict issues questions = VerdictValidWithGaps
      /\ Forall IsInfo issues)
  /\ (~ Exists IsCritical issues -> ~ Exists IsCriticalQ questions ->
      issues = [] ->
      Review.Verdict issues questions = VerdictValid).
Proof.
  intros Hval issues questions.
  destruct (Verdict_cases issues questions) as (Hcrit & Hwarn & Hinfo & Hnone).
  repeat split; auto.
  - intros _ (q & -> & Hq). apply Hcrit. right. now constructor.
  - apply info_only; auto. exact (validated_severities _ _ Hval).
Qed.

(** C7. Validation succeeds only if every evidence entry of every
    issue and question has 1 <= lineStart <= lineEnd and, for a
    positive line count, lineEnd <= lineCount; an entry passes its
    check exactly under these bounds, and with line count 0 exactly
    when 1 <= lineStart <= lineEnd, however large the numbers. *)
Theorem evidence_line_bounds (r : Report float64) (lineCount : Z) :
  (validateReport Quote r lineCount = None ->
   Forall (fun ev =>
             1 <= Evidence_LineStart ev <= Evidence_LineEnd ev
             /\ (0 < lineCount -> Evidence_LineEnd ev <= lineCount))
          (allEvidence r))
  /\ (forall ev prefix,
        validateEvidence ev prefix lineCount = None <->
        1 <= Evidence_LineStart ev <= Evidence_LineEnd ev
        /\ (0 < lineCount -> Evidence_LineEnd ev <= lineCount))
  /\ (forall ev prefix,
        validateEvidence ev prefix 0 = None <->
        1 <= Evidence_LineStart ev <= Evidence_LineEnd ev).
Proof.
  clear json_Unmarshal TrimSpace.
  split; [| split].
  - intros H. apply validateReport_None in H. destruct H as [Hi Hq].
    unfold allEvidence. apply Forall_app. split.
    + apply Forall_flat_map. eapply Forall_impl; [| exact Hi].
      now intros i (_ & _ & _ & _ & Hev).
    + apply Forall_flat_map. eapply Forall_impl; [| exact Hq].
      now intros q (_ & _ & _ & Hev).
  - intros ev prefix. apply validateEvidence_None.
  - intros ev prefix. rewrite validateEvidence_None. unfold EvidenceOK.
    split; [tauto | intros H; split; [exact H | lia]].
Qed.

(** C10. The validator never looks at the patches array: the result
    of [validateReport] is the same whatever the patches are, and a
    decoded report whose issues and questions satisfy the schema
    constraints is accepted by [Parse] and returned as decoded, with
    its patches as they came. *)
Theorem patches_not_validated (r : Report float64) (lineCount : Z)
        (patches : list Schema.Patch) :
  Forall (IssueOK lineCount) (Report_Issues r) ->
  Forall (QuestionOK lineCount) (Report_Questions r) ->
  (forall other,
      validateReport Quote (withPatches r other) lineCount
      = validateReport Quote (withPatches r patches) lineCount)
  /\ validateReport Quote (withPatches r patches) lineCount = None
  /\ (forall raw,
         json_Unmarshal (stripFences TrimSpace raw) = Ok (withPatches r patches) ->
         Parse Quote TrimSpace json_Unmarshal raw lineCount
         = Ok (withPatches r patches)).
Proof.
  intros Hi Hq.
  assert (Hnone : validateReport Quote (withPatches r patches) lineCount = None)
    by (apply validateReport_None; now split).
  split; [reflexivity | split; [exact Hnone |]].
  intros raw Hdec. now apply Parse_Ok_intro.
Qed.


End WithLibraries.

End ValidationClaims.

(** ** The orchestration *)

Module MainFacts.
Import Schema Spec Strings Llm Main ValidateFacts ValidationClaims.

Section WithWorld.
Variable float64 : Type.
Variable Quote : string -> string.
Variable TrimSpace : string -> string.
Variable json_Unmarshal : string -> result (Report float64).
Variable Provider : Type.
Variable Complete :
  Provider -> Request float64 -> result Response * Provider.
Variable version : string.

Abbreviation World := (World float64 Provider).
Abbreviation parse := (Validate.Parse Quote TrimSpace json_Unmarshal).
Abbreviation callWithRetry :=
  (callWithRetry Quote TrimSpace json_Unmarshal Complete).
Abbreviation runCheck_steps11to14 :=
  (runCheck_steps11to14 Quote TrimSpace json_Unmarshal Complete version).
Abbreviation repairRequest := (repairRequest Quote).

Lemma callWithRetry_transport_failure (w : World) req lineCount verbose err p1 :
  Complete (provider w) req = (Err err, p1) ->
  runState (callWithRetry req lineCount verbose) w =
  (Err ("LLM call failed: " ++ err),
   {| provider := p1; stderr := stderr w; calls := calls w ++ [req] |}).
Proof.
  intros H. unfold Main.callWithRetry, provider_Complete.
  cbn -[String.append]. rewrite H. reflexivity.
Qed.

Lemma callWithRetry_first_valid (w : World) req lineCount verbose resp p1 report :
  Complete (provider w) req = (Ok resp, p1) ->
  parse (Content resp) lineCount = Ok report ->
  runState (callWithRetry req lineCount verbose) w =
  (Ok (report, Response_Model resp),
   {| provider := p1; stderr := stderr w; calls := calls w ++ [req] |}).
Proof.
  intros H Hp. unfold Main.callWithRetry, provider_Complete.
  cbn -[String.append]. rewrite H. cbn -[String.append]. rewrite Hp.
  reflexivity.
Qed.

Lemma callWithRetry_repair (w : World) req lineCount verbose resp p1
      parseErr r2 p2 :
  Complete (provider w) req = (Ok resp, p1) ->
  parse (Content resp) lineCount = Err parseErr ->
  Complete p1 (repairRequest req parseErr) = (r2, p2) ->
  runState (callWithRetry req lineCount verbose) w =
  (match r2 with
   | Err err => Err ("LLM retry call failed: " ++ err)
   | Ok resp2 =>
       match parse (Content resp2) lineCount with
       | Err parseErr2 => Err ("invalid model output after retry: " ++ parseErr2)
       | Ok report => Ok (report, Response_Model resp2)
       end
   end,
   {| provider := p2;
      stderr :=
        if verbose
        then stderr w ++ "INFO: " ++ ("Validation failed, retrying: " ++ parseErr) ++ LF
        else stderr w;
      calls := (calls w ++ [req]) ++ [repairRequest req parseErr] |}).
Proof.
  intros H Hp H2. unfold Main.callWithRetry, provider_Complete.
  cbn -[String.append]. rewrite H. cbn -[String.append]. rewrite Hp.
  unfold repairRequest in H2. unfold repairSuffix.
  destruct verbose; cbn -[String.append]; rewrite H2; cbn -[String.append];
    destruct r2 as [resp2 | err]; try reflexivity;
    destruct (parse (Content resp2) lineCount); reflexivity.
Qed.

(** In every run of [callWithRetry] the provider's [Complete] is
    called once or twice and never a third time: once when the first
    call fails in transport or its output validates; otherwise the
    first call is followed by exactly one repair call, with the same
    system prompt, temperature, max-tokens budget and model, whose
    user prompt is the original one followed by a fixed sentence
    quoting the label [sanitizeErrForPrompt] gives the error of the
    validator, one of the seven fixed category labels. *)
Theorem callWithRetry_at_most_one_repair (w : World)
        (req : Request float64) (lineCount : Z) (verbose : bool) :
  exists made,
    calls (snd (runState (callWithRetry req lineCount verbose) w))
    = (calls w ++ made)%list
    /\ (1 <= List.length made <= 2)%nat
    /\ match fst (Complete (provider w) req) with
       | Err _ => made = [req]
       | Ok resp =>
           match parse (Content resp) lineCount with
           | Ok _ => made = [req]
           | Err parseErr =>
               In (sanitizeErrForPrompt parseErr) promptCategories
               /\ made =
                  [ req;
                    {| SystemPrompt := SystemPrompt req;
                       UserPrompt :=
                         UserPrompt req ++ LF ++ LF
                           ++ "Your previous response failed schema validation (error category: "
                           ++ Quote (sanitizeErrForPrompt parseErr)
                           ++ "). Return only valid JSON matching the schema above.";
                       Temperature := Temperature req;
                       MaxTokens := MaxTokens req;
                       Model := Model req |} ]
           end
       end.
Proof.
  destruct (Complete (provider w) req) as [[resp | err] p1] eqn:H1.
  - destruct (parse (Content resp) lineCount) as [report | parseErr] eqn:Hp.
    + exists [req]. rewrite (callWithRetry_first_valid _ _ verbose H1 Hp).
      cbn. rewrite Hp. auto.
    + destruct (Complete p1 (repairRequest req parseErr)) as [r2 p2] eqn:H2.
      exists [req; repairRequest req parseErr].
      rewrite (callWithRetry_repair _ _ verbose H1 Hp H2).
      cbn -[String.append]. rewrite Hp. rewrite <- app_assoc.
      repeat split; auto.
      apply sanitizeErrForPrompt_fixed.
  - exists [req]. rewrite (callWithRetry_transport_failure _ _ verbose H1).
    cbn. auto.
Qed.

(** The result of the call does not depend on the verbosity. *)
Lemma callWithRetry_result_verbose (w : World) req lineCount v1 v2 :
  fst (runState (callWithRetry req lineCount v1) w)
  = fst (runState (callWithRetry req lineCount v2) w).
Proof.
  destruct (Complete (provider w) req) as [[resp | err] p1] eqn:H1.
  - destruct (parse (Content resp) lineCount) as [report | parseErr] eqn:Hp.
    + now rewrite !(callWithRetry_first_valid _ _ _ H1 Hp).
    + destruct (Complete p1 (repairRequest req parseErr)) as [r2 p2] eqn:H2.
      now rewrite !(callWithRetry_repair _ _ _ H1 Hp H2).
  - now rewrite !(callWithRetry_transport_failure _ _ _ H1).
Qed.

(** A report that [callWithRetry] returns went through the validator. *)
Lemma callWithRetry_validated (w : World) req lineCount verbose report model :
  fst (runState (callWithRetry req lineCount verbose) w) = Ok (report, model) ->
  Validate.validateReport Quote report lineCount = None.
Proof.
  destruct (Complete (provider w) req) as [[resp | err] p1] eqn:H1.
  - destruct (parse (Content resp) lineCount) as [report1 | parseErr] eqn:Hp.
    + rewrite (callWithRetry_first_valid _ _ _ H1 Hp). cbn.
      intros H; injection H as <- _.
      now apply Parse_Ok_inv in Hp.
    + destruct (Complete p1 (repairRequest req parseErr)) as [r2 p2] eqn:H2.
      rewrite (callWithRetry_repair _ _ _ H1 Hp H2). cbn -[String.append].
      destruct r2 as [resp2 | err]; [| discriminate].
      destruct (parse (Content resp2) lineCount) as [report2 | e2] eqn:Hp2;
        [| discriminate].
      intros H; injection H as <- _.
      now apply Parse_Ok_inv in Hp2.
  - rewrite (callWithRetry_transport_failure _ _ _ H1). discriminate.
Qed.

Lemma runCheck_steps11to14_run (w : World) specPath specHash flags req lineCount :
  fst (runState (runCheck_steps11to14 specPath specHash flags req lineCount) w)
  = match fst (runState (callWithRetry req lineCount (verbose flags)) w) with
    | Err callErr => inl (codeError 5 callErr)
    | Ok (report, llmModel) =>
        inr (populateAndFilter version specPath specHash flags report llmModel)
    end.
Proof.
  unfold Main.runCheck_steps11to14. cbn -[Main.callWithRetry populateAndFilter].
  destruct (runState (callWithRetry req lineCount (verbose flags)) w)
    as [[[report llmModel] | callErr] w']; reflexivity.
Qed.

Lemma populateAndFilter_summary specPath specHash flags
      (report : Report float64) llmModel :
  Report_Summary
    (populateAndFilter version specPath specHash flags report llmModel)
  = summaryOf (Report_Issues report) (Report_Questions report).
Proof.
  unfold populateAndFilter, summaryOf.
  destruct (Review.Counts (Report_Issues report)) as [[c wn] i]. reflexivity.
Qed.

Lemma populateAndFilter_issues specPath specHash flags
      (report : Report float64) llmModel :
  Report_Issues
    (populateAndFilter version specPath specHash flags report llmModel)
  = Review.FilterBySeverity (Report_Issues report)
                            (parseSeverityThreshold (severityThreshold flags)).
Proof.
  unfold populateAndFilter.
  destruct (Review.Counts (Report_Issues report)) as [[c wn] i]. reflexivity.
Qed.

(** C3. For every run that reaches a validated report (the one
    [callWithRetry] returns) and every pair of flag settings, so every
    pair of severity thresholds, the two emitted reports carry the same
    summary, the one computed by [Verdict], [Score] and [Counts] from
    the unfiltered issues and questions of the validated report; the
    threshold shows only in the emitted issues list, which is the
    filtered view of those issues. A run that fails fails the same way
    under both. *)
Theorem summary_independent_of_threshold (w : World)
        (specPath specHash : string) (flags1 flags2 : checkFlags float64)
        (req : Request float64) (lineCount : Z) :
  match
    fst (runState (runCheck_steps11to14 specPath specHash flags1 req lineCount) w),
    fst (runState (runCheck_steps11to14 specPath specHash flags2 req lineCount) w)
  with
  | inr out1, inr out2 =>
      exists (report : Report float64) (llmModel : string),
        fst (runState (callWithRetry req lineCount (verbose flags1)) w)
        = Ok (report, llmModel)
        /\ Validate.validateReport Quote report lineCount = None
        /\ Report_Summary out1
           = summaryOf (Report_Issues report) (Report_Questions report)
        /\ Report_Summary out2 = Report_Summary out1
        /\ Report_Issues out1
           = Review.FilterBySeverity
               (Report_Issues report)
               (parseSeverityThreshold (severityThreshold flags1))
        /\ Report_Issues out2
           = Review.FilterBySeverity
               (Report_Issues report)
               (parseSeverityThreshold (severityThreshold flags2))
  | inl e1, inl e2 => e1 = e2
  | _, _ => False
  end.
Proof.
  rewrite !runCheck_steps11to14_run.
  rewrite (callWithRetry_result_verbose w req lineCount
                                        (verbose flags2) (verbose flags1)).
  destruct (fst (runState (callWithRetry req lineCount (verbose flags1)) w))
    as [[report llmModel] | callErr] eqn:Hrun; [| reflexivity].
  exists report, llmModel.
  rewrite !populateAndFilter_summary, !populateAndFilter_issues.
  split; [reflexivity |].
  split; [exact (callWithRetry_validated _ _ _ _ Hrun) | auto].
Qed.

(** The errors of [callWithRetry] are three messages with different
    prefixes: a transport failure of the first call, a transport
    failure of the repair call, and validation failing on both
    attempts. *)
Lemma callWithRetry_error_kinds (w : World) req lineCount verbose e :
  fst (runState (callWithRetry req lineCount verbose) w) = Err e ->
  (exists err p1,
      Complete (provider w) req = (Err err, p1)
      /\ e = "LLM call failed: " ++ err)
  \/ (exists resp p1 parseErr,
         Complete (provider w) req = (Ok resp, p1)
         /\ parse (Content resp) lineCount = Err parseErr
         /\ ((exists err p2,
                 Complete p1 (repairRequest req parseErr) = (Err err, p2)
                 /\ e = "LLM retry call failed: " ++ err)
             \/ (exists resp2 p2 parseErr2,
                    Complete p1 (repairRequest req parseErr) = (Ok resp2, p2)
                    /\ parse (Content resp2) lineCount = Err parseErr2
                    /\ e = "invalid model output after retry: " ++ parseErr2))).
Proof.
  destruct (Complete (provider w) req) as [[resp | err] p1] eqn:H1.
  - destruct (parse (Content resp) lineCount) as [report | parseErr] eqn:Hp.
    + rewrite (callWithRetry_first_valid _ _ _ H1 Hp). discriminate.
    + destruct (Complete p1 (repairRequest req parseErr)) as [r2 p2] eqn:H2.
      rewrite (callWithRetry_repair _ _ _ H1 Hp H2). cbn -[String.append].
      intros He. right. exists resp, p1, parseErr.
      split; [reflexivity | split; [exact Hp |]].
      destruct r2 as [resp2 | err].
      * right. exists resp2, p2.
        destruct (parse (Content resp2) lineCount) as [report2 | parseErr2];
          [discriminate |].
        exists parseErr2. injection He as <-. auto.
      * left. exists err, p2. injection He as <-. auto.
  - rewrite (callWithRetry_transport_failure _ _ _ H1). cbn -[String.append].
    intros He. injection He as <-. left. now exists err, p1.
Qed.

(** Every error of [callWithRetry], whichever of its three it is,
    leaves [runCheck] with exit code 5. *)
Lemma call_error_exit_code (w : World) specPath specHash flags req lineCount e :
  fst (runState (callWithRetry req lineCount (verbose flags)) w) = Err e ->
  fst (runState (runCheck_steps11to14 specPath specHash flags req lineCount) w)
  = inl {| code := 5; msg := e |}.
Proof. intros H. now rewrite runCheck_steps11to14_run, H. Qed.

End WithWorld.

End MainFacts.

(** ** Patch anchoring *)

Module PatchFacts.
Import Schema Spec Strings Patch StringFacts.

Lemma resolve_exact p specRaw normSpec :
  Contains specRaw (Patch_Before p) = true ->
  resolve p specRaw normSpec =
  ({| issueID := Patch_IssueID p; before := Patch_Before p;
      after := Patch_After p |}, true).
Proof. intros H. unfold resolve. now rewrite H. Qed.

Lemma resolve_normalized p specRaw normSpec :
  Contains specRaw (Patch_Before p) = false ->
  Contains normSpec (normalize (Patch_Before p)) = true ->
  resolve p specRaw normSpec =
  ({| issueID := Patch_IssueID p; before := normalize (Patch_Before p);
      after := normalize (Patch_After p) |}, true).
Proof. intros H1 H2. unfold resolve. now rewrite H1, H2. Qed.

Lemma resolve_miss p specRaw normSpec :
  Contains specRaw (Patch_Before p) = false ->
  Contains normSpec (normalize (Patch_Before p)) = false ->
  resolve p specRaw normSpec = (diffPatch_zero, false).
Proof. intros H1 H2. unfold resolve. now rewrite H1, H2. Qed.

Lemma skipWarning_names_issue id : Contains (skipWarning id) id = true.
Proof.
  unfold skipWarning.
  apply Contains_append_r, Contains_append_l, Contains_prefix.
  rewrite <- (append_nil_r id) at 2. apply prefix_append.
Qed.

Lemma written_nil w : written w "" = w.
Proof. destruct w; simpl; [now rewrite append_nil_r | reflexivity]. Qed.

Lemma written_written w a b : written (written w a) b = written w (a ++ b).
Proof. destruct w; simpl; [now rewrite append_assoc | reflexivity]. Qed.

Section WithDiffMatchPatch.
Variables Diff DmpPatch : Type.
Variable DiffMain : string -> string -> bool -> list Diff.
Variable PatchMake : string -> list Diff -> list DmpPatch.
Variable PatchToText : list DmpPatch -> string.

Abbreviation hunk := (hunkOf DiffMain PatchMake PatchToText).
Abbreviation body := (GenerateDiff_body DiffMain PatchMake PatchToText).

Lemma GenerateDiff_body_run specRaw out w p :
  body specRaw (normalize specRaw) (out, w) p
  = (out ++ hunk specRaw p, written w (warningOf specRaw p)).
Proof.
  unfold GenerateDiff_body, hunkOf, warningOf, patchTextOf.
  destruct (resolve p specRaw (normalize specRaw)) as [dp [|]]; simpl.
  - destruct (PatchToText _ == "").
    + now rewrite append_nil_r, written_nil.
    + now rewrite written_nil, !append_assoc.
  - destruct w; simpl; now rewrite append_nil_r.
Qed.

Lemma GenerateDiff_loop specRaw patches : forall out w,
  fold_left (body specRaw (normalize specRaw)) patches (out, w)
  = (out ++ String.concat "" (map (hunk specRaw) patches),
     written w (String.concat "" (map (warningOf specRaw) patches))).
Proof.
  induction patches as [| p patches IH]; intros out w.
  - simpl. now rewrite append_nil_r, written_nil.
  - cbn [fold_left map]. rewrite GenerateDiff_body_run, IH.
    now rewrite append_assoc, written_written, !concat_cons.
Qed.

(** The diff is the hunks of the suggestions in their order, and the
    writer receives the warnings of the suggestions in their order. *)
Lemma GenerateDiff_run specRaw patches w :
  GenerateDiff DiffMain PatchMake PatchToText specRaw patches w
  = (String.concat "" (map (hunk specRaw) patches),
     written w (String.concat "" (map (warningOf specRaw) patches))).
Proof.
  unfold GenerateDiff. destruct patches as [| p patches].
  - simpl. now rewrite written_nil.
  - change ((List.length (p :: patches) =? 0)%nat) with false. cbv iota.
    now rewrite GenerateDiff_loop.
Qed.

End WithDiffMatchPatch.

End PatchFacts.

Module PatchClaims.
Import Schema Spec Strings Patch StringFacts PatchFacts.

Section WithDiffMatchPatch.
Variables Diff DmpPatch : Type.
Variable DiffMain : string -> string -> bool -> list Diff.
Variable PatchMake : string -> list Diff -> list DmpPatch.
Variable PatchToText : list DmpPatch -> string.

Abbreviation hunk := (hunkOf DiffMain PatchMake PatchToText).

(** C9. For every suggestion, [resolve] first looks for [before] as
    a substring of the document as given and on success anchors the
    original texts; failing that it looks for the normalized
    [before] in the normalized document (CRLF turned into LF, then
    trailing spaces and tabs trimmed from every line) and on success
    anchors the normalized [before] and [after]; when both searches
    fail the suggestion yields no hunk and a warning that names its
    issue ID, and [GenerateDiff] goes on: its result is the hunks of
    all suggestions in order, with the warnings written in order. An
    anchored suggestion whose two texts are identical yields no
    hunk, given that the diff library produces no patch text for two
    equal texts. *)
Theorem anchoring_two_passes (specRaw : string) (p : Schema.Patch) :
  (forall text, PatchToText (PatchMake text (DiffMain text text false)) = "") ->
  let normSpec := normalize specRaw in
  (Contains specRaw (Patch_Before p) = true ->
   resolve p specRaw normSpec =
   ({| issueID := Patch_IssueID p; before := Patch_Before p;
       after := Patch_After p |}, true))
  /\ (Contains specRaw (Patch_Before p) = false ->
      Contains normSpec (normalize (Patch_Before p)) = true ->
      resolve p specRaw normSpec =
      ({| issueID := Patch_IssueID p;
          before := normalize (Patch_Before p);
          after := normalize (Patch_After p) |}, true))
  /\ (forall text,
         normalize text =
         Join (map (fun line => TrimRight line (" " ++ TAB))
                   (Split (ReplaceAll text (CR ++ LF) LF) LF)) LF)
  /\ (Contains specRaw (Patch_Before p) = false ->
      Contains normSpec (normalize (Patch_Before p)) = false ->
      snd (resolve p specRaw normSpec) = false
      /\ hunk specRaw p = ""
      /\ warningOf specRaw p = skipWarning (Patch_IssueID p)
      /\ Contains (skipWarning (Patch_IssueID p)) (Patch_IssueID p) = true)
  /\ (forall dp,
         resolve p specRaw normSpec = (dp, true) ->
         before dp = after dp ->
         hunk specRaw p = "" /\ warningOf specRaw p = "")
  /\ (forall patches sofar,
         GenerateDiff DiffMain PatchMake PatchToText specRaw patches (Some sofar)
         = (String.concat "" (map (hunk specRaw) patches),
            Some (sofar ++ String.concat "" (map (warningOf specRaw) patches)))).
Proof.
  intros Hequal normSpec.
  refine (conj _ (conj _ (conj _ (conj _ (conj _ _))))).
  - apply resolve_exact.
  - apply resolve_normalized.
  - reflexivity.
  - intros H1 H2. unfold hunkOf, warningOf. subst normSpec.
    rewrite (resolve_miss _ _ _ H1 H2). simpl.
    repeat split. apply skipWarning_names_issue.
  - intros dp Hres Hsame. unfold hunkOf, warningOf, patchTextOf.
    subst normSpec. rewrite Hres. simpl. rewrite <- Hsame, Hequal.
    split; reflexivity.
  - intros patches sofar. now rewrite GenerateDiff_run.
Qed.

End WithDiffMatchPatch.

End PatchClaims.

(** ** The claims on concrete runs *)

Module Scenarios.
Import Schema Spec Strings Llm Fixtures.
Import ReviewFacts ValidateFacts ValidationClaims MainFacts PatchClaims.

(** *** Scoring *)

Example score_mixed :
  Review.Score (map issueOfSeverity
                    [SeverityCritical; SeverityWarn; SeverityWarn; SeverityInfo])
  = 64.
Proof. reflexivity. Qed.

Example verdict_mixed :
  Review.Verdict (map issueOfSeverity
                      [SeverityCritical; SeverityWarn; SeverityWarn; SeverityInfo])
                 []
  = VerdictInvalid.
Proof. reflexivity. Qed.

(** Scoring the filtered view instead would change the summary: the
    order of steps 12 and 14 matters. *)
Example score_of_filtered_view_differs :
  let issues := map issueOfSeverity [SeverityWarn; SeverityInfo] in
  Review.Score issues = 91
  /\ Review.Score (Review.FilterBySeverity issues SeverityCritical) = 100
  /\ Review.Verdict (Review.FilterBySeverity issues SeverityCritical) []
     = VerdictValid.
Proof. repeat split. Qed.

Lemma Verdict_of_validated_report_witness :
  let r := reportOf [] [goodQuestion "Q-0001" SeverityCritical] [] in
  Validate.validateReport asciiQuote r 10 = None
  /\ Review.Verdict (Report_Issues r) (Report_Questions r) = VerdictInvalid.
Proof.
  intros r. split; [reflexivity |].
  destruct (Verdict_of_validated_report asciiQuote r 10 eq_refl)
    as (_ & Hquestion & _).
  apply Hquestion; [reflexivity |].
  exists (goodQuestion "Q-0001" SeverityCritical). split; reflexivity.
Defined.

Lemma Score_formula_and_bounds_witness :
  let issues := map issueOfSeverity (repeat SeverityCritical 6) in
  ScoreFits issues /\ Review.Score issues = 0.
Proof.
  intros issues.
  assert (Hfit : ScoreFits issues) by (cbv; discriminate).
  split; [exact Hfit |].
  destruct (Score_formula_and_bounds Hfit) as (_ & _ & _ & Hsix).
  apply Hsix; [reflexivity |].
  repeat constructor.
Defined.

Lemma FilterBySeverity_ordinal_filter_witness :
  let issues := [ goodIssue "ISSUE-0001" SeverityCritical [];
                  goodIssue "ISSUE-0002" SeverityInfo [];
                  goodIssue "ISSUE-0003" SeverityWarn [] ] in
  Forall (fun i => ValidSeverity (Issue_Severity i)) issues
  /\ Review.FilterBySeverity issues SeverityWarn
     = [ goodIssue "ISSUE-0001" SeverityCritical [];
         goodIssue "ISSUE-0003" SeverityWarn [] ]
  /\ Review.FilterBySeverity issues SeverityInfo = issues.
Proof.
  intros issues.
  assert (Ht : ValidSeverity SeverityWarn) by (right; left; reflexivity).
  assert (Hall : Forall (fun i => ValidSeverity (Issue_Severity i)) issues).
  { repeat (apply Forall_cons;
            [first [ left; reflexivity
                   | right; left; reflexivity
                   | right; right; reflexivity ] |]).
    apply Forall_nil. }
  destruct (FilterBySeverity_ordinal_filter (issues := issues) Ht (fun _ => Hall))
    as (Hfilter & _ & Hid).
  split; [exact Hall | split; [rewrite Hfilter; reflexivity | exact Hid]].
Defined.

(** Outside the data model: with threshold INFO the slice comes back as
    it is, also with a severity that has no ordinal. *)
Example info_threshold_returns_the_slice :
  Review.FilterBySeverity (map issueOfSeverity ["BOGUS"; SeverityWarn]) SeverityInfo
  = map issueOfSeverity ["BOGUS"; SeverityWarn]
  /\ Review.FilterBySeverity (map issueOfSeverity ["BOGUS"; SeverityWarn]) SeverityWarn
     = map issueOfSeverity [SeverityWarn].
Proof. split; reflexivity. Qed.

(** *** Validation *)

Lemma evidence_line_bounds_witness :
  let r := reportOf [goodIssue "ISSUE-0001" SeverityWarn [evidence 3 50000]] [] [] in
  Validate.validateReport asciiQuote r 0 = None
  /\ Forall (fun ev => 1 <= Evidence_LineStart ev <= Evidence_LineEnd ev
                       /\ (0 < 0 -> Evidence_LineEnd ev <= 0))
            (allEvidence r)
  /\ Validate.validateEvidence (evidence 3 50000) "issue[0].evidence[0]" 10
     = Some "issue[0].evidence[0]: line_end 50000 exceeds spec line count 10".
Proof.
  intros r. split; [reflexivity | split; [| reflexivity]].
  destruct (evidence_line_bounds asciiQuote r 0) as (Honly & _).
  apply Honly. reflexivity.
Defined.

Lemma patches_not_validated_witness :
  let r := reportOf [goodIssue "ISSUE-0001" SeverityWarn [evidence 1 2]]
                    [goodQuestion "Q-0001" SeverityInfo] [] in
  let doc := "{...}" in
  Validate.Parse asciiQuote asciiTrimSpace
                 (tableUnmarshal [(doc, withPatches r oddPatches)])
                 ("```json" ++ LF ++ doc ++ LF ++ "```") 10
  = Ok (withPatches r oddPatches).
Proof.
  intros r doc.
  assert (Hi : Forall (IssueOK 10) (Report_Issues r)).
  { apply Forall_cons; [| apply Forall_nil].
    apply (validateIssue_None asciiQuote _ 0 10). reflexivity. }
  assert (Hq : Forall (QuestionOK 10) (Report_Questions r)).
  { apply Forall_cons; [| apply Forall_nil].
    apply (validateQuestion_None asciiQuote _ 0 10). reflexivity. }
  destruct (patches_not_validated asciiQuote asciiTrimSpace
              (tableUnmarshal [(doc, withPatches r oddPatches)])
              r oddPatches Hi Hq) as (_ & _ & Hparse).
  apply Hparse. reflexivity.
Defined.


(** *** Errors as messages *)






(** *** The exit code of a failed call *)

(** C4, at the failing input: a provider whose first [Complete] fails
    in transport and a provider whose output is invalid on both
    attempts leave [runCheck] with the same exit code, 5. *)
Theorem provider_failure_and_invalid_output_share_exit_code :
  let transport :=
    fst (runScripted [] [Err "HTTP request failed: connection refused"]
                     "info" 10) in
  let invalid :=
    fst (runScripted [] [Ok (response "{not valid json}");
                         Ok (response "{not valid json}")]
                     "info" 10) in
  transport
  = inl {| Main.code := 5;
           Main.msg := "LLM call failed: HTTP request failed: connection refused" |}
  /\ invalid
     = inl {| Main.code := 5;
              Main.msg :=
                "invalid model output after retry: JSON parse failed: "
                  ++ "invalid character 'n' looking for beginning of object key string" |}
  /\ Main.exitStatus (Main.returned transport) = 5
  /\ Main.exitStatus (Main.returned invalid) = 5.
Proof. repeat split. Qed.

(** *** The retry *)

(** A fenced response citing line 50 of a 10-line document, twice:
    one repair call naming the category, then failure. *)
Example repair_after_out_of_bounds_evidence :
  let run :=
    runState
      (Main.callWithRetry asciiQuote asciiTrimSpace (tableUnmarshal documents)
                          scriptedComplete request 10 false)
      (world [Ok (response (fenced "{line 50}"));
              Ok (response (fenced "{line 50}"))]) in
  fst run
  = Err ("invalid model output after retry: "
           ++ "issue[0].evidence[0]: line_end 50 exceeds spec line count 10")
  /\ map (@UserPrompt float64) (Main.calls (snd run))
     = [ UserPrompt request;
         UserPrompt request ++ LF ++ LF
           ++ "Your previous response failed schema validation (error category: "
           ++ DQ ++ "invalid line range in evidence" ++ DQ
           ++ "). Return only valid JSON matching the schema above." ].
Proof. split; reflexivity. Qed.

(** An invalid response followed by a valid one, as in the repository's
    retry test. *)
Example retry_then_valid :
  let run := runScripted documents
                         [Ok (response "{not valid json}");
                          Ok (response (fenced "{good}"))] "warn" 10 in
  (exists out,
      fst run = inr out
      /\ Report_Summary out
         = {| Summary_Verdict := VerdictValidWithGaps; Summary_Score := 91;
              Summary_CriticalCount := 0; Summary_WarnCount := 1;
              Summary_InfoCount := 1 |}
      /\ map Issue_ID (Report_Issues out) = ["ISSUE-0001"])
  /\ List.length (Main.calls (snd run)) = 2%nat.
Proof. split; [eexists; repeat split |]; reflexivity. Qed.

(** *** Patches *)

Lemma toy_equal_texts text :
  toyPatchToText (toyPatchMake text (toyDiffMain text text false)) = "".
Proof.
  unfold toyDiffMain. rewrite String.eqb_refl.
  destruct (text == ""); reflexivity.
Qed.

Lemma anchoring_two_passes_witness :
  (forall text,
      toyPatchToText (toyPatchMake text (toyDiffMain text text false)) = "")
  /\ Patch.resolve acrossLines specWithTrailingSpaces
                   (Patch.normalize specWithTrailingSpaces)
     = ({| Patch.issueID := "ISSUE-0002";
           Patch.before := "The system must be fast." ++ LF ++ "Other line.";
           Patch.after :=
             "The system must respond within 250ms p95." ++ LF ++ "Other line." |},
        true)
  /\ Patch.GenerateDiff toyDiffMain toyPatchMake toyPatchToText
                        specWithTrailingSpaces
                        [acrossLines; nowhere; unchanged] (Some "")
     = ("# patch for ISSUE-0002" ++ LF
          ++ "@@ -1 +1 @@" ++ LF
          ++ "-The system must be fast." ++ LF ++ "Other line." ++ LF
          ++ "+The system must respond within 250ms p95." ++ LF
          ++ "Other line." ++ LF ++ LF,
        Some ("WARN: patch for ISSUE-0003 could not be located in spec "
                ++ "(before text not matched)" ++ LF)).
Proof.
  pose proof (anchoring_two_passes
                toyDiffMain toyPatchMake toyPatchToText
                specWithTrailingSpaces acrossLines toy_equal_texts)
    as (_ & Hnormalized & _ & _ & _ & Hall).
  split; [exact toy_equal_texts | split].
  - rewrite Hnormalized; reflexivity.
  - rewrite Hall. reflexivity.
Defined.

End Scenarios.

(** ** More on the string functions *)

Module SplitFacts.
Import Strings StringFacts.

Lemma prefix_LF_cons c s :
  String.prefix LF (String c s) = Ascii.eqb "010" c.
Proof.
  unfold LF. cbn [String.prefix].
  destruct (Ascii.ascii_dec "010" c) as [Heq | Hne].
  - rewrite <- Heq, Ascii.eqb_refl. now destruct s.
  - symmetry. now apply Ascii.eqb_neq.
Qed.

Lemma Contains_LF_cons c s :
  Contains (String c s) LF = Ascii.eqb "010" c || Contains s LF.
Proof.
  cbn [Contains]. rewrite prefix_LF_cons.
  now destruct (Ascii.eqb "010" c).
Qed.

Lemma Split_nil : Split "" LF = [""].
Proof. reflexivity. Qed.

Lemma Split_cons c s :
  Split (String c s) LF =
  if Ascii.eqb "010" c then "" :: Split s LF
  else match Split s LF with
       | piece :: pieces => String c piece :: pieces
       | [] => []
       end.
Proof.
  unfold Split. cbn [Split_go]. rewrite prefix_LF_cons.
  change (String.length LF - 1)%nat with O.
  destruct (Ascii.eqb "010" c); now destruct (Split_go 0 s LF).
Qed.

Lemma Split_not_nil s : Split s LF <> [].
Proof. unfold Split. now destruct (Split_go 0 s LF). Qed.

(** Splitting at newlines and joining with newlines gives the text back. *)
Lemma Join_Split s : Join (Split s LF) LF = s.
Proof.
  unfold Join. induction s as [| c s IH]; [reflexivity |].
  rewrite Split_cons. pose proof (Split_not_nil s) as Hne.
  destruct (Ascii.eqb_spec "010" c) as [<- | Hc].
  - destruct (Split s LF) as [| piece pieces]; [contradiction |].
    cbn [String.concat]. cbn [String.concat] in IH. now rewrite IH.
  - destruct (Split s LF) as [| piece pieces]; [contradiction |].
    destruct pieces as [| next pieces]; cbn [String.concat] in *;
      now rewrite <- IH.
Qed.

(** No piece of a split contains a newline. *)
Lemma Split_pieces s : Forall (fun piece => Contains piece LF = false) (Split s LF).
Proof.
  induction s as [| c s IH]; [now repeat constructor |].
  rewrite Split_cons. pose proof (Split_not_nil s) as Hne.
  destruct (Ascii.eqb_spec "010" c) as [<- | Hc].
  - constructor; [reflexivity | exact IH].
  - destruct (Split s LF) as [| piece pieces]; [contradiction |].
    inversion IH as [| ? ? Hpiece Hrest]; subst. constructor; [| exact Hrest].
    rewrite Contains_LF_cons, Hpiece.
    now destruct (Ascii.eqb_spec "010" c).
Qed.

Lemma Split_no_LF s : Contains s LF = false -> Split s LF = [s].
Proof.
  induction s as [| c s IH]; [reflexivity |].
  rewrite Contains_LF_cons, Split_cons.
  destruct (Ascii.eqb "010" c); [discriminate |]. simpl.
  intros H. now rewrite (IH H).
Qed.

Lemma Split_append_LF a rest :
  Contains a LF = false ->
  Split (a ++ LF ++ rest) LF = a :: Split rest LF.
Proof.
  induction a as [| c a IH]; intros H.
  - change ("" ++ LF ++ rest) with (String "010" rest).
    now rewrite Split_cons, Ascii.eqb_refl.
  - rewrite Contains_LF_cons in H.
    change (String c a ++ LF ++ rest) with (String c (a ++ LF ++ rest)).
    rewrite Split_cons.
    destruct (Ascii.eqb "010" c); [discriminate |]. simpl in H.
    now rewrite (IH H).
Qed.

(** Joining pieces without newlines and splitting gives the pieces back. *)
Lemma Split_Join pieces :
  pieces <> [] ->
  Forall (fun piece => Contains piece LF = false) pieces ->
  Split (Join pieces LF) LF = pieces.
Proof.
  unfold Join. induction pieces as [| piece pieces IH]; [contradiction |].
  intros _ Hall. inversion Hall as [| ? ? Hpiece Hrest]; subst.
  destruct pieces as [| next pieces].
  - cbn [String.concat]. now apply Split_no_LF.
  - cbn [String.concat]. cbn [String.concat] in IH.
    rewrite Split_append_LF by exact Hpiece.
    now rewrite IH.
Qed.

(** *** TrimRight *)

Lemma TrimRight_idempotent s cutset :
  TrimRight (TrimRight s cutset) cutset = TrimRight s cutset.
Proof.
  induction s as [| c s IH]; [reflexivity |].
  cbn [TrimRight].
  destruct (TrimRight s cutset) as [| k kept] eqn:Ht.
  - destruct (in_cutset c cutset) eqn:Hc; [reflexivity |].
    cbn [TrimRight]. now rewrite Hc.
  - cbn [TrimRight]. cbn [TrimRight] in IH. now rewrite IH.
Qed.

Lemma TrimRight_no_LF s cutset :
  Contains s LF = false -> Contains (TrimRight s cutset) LF = false.
Proof.
  induction s as [| c s IH]; [reflexivity |].
  rewrite Contains_LF_cons. intros H.
  apply orb_false_iff in H as [Hc Hs]. specialize (IH Hs).
  cbn [TrimRight].
  destruct (TrimRight s cutset) as [| k kept].
  - destruct (in_cutset c cutset); [reflexivity |].
    now rewrite Contains_LF_cons, Hc.
  - now rewrite Contains_LF_cons, Hc, IH.
Qed.

(** *** ReplaceAll *)

Lemma ReplaceAll_absent s old new :
  Contains s old = false -> ReplaceAll s old new = s.
Proof.
  unfold ReplaceAll. induction s as [| c s IH]; [reflexivity |].
  cbn [Contains ReplaceAll_go].
  destruct (String.prefix old (String c s)); [discriminate |].
  intros H. now rewrite (IH H).
Qed.

End SplitFacts.

(** ** More on Score, Verdict, Counts and the filter *)

Module ReviewExtras.
Import Schema Spec MoreSpec Review GoInt GoIntFacts SeverityFacts ReviewFacts.

Lemma countSeverity_app s a b :
  countSeverity s (a ++ b) = countSeverity s a + countSeverity s b.
Proof.
  unfold countSeverity. rewrite filter_app, length_app. lia.
Qed.

Lemma countSeverity_sum issues :
  countSeverity SeverityCritical issues + countSeverity SeverityWarn issues
    + countSeverity SeverityInfo issues <= Z.of_nat (List.length issues).
Proof.
  induction issues as [| i issues IH]; [cbv; discriminate |].
  rewrite !countSeverity_cons. simpl List.length.
  by_severity (Issue_Severity i); lia.
Qed.

Lemma countSeverity_sum_valid issues :
  Forall (fun i => ValidSeverity (Issue_Severity i)) issues ->
  countSeverity SeverityCritical issues + countSeverity SeverityWarn issues
    + countSeverity SeverityInfo issues = Z.of_nat (List.length issues).
Proof.
  induction 1 as [| i issues Hi _ IH]; [reflexivity |].
  rewrite !countSeverity_cons. simpl List.length.
  destruct Hi as [-> | [-> | ->]]; eval_eqb; lia.
Qed.

(** X1. [Counts] returns the numbers of CRITICAL, WARN and INFO issues
    of the list; together they never exceed its length, and they add up
    to it when every severity is one of the three. *)
Theorem Counts_are_tallies (issues : list Issue) :
  Z.of_nat (List.length issues) <= maxInt ->
  Counts issues =
    (countSeverity SeverityCritical issues,
     countSeverity SeverityWarn issues,
     countSeverity SeverityInfo issues)
  /\ (let '(critical, warn, info) := Counts issues in
      0 <= critical /\ 0 <= warn /\ 0 <= info
      /\ critical + warn + info <= Z.of_nat (List.length issues))
  /\ (Forall (fun i => ValidSeverity (Issue_Severity i)) issues ->
      let '(critical, warn, info) := Counts issues in
      critical + warn + info = Z.of_nat (List.length issues)).
Proof.
  intros Hlen. rewrite (Counts_exact _ Hlen).
  split; [reflexivity | split].
  - pose proof (countSeverity_sum issues).
    pose proof (countSeverity_nonneg SeverityCritical issues).
    pose proof (countSeverity_nonneg SeverityWarn issues).
    pose proof (countSeverity_nonneg SeverityInfo issues). auto.
  - apply countSeverity_sum_valid.
Qed.

Lemma ScoreFits_shorter a b :
  (List.length a <= List.length b)%nat -> ScoreFits b -> ScoreFits a.
Proof. unfold ScoreFits. lia. Qed.

(** X2. The score never rises when an issue is added, nor when the
    severity of an issue is replaced by one of a higher ordinal. *)
Theorem Score_never_rises (pre post : list Issue) (i i' : Issue) :
  ScoreFits (pre ++ i :: post) ->
  Score (pre ++ i :: post) <= Score (pre ++ post)
  /\ (severityOrdinal (Issue_Severity i) <= severityOrdinal (Issue_Severity i') ->
      Score (pre ++ i' :: post) <= Score (pre ++ i :: post)).
Proof.
  intros Hfit.
  assert (Hfit0 : ScoreFits (pre ++ post)).
  { apply ScoreFits_shorter with (b := (pre ++ i :: post)%list); [| exact Hfit].
    rewrite !length_app. simpl. lia. }
  assert (Hfit' : ScoreFits (pre ++ i' :: post)).
  { apply ScoreFits_shorter with (b := (pre ++ i :: post)%list); [| exact Hfit].
    rewrite !length_app. simpl. lia. }
  rewrite (Score_exact Hfit), (Score_exact Hfit0), (Score_exact Hfit').
  unfold Score_spec. rewrite !countSeverity_app, !countSeverity_cons.
  pose proof (countSeverity_nonneg SeverityCritical post).
  split.
  - by_severity (Issue_Severity i); lia.
  - unfold severityOrdinal.
    by_severity (Issue_Severity i); by_severity (Issue_Severity i'); lia.
Qed.

(** *** Order of the findings *)

Lemma countSeverity_Permutation s a b :
  Permutation a b -> countSeverity s a = countSeverity s b.
Proof.
  induction 1 as [| x a b _ IH | x y a | a b c _ IHab _ IHbc].
  - reflexivity.
  - now rewrite !countSeverity_cons, IH.
  - rewrite !countSeverity_cons. lia.
  - now rewrite IHab.
Qed.

Lemma issueWithSeverity_Permutation s a b :
  Permutation a b -> issueWithSeverity s a = issueWithSeverity s b.
Proof.
  induction 1 as [| x a b _ IH | x y a | a b c _ IHab _ IHbc]; simpl.
  - reflexivity.
  - now rewrite IH.
  - now destruct (Issue_Severity x == s), (Issue_Severity y == s).
  - now rewrite IHab.
Qed.

Lemma questionWithSeverity_Permutation s a b :
  Permutation a b -> questionWithSeverity s a = questionWithSeverity s b.
Proof.
  induction 1 as [| x a b _ IH | x y a | a b c _ IHab _ IHbc]; simpl.
  - reflexivity.
  - now rewrite IH.
  - now destruct (Question_Severity x == s), (Question_Severity y == s).
  - now rewrite IHab.
Qed.

(** X3. The summary does not depend on the order of the findings:
    reordering the issues and the questions leaves the verdict, the
    score and the three counts unchanged. *)
Theorem summary_order_independent (issues issues' : list Issue)
        (questions questions' : list Question) :
  ScoreFits issues ->
  Permutation issues issues' ->
  Permutation questions questions' ->
  summaryOf issues questions = summaryOf issues' questions'.
Proof.
  intros Hfit Hi Hq.
  assert (Hlen : List.length issues' = List.length issues)
    by (symmetry; now apply Permutation_length).
  assert (Hfit' : ScoreFits issues') by (unfold ScoreFits in *; now rewrite Hlen).
  assert (Hmax : Z.of_nat (List.length issues) <= maxInt).
  { unfold ScoreFits in Hfit. rewrite minInt_value in Hfit.
    rewrite maxInt_value. lia. }
  unfold summaryOf.
  rewrite (Score_exact Hfit), (Score_exact Hfit').
  rewrite (Counts_exact _ Hmax), (Counts_exact issues') by now rewrite Hlen.
  unfold Verdict, Score_spec. rewrite Hlen.
  rewrite !(countSeverity_Permutation _ Hi).
  rewrite !(issueWithSeverity_Permutation _ Hi).
  rewrite !(questionWithSeverity_Permutation _ Hq).
  reflexivity.
Qed.

(** *** Verdict against score *)

Lemma Verdict_three issues questions :
  Verdict issues questions = VerdictValid
  \/ Verdict issues questions = VerdictValidWithGaps
  \/ Verdict issues questions = VerdictInvalid.
Proof.
  unfold Verdict.
  repeat match goal with
         | |- context [if ?c then _ else _] => destruct c
         end; auto.
Qed.

Lemma Verdict_VALID_iff issues questions :
  Verdict issues questions = VerdictValid <->
  issues = [] /\ ~ Exists IsCriticalQ questions.
Proof.
  unfold Verdict. split.
  - destruct (issueWithSeverity SeverityCritical issues); [discriminate |].
    destruct (questionWithSeverity SeverityCritical questions) eqn:Hq;
      [discriminate |].
    destruct (issueWithSeverity SeverityWarn issues); [discriminate |].
    destruct issues as [| i issues].
    + intros _. split; [reflexivity |]. intros Hex.
      apply questionWithSeverity_Exists in Hex. congruence.
    + simpl List.length. rewrite Nat2Z.inj_succ.
      destruct (Z.ltb_spec 0 (Z.succ (Z.of_nat (List.length issues))));
        [discriminate | lia].
  - intros [-> Hq]. simpl.
    now rewrite (questionWithSeverity_false Hq).
Qed.

Lemma Verdict_not_VALID_iff issues questions :
  Verdict issues questions <> VerdictValid <->
  issues <> [] \/ Exists IsCriticalQ questions.
Proof.
  rewrite Verdict_VALID_iff. split.
  - intros H. destruct issues as [| i issues]; [| left; discriminate].
    right. destruct (questionWithSeverity SeverityCritical questions) eqn:E.
    + now apply questionWithSeverity_Exists in E.
    + exfalso. apply H. split; [reflexivity |]. intros Hex.
      apply questionWithSeverity_Exists in Hex. congruence.
  - intros [H | H] [H1 H2]; auto.
Qed.

(** X4. The verdict is one of the three values; it is VALID only for an
    empty issue list without a CRITICAL question, where the score is
    100; so a score below 100 always comes with VALID_WITH_GAPS or
    INVALID. *)
Theorem Verdict_VALID_means_clean (issues : list Issue)
        (questions : list Question) :
  (Verdict issues questions = VerdictValid
   \/ Verdict issues questions = VerdictValidWithGaps
   \/ Verdict issues questions = VerdictInvalid)
  /\ (Verdict issues questions = VerdictValid <->
      issues = [] /\ ~ Exists IsCriticalQ questions)
  /\ (Verdict issues questions = VerdictValid -> Score issues = 100)
  /\ (Score issues < 100 -> Verdict issues questions <> VerdictValid).
Proof.
  assert (Hiff := Verdict_VALID_iff issues questions).
  split; [apply Verdict_three | split; [exact Hiff | split]].
  - intros H. apply Hiff in H as [-> _]. reflexivity.
  - intros Hlt H. apply Hiff in H as [-> _]. cbv in Hlt. discriminate.
Qed.

(** *** The filter, applied twice and against the verdict *)

Lemma filter_twice (A : Type) (f g : A -> bool) (l : list A) :
  filter f (filter g l) = filter (fun x => g x && f x) l.
Proof.
  induction l as [| x l IH]; [reflexivity |]. simpl.
  destruct (g x); simpl; [destruct (f x) |]; now rewrite IH.
Qed.

Lemma FilterBySeverity_filter issues threshold :
  ValidSeverity threshold ->
  FilterBySeverity issues threshold =
  if threshold == SeverityInfo then issues
  else filter (fun i => meetsSeverity (Issue_Severity i) threshold) issues.
Proof.
  intros [-> | Ht]; [reflexivity |].
  rewrite (FilterBySeverity_above_info _ Ht).
  now destruct Ht as [-> | ->].
Qed.

Lemma FilterBySeverity_incl issues threshold :
  ValidSeverity threshold -> incl (FilterBySeverity issues threshold) issues.
Proof.
  intros Ht. rewrite (FilterBySeverity_filter _ Ht).
  destruct (threshold == SeverityInfo); [apply incl_refl |].
  intros i Hin. now apply filter_In in Hin.
Qed.

(** X5. Filtering twice is filtering once at the higher threshold, for
    every issue list; in particular the filter is idempotent, and its
    result only holds issues of the list it was given. *)
Theorem FilterBySeverity_twice (issues : list Issue) (t1 t2 : Severity) :
  ValidSeverity t1 -> ValidSeverity t2 ->
  FilterBySeverity (FilterBySeverity issues t1) t2
  = FilterBySeverity issues (higher t1 t2)
  /\ FilterBySeverity (FilterBySeverity issues t1) t1
     = FilterBySeverity issues t1
  /\ incl (FilterBySeverity issues t1) issues.
Proof.
  intros H1 H2.
  assert (Htwice : forall a b, ValidSeverity a -> ValidSeverity b ->
            FilterBySeverity (FilterBySeverity issues a) b
            = FilterBySeverity issues (higher a b)).
  { intros a b Ha Hb.
    destruct Ha as [-> | Ha].
    { destruct Hb as [-> | [-> | ->]]; reflexivity. }
    destruct Hb as [-> | Hb].
    { destruct Ha as [-> | ->]; reflexivity. }
    rewrite (FilterBySeverity_above_info issues Ha).
    rewrite (FilterBySeverity_above_info _ Hb).
    assert (Hh : higher a b = SeverityWarn \/ higher a b = SeverityCritical)
      by (destruct Ha as [-> | ->], Hb as [-> | ->]; cbv; auto).
    rewrite (FilterBySeverity_above_info issues Hh).
    rewrite filter_twice. apply filter_ext. intros i.
    unfold meetsSeverity, severityOrdinal.
    destruct Ha as [-> | ->], Hb as [-> | ->];
      by_severity (Issue_Severity i); reflexivity. }
  split; [now apply Htwice | split].
  - rewrite (Htwice t1 t1 H1 H1). f_equal.
    destruct H1 as [-> | [-> | ->]]; reflexivity.
  - now apply FilterBySeverity_incl.
Qed.

Lemma Verdict_INVALID_iff issues questions :
  Verdict issues questions = VerdictInvalid <->
  issueWithSeverity SeverityCritical issues = true
  \/ questionWithSeverity SeverityCritical questions = true.
Proof.
  unfold Verdict.
  destruct (issueWithSeverity SeverityCritical issues); [tauto |].
  destruct (questionWithSeverity SeverityCritical questions); [tauto |].
  split; [| intros [H | H]; discriminate].
  destruct (issueWithSeverity SeverityWarn issues); [discriminate |].
  destruct (0 <? Z.of_nat (List.length issues)); discriminate.
Qed.

Lemma issueWithSeverity_filter s issues :
  issueWithSeverity s issues = true <->
  filter (fun i => Issue_Severity i == s) issues <> [].
Proof.
  induction issues as [| i issues IH]; simpl.
  - split; [discriminate | intros H; now contradiction H].
  - destruct (Issue_Severity i == s); [| exact IH].
    split; [discriminate | reflexivity].
Qed.

(** X6. A CRITICAL issue is never filtered out: at every threshold the
    CRITICAL issues of the filtered view are those of the list, in the
    same order, so a verdict recomputed on the view is INVALID exactly
    when the verdict of the full list is. *)
Theorem FilterBySeverity_keeps_critical (issues : list Issue)
        (questions : list Question) (threshold : Severity) :
  ValidSeverity threshold ->
  filter (fun i => Issue_Severity i == SeverityCritical)
         (FilterBySeverity issues threshold)
  = filter (fun i => Issue_Severity i == SeverityCritical) issues
  /\ (Verdict (FilterBySeverity issues threshold) questions = VerdictInvalid
      <-> Verdict issues questions = VerdictInvalid).
Proof.
  intros Ht.
  assert (Hkeep :
            filter (fun i => Issue_Severity i == SeverityCritical)
                   (FilterBySeverity issues threshold)
            = filter (fun i => Issue_Severity i == SeverityCritical) issues).
  { destruct Ht as [-> | Ht]; [reflexivity |].
    rewrite (FilterBySeverity_above_info _ Ht), filter_twice.
    apply filter_ext. intros i. unfold meetsSeverity, severityOrdinal.
    destruct Ht as [-> | ->]; by_severity (Issue_Severity i); reflexivity. }
  split; [exact Hkeep |].
  rewrite !Verdict_INVALID_iff, !issueWithSeverity_filter, Hkeep. tauto.
Qed.

End ReviewExtras.

(** ** More on the validator *)

Module ValidateExtras.
Import Schema Spec MoreSpec Strings Validate.
Import StringFacts SplitFacts SeverityFacts ValidateFacts.

(** *** Searching in concatenations *)

Lemma prefix_length a : forall b,
  String.prefix a b = true -> (String.length a <= String.length b)%nat.
Proof.
  induction a as [| x a IH]; intros b H; [simpl; lia |].
  destruct b as [| y b]; [discriminate |]. cbn [String.prefix] in H.
  destruct (Ascii.ascii_dec x y); [| discriminate].
  specialize (IH _ H). simpl. lia.
Qed.

Lemma prefix_refl a : String.prefix a a = true.
Proof. rewrite <- (append_nil_r a) at 2. apply prefix_append. Qed.

Lemma Index_from_first_LF a : forall i rest,
  Contains a LF = false ->
  Index_from i (a ++ LF ++ rest) LF = i + len a.
Proof.
  induction a as [| c a IH]; intros i rest H.
  - change ("" ++ LF ++ rest) with (String "010" rest).
    cbn [Index_from]. rewrite prefix_LF_cons, Ascii.eqb_refl.
    unfold len. simpl. lia.
  - rewrite Contains_LF_cons in H. apply orb_false_iff in H as [Hc Ha].
    change (String c a ++ LF ++ rest) with (String c (a ++ LF ++ rest)).
    cbn [Index_from]. rewrite prefix_LF_cons, Hc, (IH _ _ Ha).
    unfold len. simpl String.length. lia.
Qed.

Lemma LastIndex_from_short sub s : forall i,
  (String.length s < String.length sub)%nat ->
  LastIndex_from i s sub = -1.
Proof.
  induction s as [| c s IH]; intros i Hlen; cbn [LastIndex_from].
  - destruct (String.prefix sub "") eqn:Hp; [| reflexivity].
    apply prefix_length in Hp. lia.
  - rewrite IH by (simpl in Hlen; lia).
    change (-1 >=? 0) with false. cbv iota.
    destruct (String.prefix sub (String c s)) eqn:Hp; [| reflexivity].
    apply prefix_length in Hp. lia.
Qed.

Lemma LastIndex_from_append sub doc : forall i,
  0 <= i -> sub <> "" ->
  LastIndex_from i (doc ++ sub) sub = i + len doc.
Proof.
  induction doc as [| c doc IH]; intros i Hi Hsub.
  - destruct sub as [| x sub]; [contradiction |].
    change ("" ++ String x sub) with (String x sub).
    cbn [LastIndex_from].
    rewrite LastIndex_from_short by (simpl; lia).
    change (-1 >=? 0) with false. cbv iota.
    rewrite prefix_refl. unfold len. simpl String.length. lia.
  - change (String c doc ++ sub) with (String c (doc ++ sub)).
    cbn [LastIndex_from]. rewrite IH by (first [lia | assumption]).
    unfold len. simpl String.length.
    destruct (Z.geb_spec (i + 1 + Z.of_nat (String.length doc)) 0); lia.
Qed.

Lemma slice_to_append a b : slice_to (a ++ b) (len a) = a.
Proof.
  unfold slice_to, len. rewrite Nat2Z.id.
  induction a as [| c a IH]; simpl; [now destruct b | now rewrite IH].
Qed.

Lemma HasSuffix_append a suf : HasSuffix (a ++ suf) suf = true.
Proof.
  unfold HasSuffix, len. rewrite length_append.
  replace (Z.of_nat (String.length a + String.length suf)
           - Z.of_nat (String.length suf)) with (len a) by (unfold len; lia).
  rewrite slice_from_append, String.eqb_refl.
  apply andb_true_iff. split; [apply Z.leb_le; lia | reflexivity].
Qed.

Lemma len_nonneg s : 0 <= len s.
Proof. unfold len. lia. Qed.

(** An error of a range loop is the error of the first element that has
    one. *)
Lemma rangeErr_Some_inv (A : Type) (body : Z -> A -> option error) xs :
  forall i e,
    rangeErr body i xs = Some e ->
    exists pre x post,
      xs = (pre ++ x :: post)%list
      /\ rangeErr body i pre = None
      /\ body (i + Z.of_nat (List.length pre)) x = Some e.
Proof.
  induction xs as [| x xs IH]; intros i e H; simpl in H; [discriminate |].
  destruct (body i x) as [e' |] eqn:Hx.
  - exists [], x, xs. injection H as <-. simpl.
    rewrite Z.add_0_r. auto.
  - destruct (IH _ _ H) as (pre & y & post & -> & Hpre & Hy).
    exists (x :: pre), y, post. simpl. rewrite Hx.
    repeat split; [assumption |].
    replace (i + Z.pos (Pos.of_succ_nat (List.length pre)))
      with (i + 1 + Z.of_nat (List.length pre)) by lia.
    exact Hy.
Qed.

Lemma validateEvidence_starts ev prefix lineCount e :
  validateEvidence ev prefix lineCount = Some e ->
  exists rest, e = prefix ++ rest.
Proof.
  unfold validateEvidence.
  repeat match goal with
         | |- context [if ?c then _ else _] => destruct c
         end; intros H; try discriminate; injection H as <-;
    eexists; reflexivity.
Qed.

Lemma validateEvidenceAll_starts evs prefix lineCount e :
  validateEvidenceAll evs prefix lineCount = Some e ->
  exists rest, e = prefix ++ rest.
Proof.
  unfold validateEvidenceAll. intros H.
  apply rangeErr_Some_inv in H as (pre & ev & post & _ & _ & Hev).
  apply validateEvidence_starts in Hev as [rest ->].
  rewrite append_assoc. eexists; reflexivity.
Qed.

Section WithLibraries.
Variable float64 : Type.
Variable Quote : string -> string.
Variable TrimSpace : string -> string.
Variable json_Unmarshal : string -> result (Report float64).

(** X7. [Parse] accepts exactly the documents that decode to a report
    whose issues and questions all satisfy the schema constraints, and
    it returns the decoded report as it is. *)
Theorem Parse_accepts_exactly (raw : string) (lineCount : Z)
        (r : Report float64) :
  Parse Quote TrimSpace json_Unmarshal raw lineCount = Ok r <->
  json_Unmarshal (stripFences TrimSpace raw) = Ok r
  /\ Forall (IssueOK lineCount) (Report_Issues r)
  /\ Forall (QuestionOK lineCount) (Report_Questions r).
Proof.
  rewrite <- validateReport_None with (Quote := Quote). split.
  - apply Parse_Ok_inv.
  - intros [Hdec Hval]. now apply Parse_Ok_intro.
Qed.

(** X8. Inside a fenced code block with a language tag, a document is
    handed to the decoder as if it stood alone: [stripFences] returns
    the trimmed document. The text has no white space around the
    fences, so [TrimSpace] leaves it as it is. *)
Theorem stripFences_fenced (lang doc : string) :
  Contains lang LF = false ->
  TrimSpace (fence lang doc) = fence lang doc ->
  stripFences TrimSpace (fence lang doc) = TrimSpace doc
  /\ (forall lineCount,
         Parse Quote TrimSpace json_Unmarshal (fence lang doc) lineCount
         = match json_Unmarshal (TrimSpace doc) with
           | Err err => Err ("JSON parse failed: " ++ err)
           | Ok report =>
               match validateReport Quote report lineCount with
               | Some err => Err err
               | None => Ok report
               end
           end).
Proof.
  intros Hlang Htrim.
  assert (Hstrip : stripFences TrimSpace (fence lang doc) = TrimSpace doc).
  { assert (Hopen : Contains ("```" ++ lang) LF = false).
    { change ("```" ++ lang) with (String "`" (String "`" (String "`" lang))).
      now rewrite !Contains_LF_cons, Hlang. }
    assert (Hshape : fence lang doc
                     = ("```" ++ lang) ++ LF ++ (doc ++ LF ++ "```")).
    { unfold fence. now rewrite !append_assoc. }
    assert (Hprefix : HasPrefix (fence lang doc) "```" = true).
    { unfold HasPrefix, fence. apply prefix_append. }
    assert (Hidx : Index (fence lang doc) LF = len ("```" ++ lang)).
    { unfold Index. rewrite Hshape, (Index_from_first_LF _ _ _ Hopen). lia. }
    assert (Hge : forall t, (len t >=? 0) = true).
    { intros t. pose proof (len_nonneg t).
      destruct (Z.geb_spec (len t) 0); [reflexivity | lia]. }
    assert (Hbody : slice_from (fence lang doc) (len ("```" ++ lang) + 1)
                    = doc ++ LF ++ "```").
    { rewrite Hshape.
      replace (len ("```" ++ lang) + 1) with (len (("```" ++ lang) ++ LF))
        by (unfold len; rewrite length_append; simpl String.length; lia).
      rewrite <- (append_assoc ("```" ++ lang) LF).
      apply slice_from_append. }
    assert (Hsuffix : HasSuffix (doc ++ LF ++ "```") "```" = true).
    { rewrite <- append_assoc. apply HasSuffix_append. }
    assert (Hlast : LastIndex (doc ++ LF ++ "```") (LF ++ "```") = len doc).
    { unfold LastIndex.
      rewrite LastIndex_from_append by (first [lia | discriminate]). lia. }
    unfold stripFences. rewrite Htrim. cbv zeta.
    rewrite Hprefix, Hidx, Hge, Hbody, Hsuffix, Hlast, Hge.
    now rewrite slice_to_append. }
  split; [exact Hstrip |].
  intros lineCount. unfold Parse. now rewrite Hstrip.
Qed.

Lemma validateIssue_starts issue idx lineCount e :
  validateIssue Quote issue idx lineCount = Some e ->
  exists rest, e = ("issue[" ++ Fmt.itoa idx ++ "]") ++ rest.
Proof.
  unfold validateIssue, validateSeverity. cbv zeta.
  repeat match goal with
         | |- context [if ?c then _ else _] => destruct c
         end; intros H;
    try (apply validateEvidenceAll_starts in H; exact H);
    try discriminate; injection H as <-; eexists; reflexivity.
Qed.

Lemma validateQuestion_starts q idx lineCount e :
  validateQuestion Quote q idx lineCount = Some e ->
  exists rest, e = ("question[" ++ Fmt.itoa idx ++ "]") ++ rest.
Proof.
  unfold validateQuestion, validateSeverity. cbv zeta.
  repeat match goal with
         | |- context [if ?c then _ else _] => destruct c
         end; intros H;
    try (apply validateEvidenceAll_starts in H; exact H);
    try discriminate; injection H as <-; eexists; reflexivity.
Qed.

(** X9. The error of a rejected report names its first invalid finding:
    it begins with [issue[k]] for the first issue, at index k, that
    violates a constraint, or, when every issue is valid, with
    [question[k]] for the first such question. *)
Theorem error_names_first_invalid_finding (r : Report float64)
        (lineCount : Z) (e : error) :
  validateReport Quote r lineCount = Some e ->
  (exists pre bad post,
      Report_Issues r = (pre ++ bad :: post)%list
      /\ Forall (IssueOK lineCount) pre
      /\ ~ IssueOK lineCount bad
      /\ HasPrefix e ("issue[" ++ Fmt.itoa (Z.of_nat (List.length pre)) ++ "]")
         = true)
  \/ (Forall (IssueOK lineCount) (Report_Issues r)
      /\ exists pre bad post,
          Report_Questions r = (pre ++ bad :: post)%list
          /\ Forall (QuestionOK lineCount) pre
          /\ ~ QuestionOK lineCount bad
          /\ HasPrefix e ("question["
                            ++ Fmt.itoa (Z.of_nat (List.length pre)) ++ "]")
             = true).
Proof.
  unfold validateReport. intros H.
  destruct (rangeErr (fun i issue => validateIssue Quote issue i lineCount)
                     0 (Report_Issues r)) as [e' |] eqn:Hissues.
  - injection H as ->. left.
    apply rangeErr_Some_inv in Hissues as (pre & bad & post & Hsplit & Hpre & Hbad).
    exists pre, bad, post. rewrite Z.add_0_l in Hbad.
    split; [exact Hsplit | split; [| split]].
    + apply (rangeErr_None_Forall
               (fun i issue => validateIssue Quote issue i lineCount)
               (IssueOK lineCount)
               (fun i x => validateIssue_None Quote x i lineCount)) in Hpre.
      exact Hpre.
    + intros Hok. apply (validateIssue_None Quote bad
                           (Z.of_nat (List.length pre)) lineCount) in Hok.
      congruence.
    + apply validateIssue_starts in Hbad as [rest ->].
      unfold HasPrefix. apply prefix_append.
  - right. split.
    + apply (rangeErr_None_Forall
               (fun i issue => validateIssue Quote issue i lineCount)
               (IssueOK lineCount)
               (fun i x => validateIssue_None Quote x i lineCount)) in Hissues.
      exact Hissues.
    + apply rangeErr_Some_inv in H as (pre & bad & post & Hsplit & Hpre & Hbad).
      exists pre, bad, post. rewrite Z.add_0_l in Hbad.
      split; [exact Hsplit | split; [| split]].
      * apply (rangeErr_None_Forall
                 (fun i q => validateQuestion Quote q i lineCount)
                 (QuestionOK lineCount)
                 (fun i x => validateQuestion_None Quote x i lineCount)) in Hpre.
        exact Hpre.
      * intros Hok. apply (validateQuestion_None Quote bad
                             (Z.of_nat (List.length pre)) lineCount) in Hok.
        congruence.
      * apply validateQuestion_starts in Hbad as [rest ->].
        unfold HasPrefix. apply prefix_append.
Qed.

Lemma EvidenceOK_monotone n n' ev :
  n' <= 0 \/ (0 < n /\ n <= n') ->
  EvidenceOK n ev -> EvidenceOK n' ev.
Proof. unfold EvidenceOK. lia. Qed.

(** X10. Acceptance is monotone in the line count: a report accepted for
    a positive line count is accepted for every larger one, and a
    report accepted for any line count is accepted when the count is 0
    or negative, where the upper bound is not checked. *)
Theorem acceptance_monotone_in_lineCount (r : Report float64) (n n' : Z) :
  n' <= 0 \/ (0 < n /\ n <= n') ->
  validateReport Quote r n = None ->
  validateReport Quote r n' = None.
Proof.
  intros Hn. rewrite !validateReport_None. intros [Hi Hq]. split.
  - eapply Forall_impl; [| exact Hi].
    intros i (Hid & Hsev & Hcat & Htitle & Hev).
    repeat split; auto.
    eapply Forall_impl; [| exact Hev]. intros ev. now apply EvidenceOK_monotone.
  - eapply Forall_impl; [| exact Hq].
    intros q (Hid & Hsev & Htext & Hev).
    repeat split; auto.
    eapply Forall_impl; [| exact Hev]. intros ev. now apply EvidenceOK_monotone.
Qed.

End WithLibraries.

End ValidateExtras.

(** ** More on the orchestration *)

Module MainExtras.
Import Schema Spec MoreSpec Strings Llm Main.
Import StringFacts ValidateFacts ValidationClaims MainFacts.

Lemma Contains_inside a kw b : Contains (a ++ kw ++ b) kw = true.
Proof.
  apply Contains_append_r, Contains_append_l, Contains_prefix.
  apply ValidateExtras.prefix_refl.
Qed.

(** A message that does not begin with the letter J is not a JSON
    failure for [sanitizeErrForPrompt]. *)
Lemma issue_message_not_json idx rest :
  HasPrefix (("issue[" ++ Fmt.itoa idx ++ "]") ++ rest) "JSON parse failed"
  = false.
Proof. reflexivity. Qed.

Lemma question_message_not_json idx rest :
  HasPrefix (("question[" ++ Fmt.itoa idx ++ "]") ++ rest) "JSON parse failed"
  = false.
Proof. reflexivity. Qed.

Lemma sanitize_severity_phrase msg :
  HasPrefix msg "JSON parse failed" = false ->
  Contains msg "invalid severity" = true ->
  sanitizeErrForPrompt msg
  = "invalid enum value (severity must be INFO, WARN, or CRITICAL)".
Proof. intros H1 H2. unfold sanitizeErrForPrompt. now rewrite H1, H2. Qed.

Section WithWorld.
Variable float64 : Type.
Variable Quote : string -> string.
Variable TrimSpace : string -> string.
Variable json_Unmarshal : string -> result (Report float64).
Variable Provider : Type.
Variable Complete :
  Provider -> Request float64 -> result Response * Provider.

Abbreviation World := (World float64 Provider).
Abbreviation parse := (Validate.Parse Quote TrimSpace json_Unmarshal).
Abbreviation callWithRetry :=
  (callWithRetry Quote TrimSpace json_Unmarshal Complete).
Abbreviation repairRequest := (repairRequest Quote).
Abbreviation run_repair :=
  (callWithRetry_repair Quote TrimSpace json_Unmarshal Complete).
Abbreviation run_first_valid :=
  (callWithRetry_first_valid Quote TrimSpace json_Unmarshal Complete).
Abbreviation run_transport_failure :=
  (callWithRetry_transport_failure Quote TrimSpace json_Unmarshal Complete).

(** X11. Whatever the decoder reports, a document that does not decode
    is a "JSON syntax error" for the retry: the error of [Parse] begins
    with "JSON parse failed: " and [sanitizeErrForPrompt] maps it to
    that label, so the repair call that follows quotes it. *)
Theorem decode_failure_is_JSON_syntax_error (w : World)
        (req : Request float64) (lineCount : Z) (verbose : bool)
        (resp : Response) (p1 : Provider) (err : error) :
  Complete (provider w) req = (Ok resp, p1) ->
  json_Unmarshal (Validate.stripFences TrimSpace (Content resp)) = Err err ->
  parse (Content resp) lineCount = Err ("JSON parse failed: " ++ err)
  /\ sanitizeErrForPrompt ("JSON parse failed: " ++ err) = "JSON syntax error"
  /\ calls (snd (runState (callWithRetry req lineCount verbose) w))
     = (calls w
          ++ [ req;
               {| SystemPrompt := SystemPrompt req;
                  UserPrompt :=
                    UserPrompt req ++ LF ++ LF
                      ++ "Your previous response failed schema validation (error category: "
                      ++ Quote "JSON syntax error"
                      ++ "). Return only valid JSON matching the schema above.";
                  Temperature := Temperature req;
                  MaxTokens := MaxTokens req;
                  Model := Model req |} ])%list.
Proof.
  intros H1 Hdec.
  assert (Hp : parse (Content resp) lineCount = Err ("JSON parse failed: " ++ err))
    by (unfold Validate.Parse; now rewrite Hdec).
  split; [exact Hp | split; [reflexivity |]].
  destruct (Complete p1 (repairRequest req ("JSON parse failed: " ++ err)))
    as [r2 p2] eqn:H2.
  rewrite (run_repair _ _ _ verbose H1 Hp H2).
  cbn [snd calls]. now rewrite <- app_assoc.
Qed.

(** X12. A severity outside INFO, WARN and CRITICAL is always reported
    under the severity label, whatever text the model put in the field:
    for an issue with a well-formed id and for a question with a
    well-formed id, the error of the validator is mapped to "invalid
    enum value (severity must be INFO, WARN, or CRITICAL)". *)
Theorem severity_violation_label (issue : Issue) (q : Question)
        (idx lineCount : Z) :
  (IDFormat "ISSUE-" (Issue_ID issue) ->
   ~ ValidSeverity (Issue_Severity issue) ->
   exists e,
     Validate.validateIssue Quote issue idx lineCount = Some e
     /\ sanitizeErrForPrompt e
        = "invalid enum value (severity must be INFO, WARN, or CRITICAL)")
  /\ (IDFormat "Q-" (Question_ID q) ->
      ~ ValidSeverity (Question_Severity q) ->
      exists e,
        Validate.validateQuestion Quote q idx lineCount = Some e
        /\ sanitizeErrForPrompt e
           = "invalid enum value (severity must be INFO, WARN, or CRITICAL)").
Proof.
  split.
  - intros Hid Hsev. unfold Validate.validateIssue.
    apply matchLitFourDigits_iff in Hid.
    unfold Validate.issueIDPattern_MatchString. rewrite Hid. cbv zeta.
    simpl negb. cbv iota.
    destruct (Validate.validateSeverity Quote (Issue_Severity issue)
                ("issue[" ++ Fmt.itoa idx ++ "]")) as [e |] eqn:He.
    + exists e. split; [reflexivity |].
      unfold Validate.validateSeverity in He.
      destruct ((Issue_Severity issue == SeverityInfo)
                || (Issue_Severity issue == SeverityWarn)
                || (Issue_Severity issue == SeverityCritical));
        [discriminate |].
      injection He as <-. apply sanitize_severity_phrase.
      * apply issue_message_not_json.
      * apply Contains_append_r.
        exact (Contains_inside
                 ": " "invalid severity"
                 (" " ++ Quote (Issue_Severity issue)
                      ++ " (must be INFO, WARN, or CRITICAL)")).
    + apply validateSeverity_None in He. contradiction.
  - intros Hid Hsev. unfold Validate.validateQuestion.
    apply matchLitFourDigits_iff in Hid.
    unfold Validate.questionIDPattern_MatchString. rewrite Hid. cbv zeta.
    simpl negb. cbv iota.
    destruct (Validate.validateSeverity Quote (Question_Severity q)
                ("question[" ++ Fmt.itoa idx ++ "]")) as [e |] eqn:He.
    + exists e. split; [reflexivity |].
      unfold Validate.validateSeverity in He.
      destruct ((Question_Severity q == SeverityInfo)
                || (Question_Severity q == SeverityWarn)
                || (Question_Severity q == SeverityCritical));
        [discriminate |].
      injection He as <-. apply sanitize_severity_phrase.
      * apply question_message_not_json.
      * apply Contains_append_r.
        exact (Contains_inside
                 ": " "invalid severity"
                 (" " ++ Quote (Question_Severity q)
                      ++ " (must be INFO, WARN, or CRITICAL)")).
    + apply validateSeverity_None in He. contradiction.
Qed.

(** X13. The label of an ID-format violation depends on the text of the
    id: [sanitizeErrForPrompt] tests the whole message, which quotes
    the id, so an issue whose malformed id reads "invalid severity"
    once quoted is reported under the severity label. *)
Theorem id_violation_label_follows_id_text (issue : Issue)
        (idx lineCount : Z) :
  ~ IDFormat "ISSUE-" (Issue_ID issue) ->
  Contains (Quote (Issue_ID issue)) "invalid severity" = true ->
  Validate.validateIssue Quote issue idx lineCount
  = Some (("issue[" ++ Fmt.itoa idx ++ "]") ++ ": id " ++ Quote (Issue_ID issue)
            ++ " does not match ISSUE-XXXX format")
  /\ sanitizeErrForPrompt
       (("issue[" ++ Fmt.itoa idx ++ "]") ++ ": id " ++ Quote (Issue_ID issue)
          ++ " does not match ISSUE-XXXX format")
     = "invalid enum value (severity must be INFO, WARN, or CRITICAL)".
Proof.
  intros Hid Hquote. split.
  - unfold Validate.validateIssue, Validate.issueIDPattern_MatchString.
    destruct (Validate.matchLitFourDigits "ISSUE-" (Issue_ID issue)) eqn:Hm.
    + apply matchLitFourDigits_iff in Hm. contradiction.
    + reflexivity.
  - apply sanitize_severity_phrase; [apply issue_message_not_json |].
    now apply Contains_append_r, Contains_append_r, Contains_append_l.
Qed.

(** X14. Only validated output leaves [callWithRetry]: a report it
    returns is the one [Parse] accepted from the last response, the
    first or the repair one, with the model string of that response,
    and all its issues and questions satisfy the schema constraints. *)
Theorem callWithRetry_returns_validated_output (w : World)
        (req : Request float64) (lineCount : Z) (verbose : bool)
        (report : Report float64) (model : string) :
  fst (runState (callWithRetry req lineCount verbose) w) = Ok (report, model) ->
  Forall (IssueOK lineCount) (Report_Issues report)
  /\ Forall (QuestionOK lineCount) (Report_Questions report)
  /\ exists resp p,
      (Complete (provider w) req = (Ok resp, p)
       \/ exists resp1 p1 parseErr,
           Complete (provider w) req = (Ok resp1, p1)
           /\ parse (Content resp1) lineCount = Err parseErr
           /\ Complete p1 (repairRequest req parseErr) = (Ok resp, p))
      /\ parse (Content resp) lineCount = Ok report
      /\ model = Response_Model resp.
Proof.
  intros Hrun.
  pose proof (callWithRetry_validated Quote TrimSpace json_Unmarshal Complete
                                      _ _ _ _ Hrun) as Hval.
  apply validateReport_None in Hval as [Hi Hq].
  split; [exact Hi | split; [exact Hq |]].
  destruct (Complete (provider w) req) as [[resp | err] p1] eqn:H1.
  - destruct (parse (Content resp) lineCount) as [report1 | parseErr] eqn:Hp.
    + rewrite (run_first_valid _ _ _ _ H1 Hp) in Hrun. cbn in Hrun.
      injection Hrun as <- <-. exists resp, p1. auto.
    + destruct (Complete p1 (repairRequest req parseErr)) as [r2 p2] eqn:H2.
      rewrite (run_repair _ _ _ _ H1 Hp H2) in Hrun.
      cbn -[String.append] in Hrun.
      destruct r2 as [resp2 | err]; [| discriminate].
      destruct (parse (Content resp2) lineCount) as [report2 | e2] eqn:Hp2;
        [| discriminate].
      injection Hrun as <- <-. exists resp2, p2.
      split; [right; now exists resp, p1, parseErr | auto].
  - rewrite (run_transport_failure _ _ _ _ H1) in Hrun. discriminate.
Qed.

(** X15. [callWithRetry] writes to standard error only in verbose mode
    and only when the first response fails validation: then one line,
    carrying the error of the validator as it is. *)
Theorem callWithRetry_stderr (w : World) (req : Request float64)
        (lineCount : Z) (verbose : bool) :
  stderr (snd (runState (callWithRetry req lineCount verbose) w))
  = match fst (Complete (provider w) req) with
    | Err _ => stderr w
    | Ok resp =>
        match parse (Content resp) lineCount with
        | Ok _ => stderr w
        | Err parseErr =>
            if verbose
            then stderr w ++ "INFO: Validation failed, retrying: "
                          ++ parseErr ++ LF
            else stderr w
        end
    end.
Proof.
  destruct (Complete (provider w) req) as [[resp | err] p1] eqn:H1.
  - destruct (parse (Content resp) lineCount) as [report | parseErr] eqn:Hp.
    + rewrite (run_first_valid _ _ _ verbose H1 Hp). cbn. now rewrite Hp.
    + destruct (Complete p1 (repairRequest req parseErr)) as [r2 p2] eqn:H2.
      rewrite (run_repair _ _ _ verbose H1 Hp H2).
      cbn -[String.append]. rewrite Hp.
      destruct verbose; [| reflexivity].
      now rewrite !append_assoc.
  - now rewrite (run_transport_failure _ _ _ verbose H1).
Qed.

(** X16. The message of an error of [callWithRetry] tells which step
    failed: it begins with "LLM call failed: " exactly when the first
    call to the provider failed, with "LLM retry call failed: " exactly
    when the repair call failed, and with "invalid model output after
    retry: " exactly when both responses failed validation. *)
Theorem callWithRetry_error_prefix_tells_failure (w : World)
        (req : Request float64) (lineCount : Z) (verbose : bool) (e : error) :
  fst (runState (callWithRetry req lineCount verbose) w) = Err e ->
  (HasPrefix e "LLM call failed: " = true <->
   exists err p1, Complete (provider w) req = (Err err, p1))
  /\ (HasPrefix e "LLM retry call failed: " = true <->
      exists resp p1 parseErr err p2,
        Complete (provider w) req = (Ok resp, p1)
        /\ parse (Content resp) lineCount = Err parseErr
        /\ Complete p1 (repairRequest req parseErr) = (Err err, p2))
  /\ (HasPrefix e "invalid model output after retry: " = true <->
      exists resp p1 parseErr resp2 p2 parseErr2,
        Complete (provider w) req = (Ok resp, p1)
        /\ parse (Content resp) lineCount = Err parseErr
        /\ Complete p1 (repairRequest req parseErr) = (Ok resp2, p2)
        /\ parse (Content resp2) lineCount = Err parseErr2).
Proof.
  unfold HasPrefix.
  destruct (Complete (provider w) req) as [[resp | err] p1] eqn:H1.
  - destruct (parse (Content resp) lineCount) as [report | parseErr] eqn:Hp.
    { rewrite (run_first_valid _ _ _ verbose H1 Hp). discriminate. }
    destruct (Complete p1 (repairRequest req parseErr)) as [r2 p2] eqn:H2.
    rewrite (run_repair _ _ _ verbose H1 Hp H2). cbn -[String.append].
    destruct r2 as [resp2 | err].
    + destruct (parse (Content resp2) lineCount) as [report2 | parseErr2] eqn:Hp2;
        [discriminate |].
      intros [= <-]. refine (conj _ (conj _ _)).
      * split; [intros H; vm_compute in H; discriminate H |].
        intros (err & p & H). discriminate H.
      * split; [intros H; vm_compute in H; discriminate H |].
        intros (resp' & p1' & pe' & err' & p2' & Ha & Hb & Hc).
        injection Ha as <- <-. rewrite Hp in Hb. injection Hb as <-.
        rewrite H2 in Hc. discriminate Hc.
      * split;
          [| intros _;
             exact (@prefix_append "invalid model output after retry: " parseErr2)].
        intros _. exists resp, p1, parseErr, resp2, p2, parseErr2. auto.
    + intros [= <-]. refine (conj _ (conj _ _)).
      * split; [intros H; vm_compute in H; discriminate H |].
        intros (err' & p & H). discriminate H.
      * split;
          [| intros _; exact (@prefix_append "LLM retry call failed: " err)].
        intros _. exists resp, p1, parseErr, err, p2. auto.
      * split; [intros H; vm_compute in H; discriminate H |].
        intros (resp' & p1' & pe' & resp2' & p2' & pe2' & Ha & Hb & Hc & _).
        injection Ha as <- <-. rewrite Hp in Hb. injection Hb as <-.
        rewrite H2 in Hc. discriminate Hc.
  - rewrite (run_transport_failure _ _ _ verbose H1). cbn -[String.append].
    intros [= <-]. refine (conj _ (conj _ _)).
    + split; [| intros _; exact (@prefix_append "LLM call failed: " err)].
      intros _. now exists err, p1.
    + split; [intros H; vm_compute in H; discriminate H |].
      intros (resp' & p1' & pe' & err' & p2' & Ha & _). discriminate Ha.
    + split; [intros H; vm_compute in H; discriminate H |].
      intros (resp' & p1' & pe' & resp2' & p2' & pe2' & Ha & _).
      discriminate Ha.
Qed.

End WithWorld.

End MainExtras.

(** ** The flags *)

Module FlagsExtras.
Import Schema Spec MoreSpec Main Flags Render ReviewFacts ReviewExtras.

Lemma parseSeverityThreshold_valid s : ValidSeverity (parseSeverityThreshold s).
Proof.
  unfold parseSeverityThreshold, ValidSeverity.
  destruct (s == "warn"); [auto |]. destruct (s == "critical"); auto.
Qed.

Section WithFloat.
Variable float64 : Type.
Variable float_lt : float64 -> float64 -> bool.
Variables float_0 float_2 : float64.
Variable fmt_g : float64 -> string.
Variable Quote : string -> string.

Abbreviation validateFlags :=
  (validateFlags float_lt float_0 float_2 fmt_g Quote).

Lemma validateFlags_None (flags : checkFlags float64) :
  validateFlags flags = None <->
  (format flags = "json" \/ format flags = "md")
  /\ (failOn flags = "" \/ failOn flags = VerdictValidWithGaps
      \/ failOn flags = VerdictInvalid)
  /\ (severityThreshold flags = "info" \/ severityThreshold flags = "warn"
      \/ severityThreshold flags = "critical")
  /\ float_lt (temperature flags) float_0 = false
  /\ float_lt float_2 (temperature flags) = false
  /\ 0 < maxTokens flags.
Proof.
  unfold Flags.validateFlags.
  destruct (String.eqb_spec (format flags) "json") as [Hj | Hj];
    destruct (String.eqb_spec (format flags) "md") as [Hm | Hm];
    destruct (String.eqb_spec (failOn flags) "") as [Hf0 | Hf0];
    destruct (String.eqb_spec (failOn flags) VerdictValidWithGaps) as [Hf1 | Hf1];
    destruct (String.eqb_spec (failOn flags) VerdictInvalid) as [Hf2 | Hf2];
    destruct (String.eqb_spec (severityThreshold flags) "info") as [Hi | Hi];
    destruct (String.eqb_spec (severityThreshold flags) "warn") as [Hw | Hw];
    destruct (String.eqb_spec (severityThreshold flags) "critical") as [Hc | Hc];
    simpl; try (split; [discriminate | tauto]);
    destruct (float_lt (temperature flags) float_0);
    destruct (float_lt float_2 (temperature flags));
    simpl; try (split; [discriminate | intuition discriminate]);
    destruct (Z.leb_spec (maxTokens flags) 0);
    (split; [try discriminate; intros _; repeat split; auto | try reflexivity; lia]).
Qed.

(** X17. Flags that [validateFlags] accepts always get a renderer:
    [NewRenderer] knows exactly the formats [validateFlags] lets
    through, so its "unknown format" error cannot occur after step 1. *)
Theorem accepted_format_has_a_renderer (flags : checkFlags float64) :
  validateFlags flags = None ->
  (NewRenderer Quote (format flags) = Ok jsonRenderer
   \/ NewRenderer Quote (format flags) = Ok markdownRenderer)
  /\ (forall fmt,
         (exists r, NewRenderer Quote fmt = Ok r) <-> fmt = "json" \/ fmt = "md").
Proof.
  intros H. apply validateFlags_None in H as ([Hf | Hf] & _).
  all: split; [rewrite Hf; auto |].
  all: intros fmt; unfold NewRenderer;
    destruct (String.eqb_spec fmt "json"); destruct (String.eqb_spec fmt "md");
    split; eauto; try (intros [r Hr]; discriminate); intros [? | ?]; contradiction.
Qed.

(** X18. For accepted flags the threshold of the filter is the severity
    the flag names, info, warn or critical; whatever the text,
    [parseSeverityThreshold] returns one of the three severities, and
    any text other than warn and critical means INFO. *)
Theorem accepted_threshold_names_its_severity (flags : checkFlags float64) :
  validateFlags flags = None ->
  ((severityThreshold flags = "info"
    /\ parseSeverityThreshold (severityThreshold flags) = SeverityInfo)
   \/ (severityThreshold flags = "warn"
       /\ parseSeverityThreshold (severityThreshold flags) = SeverityWarn)
   \/ (severityThreshold flags = "critical"
       /\ parseSeverityThreshold (severityThreshold flags) = SeverityCritical))
  /\ (forall s, ValidSeverity (parseSeverityThreshold s))
  /\ (forall s, s <> "warn" -> s <> "critical" ->
                parseSeverityThreshold s = SeverityInfo).
Proof.
  intros H. apply validateFlags_None in H as (_ & _ & Ht & _).
  split; [| split].
  - destruct Ht as [-> | [-> | ->]]; auto.
  - apply parseSeverityThreshold_valid.
  - intros s Hw Hc. unfold parseSeverityThreshold.
    apply String.eqb_neq in Hw, Hc. now rewrite Hw, Hc.
Qed.

(** X19. The last step of [runCheck], for accepted flags: the run ends
    with an error exactly when --fail-on is INVALID and the verdict is
    INVALID, or --fail-on is VALID_WITH_GAPS and there is an issue or a
    CRITICAL question (the verdict is not VALID); that error always
    carries exit code 2. *)
Theorem fail_on_threshold (flags : checkFlags float64)
        (issues : list Issue) (questions : list Question) :
  validateFlags flags = None ->
  let verdict := Review.Verdict issues questions in
  let outcome := runCheck_step18 verdict (failOn flags) in
  (outcome <> None <->
   (failOn flags = VerdictInvalid /\ verdict = VerdictInvalid)
   \/ (failOn flags = VerdictValidWithGaps
       /\ (issues <> [] \/ Exists IsCriticalQ questions)))
  /\ (outcome = None
      \/ exists text, outcome = Some {| code := 2; msg := text |}).
Proof.
  intros H verdict outcome.
  apply validateFlags_None in H as (_ & Hfail & _).
  rewrite <- Verdict_not_VALID_iff. fold verdict.
  subst outcome. unfold runCheck_step18, codeError.
  destruct (Verdict_three issues questions) as [Hv | [Hv | Hv]];
    fold verdict in Hv; rewrite Hv;
    destruct Hfail as [Hf | [Hf | Hf]]; rewrite Hf; cbn -[String.append].
  all: split; [| solve [auto | right; eexists; reflexivity]].
  all: split;
    [ intros Hne; try (exfalso; now apply Hne);
      solve [ left; split; reflexivity
            | right; split; [reflexivity | discriminate] ]
    | intros [[Ha Hb] | [Ha Hb]]; try discriminate;
      try (exfalso; now apply Hb) ].
Qed.

End WithFloat.

End FlagsExtras.

(** ** The line numbers of the specification *)

Module LoaderExtras.
Import Schema Strings Validate Spec MoreSpec SpecLoader.
Import StringFacts SplitFacts ValidateFacts.

Lemma Contains_LF_append a b :
  Contains (a ++ b) LF = Contains a LF || Contains b LF.
Proof.
  induction a as [| c a IH].
  - cbn [String.append]. now destruct b.
  - cbn [String.append]. rewrite !Contains_LF_cons, IH.
    now rewrite orb_assoc.
Qed.

Lemma string_of_uint_no_LF d :
  Contains (NilEmpty.string_of_uint d) LF = false.
Proof.
  induction d; cbn [NilEmpty.string_of_uint];
    [reflexivity | rewrite Contains_LF_cons, IHd; reflexivity ..].
Qed.

Lemma itoa_no_LF n : Contains (Fmt.itoa n) LF = false.
Proof.
  unfold Fmt.itoa, NilZero.string_of_int.
  assert (H : forall d, Contains (NilZero.string_of_uint d) LF = false).
  { intros d. unfold NilZero.string_of_uint.
    destruct d; try reflexivity;
      apply (string_of_uint_no_LF (_ _)). }
  destruct (Z.to_int n) as [d | d]; [apply H |].
  rewrite Contains_LF_cons, H. reflexivity.
Qed.

Lemma numberFrom_length lines : forall k,
  List.length (numberFrom k lines) = List.length lines.
Proof.
  induction lines as [| line lines IH]; intros k; simpl; [| rewrite IH];
    reflexivity.
Qed.

Lemma numberFrom_no_LF lines : forall k,
  Forall (fun piece => Contains piece LF = false) lines ->
  Forall (fun piece => Contains piece LF = false) (numberFrom k lines).
Proof.
  induction lines as [| line lines IH]; intros k H; [constructor |].
  inversion H as [| ? ? Hline Hrest]; subst.
  cbn [numberFrom]. constructor; [| now apply IH].
  rewrite !Contains_LF_append, itoa_no_LF, Hline. reflexivity.
Qed.

Lemma numberFrom_nth lines : forall k j,
  nth_error (numberFrom k lines) j =
  option_map (fun line => "L" ++ Fmt.itoa (k + Z.of_nat j) ++ ": " ++ line)
             (nth_error lines j).
Proof.
  induction lines as [| line lines IH]; intros k j.
  - now destruct j.
  - destruct j as [| j]; cbn [numberFrom nth_error].
    + now rewrite Z.add_0_r.
    + replace (k + Z.of_nat (S j)) with (k + 1 + Z.of_nat j) by lia.
      apply IH.
Qed.

Lemma removelast_length_Z (lines : list string) :
  lines <> [] ->
  Z.of_nat (List.length (removelast lines))
  = Z.of_nat (List.length lines) - 1.
Proof.
  intros Hne. rewrite (app_removelast_last "x" Hne) at 2.
  rewrite length_app. simpl List.length. lia.
Qed.

Lemma addLineNumbers_loop_cons n i line rest out lineCount :
  addLineNumbers_loop n i (line :: rest) out lineCount =
  if (i =? n - 1) && (line == "") then (out, lineCount)
  else addLineNumbers_loop
         n (i + 1) rest
         (out ++ ["L" ++ Fmt.itoa (lineCount + 1) ++ ": " ++ line])
         (lineCount + 1).
Proof. reflexivity. Qed.

(** The loop of [addLineNumbers], started at index [i] with [lines] left. *)
Lemma addLineNumbers_loop_run lines : forall n i out lineCount,
  lines <> [] ->
  i + Z.of_nat (List.length lines) = n ->
  addLineNumbers_loop n i lines out lineCount =
  ((out ++ numberFrom (lineCount + 1)
                      (if last lines "x" == "" then removelast lines
                       else lines))%list,
   lineCount
   + Z.of_nat (List.length (if last lines "x" == "" then removelast lines
                            else lines))).
Proof.
  induction lines as [| line lines IH]; intros n i out lineCount Hne Hn;
    [contradiction |].
  destruct lines as [| line2 lines].
  - rewrite addLineNumbers_loop_cons. cbn [last removelast].
    replace (i =? n - 1) with true
      by (symmetry; apply Z.eqb_eq; simpl in Hn; lia).
    destruct (line == ""); cbn [andb numberFrom List.length addLineNumbers_loop].
    + now rewrite app_nil_r, Z.add_0_r.
    + reflexivity.
  - rewrite addLineNumbers_loop_cons.
    replace (i =? n - 1) with false
      by (symmetry; apply Z.eqb_neq; simpl List.length in Hn; lia).
    cbn [andb].
    rewrite (IH n (i + 1)); [| discriminate | simpl List.length in *; lia].
    change (last (line :: line2 :: lines) "x")
      with (last (line2 :: lines) "x").
    change (removelast (line :: line2 :: lines))
      with (line :: removelast (line2 :: lines)).
    destruct (last (line2 :: lines) "x" == "");
      cbn [numberFrom]; rewrite <- app_assoc; cbn [app];
      apply f_equal; cbn [List.length]; rewrite Nat2Z.inj_succ; lia.
Qed.

Lemma numberedLinesOf_pieces content :
  Forall (fun piece => Contains piece LF = false) (numberedLinesOf content).
Proof.
  unfold numberedLinesOf. pose proof (Split_pieces content) as H.
  destruct (last (Split content LF) "x" == ""); [| exact H].
  revert H. generalize (Split content LF) as lines.
  induction lines as [| line lines IH]; intros H; [constructor |].
  inversion H; subst. destruct lines as [| line2 lines]; [constructor |].
  change (removelast (line :: line2 :: lines))
    with (line :: removelast (line2 :: lines)).
  constructor; auto.
Qed.

Lemma numberedLinesOf_nil content :
  numberedLinesOf content = [] <-> content = "".
Proof.
  split; [| now intros ->].
  unfold numberedLinesOf. intros H.
  pose proof (Join_Split content) as Hjoin.
  pose proof (Split_not_nil content) as Hne.
  destruct (Split content LF) as [| line [| line2 lines]];
    [contradiction | |].
  - cbn [last removelast] in H.
    destruct (String.eqb_spec line "") as [Hline | _]; [| discriminate].
    now rewrite <- Hjoin, Hline.
  - change (removelast (line :: line2 :: lines))
      with (line :: removelast (line2 :: lines)) in H.
    destruct (last (line :: line2 :: lines) "x" == ""); discriminate.
Qed.

(** [addLineNumbers] as a whole. *)
Lemma addLineNumbers_run (content : string) :
  addLineNumbers content =
  (Join (numberFrom 1 (numberedLinesOf content)) LF,
   Z.of_nat (List.length (numberedLinesOf content))).
Proof.
  unfold addLineNumbers, numberedLinesOf.
  rewrite (@addLineNumbers_loop_run
             (Split content LF)
             (Z.of_nat (List.length (Split content LF))) 0 [] 0
             (Split_not_nil content) eq_refl).
  reflexivity.
Qed.

(** X20. [addLineNumbers] numbers the lines of a content that is not
    empty from 1 and in order: line [j] of the numbered text (counting
    from 0) is line [j] of the content behind the prefix [L<j+1>: ], the
    empty piece after a final newline gets no number, and the count
    returned is the number of lines of the numbered text. *)
Theorem addLineNumbers_numbers_every_line (content : string) :
  content <> "" ->
  (forall j,
      nth_error (Split (fst (addLineNumbers content)) LF) j =
      option_map (fun line => "L" ++ Fmt.itoa (Z.of_nat j + 1) ++ ": " ++ line)
                 (nth_error (numberedLinesOf content) j))
  /\ snd (addLineNumbers content)
     = Z.of_nat (List.length (Split (fst (addLineNumbers content)) LF)).
Proof.
  intros Hne. rewrite addLineNumbers_run. cbn [fst snd].
  rewrite Split_Join.
  - split; [| now rewrite numberFrom_length].
    intros j. rewrite numberFrom_nth. now rewrite Z.add_comm.
  - intros Hnil. apply Hne, numberedLinesOf_nil.
    destruct (numberedLinesOf content); [reflexivity | discriminate].
  - apply numberFrom_no_LF, numberedLinesOf_pieces.
Qed.

(** X21. The line count is 0 only for an empty content, the one case in
    which [validateEvidence] leaves the end of a range unbounded; the
    count is the number of pieces between newlines, less one when the
    content ends with a newline. *)
Theorem lineCount_zero_only_for_empty_content (content : string) :
  (snd (addLineNumbers content) = 0 <-> content = "")
  /\ (fst (addLineNumbers content) = "" <-> content = "")
  /\ snd (addLineNumbers content)
     = Z.of_nat (List.length (Split content LF))
       - (if last (Split content LF) "x" == "" then 1 else 0).
Proof.
  rewrite addLineNumbers_run. cbn [fst snd].
  pose proof (numberedLinesOf_nil content) as Hnil.
  split; [| split].
  - rewrite <- Hnil.
    destruct (numberedLinesOf content); simpl List.length; split;
      try reflexivity; try discriminate; lia.
  - split.
    + intros Hjoin. apply Hnil.
      destruct (numberedLinesOf content) as [| line [| line2 lines]];
        [reflexivity | discriminate Hjoin | discriminate Hjoin].
    + intros Hc. apply Hnil in Hc. now rewrite Hc.
  - unfold numberedLinesOf.
    destruct (last (Split content LF) "x" == ""); [| lia].
    now apply removelast_length_Z, Split_not_nil.
Qed.

Section WithQuote.
Variable float64 : Type.
Variable Quote : string -> string.

(** X22. A report validated against the line count of a content that is
    not empty cites only lines the content has: both ends of every
    evidence range of every issue and question are numbers of existing
    lines. *)
Theorem validated_evidence_cites_existing_lines
        (content : string) (r : Report float64) :
  content <> "" ->
  validateReport Quote r (snd (addLineNumbers content)) = None ->
  Forall (fun ev => lineExists content (Evidence_LineStart ev)
                    /\ lineExists content (Evidence_LineEnd ev))
         (allEvidence r).
Proof.
  intros Hne Hvalid.
  rewrite addLineNumbers_run in Hvalid. cbn [snd] in Hvalid.
  assert (Hpos : 0 < Z.of_nat (List.length (numberedLinesOf content))).
  { destruct (numberedLinesOf content) eqn:E.
    - now apply numberedLinesOf_nil in E.
    - simpl List.length. lia. }
  assert (Hexists : forall n,
             1 <= n <= Z.of_nat (List.length (numberedLinesOf content)) ->
             lineExists content n).
  { intros n Hn. split; [lia |].
    destruct (nth_error (numberedLinesOf content) (Z.to_nat (n - 1)))
      as [line |] eqn:E; [now exists line |].
    apply nth_error_None in E. lia. }
  assert (Hev : forall ev,
             EvidenceOK (Z.of_nat (List.length (numberedLinesOf content))) ev ->
             lineExists content (Evidence_LineStart ev)
             /\ lineExists content (Evidence_LineEnd ev)).
  { intros ev [Hrange Hend]. specialize (Hend Hpos).
    split; apply Hexists; lia. }
  apply validateReport_None in Hvalid as [Hissues Hquestions].
  unfold allEvidence. apply Forall_app. split; apply Forall_flat_map.
  - eapply Forall_impl; [| exact Hissues].
    intros i (_ & _ & _ & _ & Hevs).
    eapply Forall_impl; [| exact Hevs]. exact Hev.
  - eapply Forall_impl; [| exact Hquestions].
    intros q (_ & _ & _ & Hevs).
    eapply Forall_impl; [| exact Hevs]. exact Hev.
Qed.

End WithQuote.

End LoaderExtras.

(** ** Normalisation and the diff *)

Module PatchExtras.
Import Schema Strings Patch Spec MoreSpec.
Import StringFacts SplitFacts PatchFacts.

(** *** Texts without a given byte *)

Lemma prefix_byte_cons a c s :
  String.prefix (String a "") (String c s) = Ascii.eqb a c.
Proof.
  cbn [String.prefix].
  destruct (Ascii.ascii_dec a c) as [Heq | Hne].
  - rewrite <- Heq, Ascii.eqb_refl. now destruct s.
  - symmetry. now apply Ascii.eqb_neq.
Qed.

Lemma Contains_byte_cons a c s :
  Contains (String c s) (String a "")
  = Ascii.eqb a c || Contains s (String a "").
Proof.
  cbn [Contains]. rewrite prefix_byte_cons.
  now destruct (Ascii.eqb a c).
Qed.

Lemma Contains_byte_append a x y :
  Contains (x ++ y) (String a "")
  = Contains x (String a "") || Contains y (String a "").
Proof.
  induction x as [| c x IH].
  - cbn [String.append]. now destruct y.
  - cbn [String.append]. rewrite !Contains_byte_cons, IH.
    now rewrite orb_assoc.
Qed.

Lemma TrimRight_no_byte a s cutset :
  Contains s (String a "") = false ->
  Contains (TrimRight s cutset) (String a "") = false.
Proof.
  induction s as [| c s IH]; [reflexivity |].
  rewrite Contains_byte_cons. intros H.
  apply orb_false_iff in H as [Hc Hs]. specialize (IH Hs).
  cbn [TrimRight].
  destruct (TrimRight s cutset) as [| k kept].
  - destruct (in_cutset c cutset); [reflexivity |].
    now rewrite Contains_byte_cons, Hc.
  - now rewrite Contains_byte_cons, Hc, IH.
Qed.

Lemma Split_no_byte a s :
  Contains s (String a "") = false ->
  Forall (fun piece => Contains piece (String a "") = false) (Split s LF).
Proof.
  induction s as [| c s IH]; intros H; [now repeat constructor |].
  rewrite Contains_byte_cons in H. apply orb_false_iff in H as [Hc Hs].
  specialize (IH Hs). rewrite Split_cons.
  pose proof (Split_not_nil s) as Hne.
  destruct (Ascii.eqb "010" c).
  - constructor; [now destruct a as [[] [] [] [] [] [] [] []] | exact IH].
  - destruct (Split s LF) as [| piece pieces]; [contradiction |].
    inversion IH; subst. constructor; [| assumption].
    now rewrite Contains_byte_cons, Hc.
Qed.

Lemma Join_no_byte a pieces :
  Contains LF (String a "") = false ->
  Forall (fun piece => Contains piece (String a "") = false) pieces ->
  Contains (Join pieces LF) (String a "") = false.
Proof.
  intros Hsep. unfold Join.
  induction pieces as [| piece pieces IH]; intros H; [now destruct a as [[] [] [] [] [] [] [] []] |].
  inversion H as [| ? ? Hpiece Hrest]; subst.
  destruct pieces as [| piece2 pieces]; [exact Hpiece |].
  change (String.concat LF (piece :: piece2 :: pieces))
    with (piece ++ LF ++ String.concat LF (piece2 :: pieces)).
  rewrite !Contains_byte_append, Hpiece, Hsep. now apply IH.
Qed.

Lemma no_CR_no_CRLF s :
  Contains s CR = false -> Contains s (CR ++ LF) = false.
Proof.
  induction s as [| c s IH]; [reflexivity |].
  unfold CR at 1. rewrite Contains_byte_cons. intros H.
  apply orb_false_iff in H as [Hc Hs].
  cbn [Contains]. rewrite (IH Hs).
  change (CR ++ LF) with (String "013" LF). cbn [String.prefix].
  destruct (Ascii.ascii_dec "013" c) as [Heq | _]; [| reflexivity].
  rewrite Heq, Ascii.eqb_refl in Hc. discriminate.
Qed.

(** *** Trimmed lines *)

Lemma lastByte_cons c s : lastByte (String c s) <> None.
Proof.
  revert c. induction s as [| k s IH]; intros c; [discriminate |].
  change (lastByte (String c (String k s))) with (lastByte (String k s)).
  apply IH.
Qed.

Lemma TrimRight_lastByte s cutset c :
  lastByte (TrimRight s cutset) = Some c -> in_cutset c cutset = false.
Proof.
  induction s as [| a s IH]; [discriminate |].
  cbn [TrimRight].
  destruct (TrimRight s cutset) as [| k kept].
  - destruct (in_cutset a cutset) eqn:Ha; [discriminate |].
    now intros [= <-].
  - exact IH.
Qed.

Lemma TrimRight_fixed s cutset :
  (forall c, lastByte s = Some c -> in_cutset c cutset = false) ->
  TrimRight s cutset = s.
Proof.
  induction s as [| a s IH]; [reflexivity |].
  intros H. cbn [TrimRight]. destruct s as [| k s].
  - cbn [TrimRight]. now rewrite (H a eq_refl).
  - rewrite IH by exact H. reflexivity.
Qed.

Lemma TrimRight_endsBlank line :
  endsBlank (TrimRight line (" " ++ TAB)) = false.
Proof.
  unfold endsBlank.
  destruct (lastByte (TrimRight line (" " ++ TAB))) as [c |] eqn:E;
    [| reflexivity].
  exact (TrimRight_lastByte _ _ E).
Qed.

Lemma endsBlank_fixed line :
  endsBlank line = false -> TrimRight line (" " ++ TAB) = line.
Proof.
  unfold endsBlank. intros H. apply TrimRight_fixed.
  intros c Hc. now rewrite Hc in H.
Qed.

Lemma map_TrimRight_fixed lines :
  Forall (fun line => endsBlank line = false) lines <->
  map (fun line => TrimRight line (" " ++ TAB)) lines = lines.
Proof.
  induction lines as [| line lines IH]; [split; [reflexivity | constructor] |].
  cbn [map]. split.
  - intros H. inversion H; subst. f_equal; [now apply endsBlank_fixed |].
    now apply IH.
  - intros [= Hline Hlines]. constructor; [| now apply IH].
    rewrite <- Hline. apply TrimRight_endsBlank.
Qed.

(** The lines of a normalised text. *)
Lemma Split_normalize s :
  Split (normalize s) LF =
  map (fun line => TrimRight line (" " ++ TAB))
      (Split (ReplaceAll s (CR ++ LF) LF) LF).
Proof.
  unfold normalize. apply Split_Join.
  - pose proof (Split_not_nil (ReplaceAll s (CR ++ LF) LF)) as Hne.
    destruct (Split (ReplaceAll s (CR ++ LF) LF) LF);
      [contradiction | discriminate].
  - apply Forall_map. eapply Forall_impl; [| apply Split_pieces].
    intros piece. apply TrimRight_no_LF.
Qed.

(** X23. No line of a normalised text ends with a space or a tab, and
    normalising keeps the number of lines of the text once its CRLF
    pairs are newlines. *)
Theorem normalize_leaves_no_trailing_blank (s : string) :
  Forall (fun line => endsBlank line = false) (Split (normalize s) LF)
  /\ List.length (Split (normalize s) LF)
     = List.length (Split (ReplaceAll s (CR ++ LF) LF) LF).
Proof.
  rewrite Split_normalize. split; [| apply length_map].
  apply Forall_map, Forall_forall. intros line _.
  apply TrimRight_endsBlank.
Qed.

(** X24. On a text without carriage returns, [normalize] is idempotent,
    its result has no carriage return either, and it leaves the text as
    it is exactly when no line of the text ends with a space or a
    tab. *)
Theorem normalize_without_CR (s : string) :
  Contains s CR = false ->
  normalize (normalize s) = normalize s
  /\ Contains (normalize s) CR = false
  /\ (normalize s = s <->
      Forall (fun line => endsBlank line = false) (Split s LF)).
Proof.
  intros Hcr.
  assert (Hs : normalize s
               = Join (map (fun line => TrimRight line (" " ++ TAB))
                           (Split s LF)) LF).
  { unfold normalize. rewrite ReplaceAll_absent by (now apply no_CR_no_CRLF). reflexivity. }
  assert (Hout : Contains (normalize s) CR = false).
  { rewrite Hs. apply Join_no_byte; [reflexivity |].
    apply Forall_map. eapply Forall_impl; [| apply Split_no_byte, Hcr].
    intros piece. apply TrimRight_no_byte. }
  assert (Hlines : Split (normalize s) LF
                   = map (fun line => TrimRight line (" " ++ TAB))
                         (Split s LF)).
  { rewrite Split_normalize.
    rewrite ReplaceAll_absent by (now apply no_CR_no_CRLF). reflexivity. }
  refine (conj _ (conj Hout _)).
  - unfold normalize at 1.
    rewrite ReplaceAll_absent by (now apply no_CR_no_CRLF). rewrite Hlines.
    rewrite map_map.
    rewrite (map_ext _ (fun line => TrimRight line (" " ++ TAB)))
      by (intros line; apply TrimRight_idempotent).
    now rewrite Hs.
  - rewrite map_TrimRight_fixed. split.
    + intros Hfix. rewrite <- Hlines. now rewrite Hfix.
    + intros Hfix. rewrite Hs, Hfix. apply Join_Split.
Qed.

(** Normalising a text whose first line is known. *)
Lemma normalize_first_line x a text :
  ReplaceAll x (CR ++ LF) LF = a ++ LF ++ ReplaceAll text (CR ++ LF) LF ->
  Contains a LF = false ->
  normalize x = TrimRight a (" " ++ TAB) ++ LF ++ normalize text.
Proof.
  intros Hx Ha. unfold normalize. rewrite Hx, Split_append_LF by exact Ha.
  pose proof (Split_not_nil (ReplaceAll text (CR ++ LF) LF)) as Hne.
  destruct (Split (ReplaceAll text (CR ++ LF) LF) LF) as [| line lines];
    [contradiction | reflexivity].
Qed.

(** X25. [normalize] does not remove every CRLF pair: a carriage return
    followed by a blank and a newline, or by a second carriage return
    and a newline, comes out as a CRLF pair, so that a second
    normalisation changes the text again. *)
Theorem normalize_can_leave_CRLF (rest : string) :
  normalize (CR ++ " " ++ LF ++ rest) = CR ++ LF ++ normalize rest
  /\ normalize (CR ++ CR ++ LF ++ rest) = CR ++ LF ++ normalize rest
  /\ normalize (normalize (CR ++ " " ++ LF ++ rest))
     <> normalize (CR ++ " " ++ LF ++ rest).
Proof.
  assert (H1 : normalize (CR ++ " " ++ LF ++ rest)
               = CR ++ LF ++ normalize rest).
  { exact (@normalize_first_line (CR ++ " " ++ LF ++ rest) (CR ++ " ") rest
             eq_refl eq_refl). }
  assert (H2 : normalize (CR ++ CR ++ LF ++ rest)
               = CR ++ LF ++ normalize rest).
  { apply (@normalize_first_line (CR ++ CR ++ LF ++ rest) CR rest);
      [now destruct rest | reflexivity]. }
  refine (conj H1 (conj H2 _)).
  rewrite H1.
  rewrite (@normalize_first_line (CR ++ LF ++ normalize rest) ""
             (normalize rest));
    [discriminate | now destruct (normalize rest) | reflexivity].
Qed.

(** *** The diff of several suggestions *)

Lemma concat_app (xs ys : list string) :
  String.concat "" (xs ++ ys)%list
  = String.concat "" xs ++ String.concat "" ys.
Proof.
  induction xs as [| x xs IH]; [reflexivity |].
  change ((x :: xs) ++ ys)%list with (x :: (xs ++ ys))%list.
  now rewrite !concat_cons, IH, append_assoc.
Qed.

Lemma append_same_length (a b : string) : a ++ b = a -> b = "".
Proof.
  intros H. apply (f_equal String.length) in H.
  rewrite length_append in H. destruct b; [reflexivity |].
  simpl in H. lia.
Qed.

Lemma append_empty (a b : string) : a ++ b = "" -> a = "" /\ b = "".
Proof. destruct a; [auto | discriminate]. Qed.

Lemma warningOf_empty specRaw p :
  warningOf specRaw p = "" <->
  Contains specRaw (Patch_Before p)
  || Contains (normalize specRaw) (normalize (Patch_Before p)) = true.
Proof.
  unfold warningOf, resolve.
  destruct (Contains specRaw (Patch_Before p)); [now split |].
  destruct (Contains (normalize specRaw) (normalize (Patch_Before p)));
    [now split |].
  cbn [snd orb]. split; discriminate.
Qed.

Lemma warnings_empty specRaw patches :
  String.concat "" (map (warningOf specRaw) patches) = "" <->
  Forall (fun p =>
            Contains specRaw (Patch_Before p)
            || Contains (normalize specRaw) (normalize (Patch_Before p))
            = true) patches.
Proof.
  induction patches as [| p patches IH]; [split; [constructor | reflexivity] |].
  cbn [map]. rewrite concat_cons. split.
  - intros H. apply append_empty in H as [Hp Hrest].
    constructor; [now apply warningOf_empty | now apply IH].
  - intros H. inversion H as [| ? ? Hp Hrest]; subst.
    apply warningOf_empty in Hp. apply IH in Hrest. now rewrite Hp, Hrest.
Qed.

Section WithDiffMatchPatch.
Variables Diff DmpPatch : Type.
Variable DiffMain : string -> string -> bool -> list Diff.
Variable PatchMake : string -> list Diff -> list DmpPatch.
Variable PatchToText : list DmpPatch -> string.

Abbreviation GenerateDiff' := (GenerateDiff DiffMain PatchMake PatchToText).

(** X26. The diff of two lists of suggestions one after the other is the
    diff of the first followed by the diff of the second, the warnings
    of the second following those of the first in the writer; the diff
    text does not depend on the writer, and a nil writer stays nil. *)
Theorem GenerateDiff_of_appended_lists
        (specRaw : string) (first second : list Schema.Patch) (w : Writer) :
  fst (GenerateDiff' specRaw (first ++ second)%list w)
  = fst (GenerateDiff' specRaw first w) ++ fst (GenerateDiff' specRaw second w)
  /\ snd (GenerateDiff' specRaw (first ++ second)%list w)
     = snd (GenerateDiff' specRaw second (snd (GenerateDiff' specRaw first w)))
  /\ fst (GenerateDiff' specRaw first w) = fst (GenerateDiff' specRaw first None)
  /\ snd (GenerateDiff' specRaw first None) = None.
Proof.
  rewrite !GenerateDiff_run. cbn [fst snd].
  rewrite !map_app, !concat_app, written_written.
  repeat split.
Qed.

(** X27. [GenerateDiff] leaves the writer as it was exactly when every
    suggestion is located, in the document as given or after
    normalisation; a suggestion with an empty [before] is always
    located. *)
Theorem GenerateDiff_warns_only_about_unlocated
        (specRaw sofar : string) (patches : list Schema.Patch) :
  (snd (GenerateDiff' specRaw patches (Some sofar)) = Some sofar <->
   Forall (fun p =>
             Contains specRaw (Patch_Before p)
             || Contains (normalize specRaw) (normalize (Patch_Before p))
             = true) patches)
  /\ (forall p, Patch_Before p = "" -> Contains specRaw (Patch_Before p) = true).
Proof.
  rewrite GenerateDiff_run. cbn [snd written].
  rewrite <- warnings_empty. split.
  - split.
    + intros [= H]. now apply append_same_length in H.
    + intros ->. now rewrite append_nil_r.
  - intros p ->. now destruct specRaw.
Qed.

End WithDiffMatchPatch.

End PatchExtras.

(** ** The provider string *)

Module ProviderExtras.
Import Strings LlmProvider.
Import StringFacts ValidateExtras PatchExtras.

Lemma Index_from_first_byte x a : forall i rest,
  Contains a (String x "") = false ->
  Index_from i (a ++ String x "" ++ rest) (String x "") = i + len a.
Proof.
  induction a as [| c a IH]; intros i rest H.
  - change ("" ++ String x "" ++ rest) with (String x rest).
    cbn [Index_from]. rewrite prefix_byte_cons, Ascii.eqb_refl.
    unfold len. simpl. lia.
  - rewrite Contains_byte_cons in H. apply orb_false_iff in H as [Hc Ha].
    change (String c a ++ String x "" ++ rest)
      with (String c (a ++ String x "" ++ rest)).
    cbn [Index_from]. rewrite prefix_byte_cons, Hc, IH by exact Ha.
    unfold len. simpl String.length. lia.
Qed.

(** A position found by [Index] cuts the text around the occurrence. *)
Lemma Index_from_cut sub s : forall i m,
  Index_from i s sub = m -> 0 <= i -> 0 <= m ->
  exists a b, s = a ++ sub ++ b /\ len a = m - i.
Proof.
  induction s as [| c s IH]; intros i m H Hi Hm.
  - cbn [Index_from] in H. destruct (String.prefix sub "") eqn:Hp; [| lia].
    apply prefix_split in Hp as [rest Hrest].
    exists "", rest. split; [exact Hrest | unfold len; simpl; lia].
  - cbn [Index_from] in H.
    destruct (String.prefix sub (String c s)) eqn:Hp.
    + apply prefix_split in Hp as [rest Hrest].
      exists "", rest. split; [exact Hrest | unfold len; simpl; lia].
    + destruct (IH (i + 1) m H ltac:(lia) Hm) as (a & b & -> & Hlen).
      exists (String c a), b. split; [reflexivity |].
      unfold len in *. simpl String.length. lia.
Qed.

Lemma len_append a b : len (a ++ b) = len a + len b.
Proof. unfold len. rewrite length_append. lia. Qed.

Lemma SplitN2_cut x a rest :
  Contains a (String x "") = false ->
  SplitN2 (a ++ String x "" ++ rest) (String x "") = [a; rest].
Proof.
  intros H. unfold SplitN2, Index.
  rewrite Index_from_first_byte by exact H. simpl (0 + _).
  pose proof (len_nonneg a) as Hlen.
  destruct (Z.ltb_spec (len a) 0); [lia |].
  rewrite slice_to_append.
  rewrite <- len_append, <- append_assoc, slice_from_append.
  reflexivity.
Qed.

Lemma SplitN2_inv s sep :
  SplitN2 s sep = [s] /\ Index s sep < 0
  \/ exists a b, s = a ++ sep ++ b /\ SplitN2 s sep = [a; b].
Proof.
  unfold SplitN2.
  destruct (Z.ltb_spec (Index s sep) 0) as [Hlt | Hge]; [now left |].
  right.
  destruct (@Index_from_cut sep s 0 (Index s sep) eq_refl (Z.le_refl 0) Hge)
    as (a & b & Hs & Hlen).
  exists a, b. split; [exact Hs |].
  rewrite Z.sub_0_r in Hlen. rewrite <- Hlen.
  rewrite Hs at 1. rewrite slice_to_append.
  rewrite <- len_append. rewrite Hs at 1.
  rewrite <- append_assoc, slice_from_append. reflexivity.
Qed.

Section WithEnvironment.
Variable Quote : string -> string.
Variable Getenv : string -> string.

Abbreviation NewProvider := (NewProvider Quote Getenv).

(** X28. [NewProvider] returns a provider exactly for "anthropic:" or
    "openai:" followed by a model name that is not empty, with the API
    key of that provider set in the environment; the model is
    everything after the first colon, and the provider carries that
    model and that key. *)
Theorem NewProvider_accepts_exactly (providerModel : string) (p : Provider) :
  NewProvider providerModel = Ok p <->
  exists model,
    model <> ""
    /\ ((providerModel = "anthropic:" ++ model
         /\ Getenv "ANTHROPIC_API_KEY" <> ""
         /\ p = anthropicProvider model (Getenv "ANTHROPIC_API_KEY"))
        \/ (providerModel = "openai:" ++ model
            /\ Getenv "OPENAI_API_KEY" <> ""
            /\ p = openaiProvider model (Getenv "OPENAI_API_KEY"))).
Proof.
  split.
  - unfold LlmProvider.NewProvider.
    destruct (SplitN2_inv providerModel ":") as [[-> _] | (a & b & Hs & ->)];
      [discriminate |].
    cbn [List.length Nat.eqb negb orb nth].
    destruct (String.eqb_spec a "") as [| Ha]; [discriminate |].
    destruct (String.eqb_spec b "") as [| Hb]; [discriminate |].
    cbn [orb].
    destruct (String.eqb_spec a "anthropic") as [-> | _].
    { destruct (String.eqb_spec (Getenv "ANTHROPIC_API_KEY") "") as [| Hk];
        [discriminate |].
      intros [= <-]. exists b. split; [exact Hb |]. left. auto. }
    destruct (String.eqb_spec a "openai") as [-> | _]; [| discriminate].
    destruct (String.eqb_spec (Getenv "OPENAI_API_KEY") "") as [| Hk];
      [discriminate |].
    intros [= <-]. exists b. split; [exact Hb |]. right. auto.
  - intros (model & Hm & [(-> & Hk & ->) | (-> & Hk & ->)]);
      unfold LlmProvider.NewProvider.
    + change ("anthropic:" ++ model) with ("anthropic" ++ ":" ++ model).
      rewrite (@SplitN2_cut ":"%char "anthropic" model eq_refl).
      cbn [List.length Nat.eqb negb orb nth].
      apply String.eqb_neq in Hm, Hk. rewrite Hm, Hk. reflexivity.
    + change ("openai:" ++ model) with ("openai" ++ ":" ++ model).
      rewrite (@SplitN2_cut ":"%char "openai" model eq_refl).
      cbn [List.length Nat.eqb negb orb nth].
      apply String.eqb_neq in Hm, Hk. rewrite Hm, Hk. reflexivity.
Qed.

End WithEnvironment.

End ProviderExtras.

(** ** The grounding documents *)

Module ContextExtras.
Import Strings Context.
Import StringFacts ValidateExtras PatchExtras.

Lemma substring_cut n : forall s,
  (n <= String.length s)%nat ->
  s = String.substring 0 n s ++ String.substring n (String.length s - n) s.
Proof.
  induction n as [| n IH]; intros s Hn.
  - rewrite Nat.sub_0_r, substring_all. now destruct s.
  - destruct s as [| c s]; [simpl in Hn; lia |].
    simpl in Hn. cbn [String.substring String.length Nat.sub String.append].
    f_equal. apply IH. lia.
Qed.

Lemma HasSuffix_cut s suf :
  HasSuffix s suf = true -> exists a, s = a ++ suf.
Proof.
  unfold HasSuffix, slice_from, len. intros H.
  apply andb_true_iff in H as [Hle Heq].
  apply Z.leb_le in Hle. apply String.eqb_eq in Heq.
  exists (String.substring 0 (String.length s - String.length suf) s).
  rewrite <- Nat2Z.inj_sub, Nat2Z.id in Heq by lia.
  pose proof (@substring_cut (String.length s - String.length suf) s
                ltac:(lia)) as Hcut.
  rewrite Heq in Hcut. exact Hcut.
Qed.

Section WithFiles.
Variable Quote : string -> string.
Variable RedactFile : string -> result string.
Variable Base : string -> string.

Abbreviation Load := (Load Quote RedactFile).
Abbreviation Load_loop := (Load_loop Quote RedactFile).
Abbreviation FormatForPrompt := (FormatForPrompt Quote Base).
Abbreviation body := (FormatForPrompt_body Quote Base).

Lemma Load_loop_Ok paths : forall files out,
  Load_loop paths files = Ok out <->
  exists more,
    out = (files ++ more)%list
    /\ Forall2 (fun p f => ContextFile_Path f = p
                           /\ RedactFile p = Ok (ContextFile_Content f))
               paths more.
Proof.
  induction paths as [| p paths IH]; intros files out; cbn [Context.Load_loop].
  - split.
    + intros [= <-]. exists []. split; [now rewrite app_nil_r | constructor].
    + intros (more & -> & H). inversion H. now rewrite app_nil_r.
  - destruct (RedactFile p) as [content | err] eqn:Hp.
    + rewrite IH. split.
      * intros (more & -> & H).
        exists ({| ContextFile_Path := p; ContextFile_Content := content |}
                  :: more).
        split; [now rewrite <- app_assoc |]. constructor; [| exact H].
        split; [reflexivity | exact Hp].
      * intros (more & -> & H). inversion H as [| ? f ? rest [Hpath Hc] Hrest];
          subst. exists rest. split; [| exact Hrest].
        rewrite <- app_assoc. cbn [app]. do 2 f_equal.
        destruct f as [fp fc]. cbn in *. congruence.
    + split; [discriminate |].
      intros (more & _ & H). inversion H as [| ? f ? rest [_ Hc] _]; subst.
      congruence.
Qed.

Lemma Load_loop_Err paths : forall files e,
  Load_loop paths files = Err e <->
  exists pre p post err,
    paths = (pre ++ p :: post)%list
    /\ Forall (fun q => exists content, RedactFile q = Ok content) pre
    /\ RedactFile p = Err err
    /\ e = "loading context file " ++ Quote p ++ ": " ++ err.
Proof.
  induction paths as [| p paths IH]; intros files e; cbn [Context.Load_loop].
  - split; [discriminate |].
    intros (pre & q & post & err & H & _). now destruct pre.
  - destruct (RedactFile p) as [content | err] eqn:Hp.
    + rewrite IH. split.
      * intros (pre & q & post & err & -> & Hpre & Hq & ->).
        exists (p :: pre), q, post, err.
        refine (conj eq_refl (conj _ (conj Hq eq_refl))).
        constructor; [now exists content | exact Hpre].
      * intros (pre & q & post & err & Hpaths & Hpre & Hq & ->).
        destruct pre as [| p' pre]; cbn [app] in Hpaths;
          injection Hpaths as <- ->; [congruence |].
        inversion Hpre; subst. now exists pre, q, post, err.
    + split.
      * intros [= <-]. exists [], p, paths, err.
        refine (conj eq_refl (conj _ (conj Hp eq_refl))). constructor.
      * intros (pre & q & post & err' & Hpaths & Hpre & Hq & ->).
        destruct pre as [| p' pre]; cbn [app] in Hpaths;
          injection Hpaths as <- ->.
        -- congruence.
        -- inversion Hpre as [| ? ? [content Hc] _]; subst. congruence.
Qed.

(** X29. [Load] is all or nothing: it returns the files of all paths, in
    order and each with its redacted content, when every path can be
    read; otherwise its error is the one of the first path that cannot,
    naming that path, and no file is returned. *)
Theorem Load_all_or_nothing (paths : list string) :
  (forall files,
      Load paths = Ok files <->
      Forall2 (fun p f => ContextFile_Path f = p
                          /\ RedactFile p = Ok (ContextFile_Content f))
              paths files)
  /\ (forall e,
         Load paths = Err e <->
         exists pre p post err,
           paths = (pre ++ p :: post)%list
           /\ Forall (fun q => exists content, RedactFile q = Ok content) pre
           /\ RedactFile p = Err err
           /\ e = "loading context file " ++ Quote p ++ ": " ++ err).
Proof.
  split.
  - intros files. unfold Context.Load. rewrite Load_loop_Ok. split.
    + now intros (more & -> & H).
    + intros H. now exists files.
  - intros e. apply Load_loop_Err.
Qed.

Lemma body_append sb f : body sb f = sb ++ body "" f.
Proof.
  unfold FormatForPrompt_body.
  generalize ("<context file=" ++ Quote (Base (ContextFile_Path f)) ++ ">" ++ LF)
    as opening.
  generalize ("</context>" ++ LF) as closing. intros closing opening.
  change ("" ++ opening) with opening.
  destruct (negb (HasSuffix (ContextFile_Content f) LF));
    now rewrite !append_assoc.
Qed.

Lemma FormatForPrompt_loop files : forall sb,
  fold_left body files sb
  = sb ++ String.concat "" (map (body "") files).
Proof.
  induction files as [| f files IH]; intros sb.
  - simpl. now rewrite append_nil_r.
  - cbn [fold_left map]. rewrite IH, concat_cons, body_append.
    now rewrite append_assoc.
Qed.

Lemma FormatForPrompt_run files :
  FormatForPrompt files = String.concat "" (map (body "") files).
Proof.
  unfold Context.FormatForPrompt. destruct files as [| f files];
    [reflexivity |].
  change ((List.length (f :: files) =? 0)%nat) with false. cbv iota.
  now rewrite FormatForPrompt_loop.
Qed.

(** X30. [FormatForPrompt] writes one block per file, in order: the
    text for two lists one after the other is the two texts one after
    the other, it is empty only for no file, and in every block the
    closing tag stands on a line of its own, a newline being added
    after a content that does not end with one. *)
Theorem FormatForPrompt_blocks (first second : list ContextFile) :
  FormatForPrompt (first ++ second)%list
  = FormatForPrompt first ++ FormatForPrompt second
  /\ (FormatForPrompt first = "" <-> first = [])
  /\ (forall f,
         exists text,
           FormatForPrompt [f]
           = ("<context file=" ++ Quote (Base (ContextFile_Path f)) ++ ">" ++ LF)
               ++ text ++ LF ++ "</context>" ++ LF
           /\ (text ++ LF = ContextFile_Content f
               \/ (text = ContextFile_Content f
                   /\ HasSuffix (ContextFile_Content f) LF = false))).
Proof.
  refine (conj _ (conj _ _)).
  - rewrite !FormatForPrompt_run, map_app. apply concat_app.
  - split; [| now intros ->].
    rewrite FormatForPrompt_run. destruct first as [| f files];
      [reflexivity |].
    cbn [map]. rewrite concat_cons. unfold FormatForPrompt_body.
    cbn [String.append].
    destruct (negb (HasSuffix (ContextFile_Content f) LF)); discriminate.
  - intros f. rewrite FormatForPrompt_run. cbn [map String.concat].
    unfold FormatForPrompt_body.
    change ("" ++ ?x) with x.
    destruct (HasSuffix (ContextFile_Content f) LF) eqn:Hs; cbn [negb].
    + destruct (HasSuffix_cut _ _ Hs) as [text Htext].
      exists text. split; [| now left].
      rewrite Htext. now rewrite !append_assoc.
    + exists (ContextFile_Content f). split; [| now right].
      now rewrite !append_assoc.
Qed.

End WithFiles.

End ContextExtras.

(** ** Worked inputs *)

Module ExtraScenarios.
Import Schema Spec MoreSpec Strings Llm Fixtures MoreFixtures.
Import ValidateFacts.

Lemma Counts_are_tallies_witness :
  Z.of_nat (List.length mixedIssues) <= GoInt.maxInt
  /\ Review.Counts mixedIssues = (1, 2, 1).
Proof.
  assert (H : Z.of_nat (List.length mixedIssues) <= GoInt.maxInt)
    by (cbv; discriminate).
  split; [exact H |].
  destruct (@ReviewExtras.Counts_are_tallies mixedIssues H) as [Heq _].
  rewrite Heq. reflexivity.
Defined.

Lemma Score_never_rises_witness :
  let warn := issueOfSeverity SeverityWarn in
  let info := issueOfSeverity SeverityInfo in
  ScoreFits [warn; info]
  /\ Review.Score [warn; info] <= Review.Score [warn].
Proof.
  intros warn info.
  assert (H : ScoreFits ([warn] ++ info :: [])) by (cbv; discriminate).
  split; [exact H |].
  exact (proj1 (@ReviewExtras.Score_never_rises
                  [warn] [] info (issueOfSeverity SeverityCritical) H)).
Defined.

Lemma summary_order_independent_witness :
  let critical := issueOfSeverity SeverityCritical in
  let warn := issueOfSeverity SeverityWarn in
  ScoreFits [critical; warn]
  /\ summaryOf [critical; warn] [] = summaryOf [warn; critical] [].
Proof.
  intros critical warn.
  assert (H : ScoreFits [critical; warn]) by (cbv; discriminate).
  split; [exact H |].
  exact (@ReviewExtras.summary_order_independent
           [critical; warn] [warn; critical] [] [] H
           (perm_swap warn critical []) (perm_nil Question)).
Defined.

Lemma FilterBySeverity_twice_witness :
  ValidSeverity SeverityWarn /\ ValidSeverity SeverityCritical
  /\ Review.FilterBySeverity (Review.FilterBySeverity mixedIssues SeverityWarn)
                             SeverityCritical
     = Review.FilterBySeverity mixedIssues SeverityCritical.
Proof.
  assert (Hw : ValidSeverity SeverityWarn) by (right; left; reflexivity).
  assert (Hc : ValidSeverity SeverityCritical) by (right; right; reflexivity).
  refine (conj Hw (conj Hc _)).
  exact (proj1 (@ReviewExtras.FilterBySeverity_twice
                  mixedIssues SeverityWarn SeverityCritical Hw Hc)).
Defined.

Lemma FilterBySeverity_keeps_critical_witness :
  ValidSeverity SeverityWarn
  /\ (Review.Verdict (Review.FilterBySeverity mixedIssues SeverityWarn) []
      = VerdictInvalid
      <-> Review.Verdict mixedIssues [] = VerdictInvalid).
Proof.
  assert (Hw : ValidSeverity SeverityWarn) by (right; left; reflexivity).
  split; [exact Hw |].
  exact (proj2 (@ReviewExtras.FilterBySeverity_keeps_critical
                  mixedIssues [] SeverityWarn Hw)).
Defined.

Lemma stripFences_fenced_witness :
  Contains "json" LF = false
  /\ asciiTrimSpace (fence "json" "{good}") = fence "json" "{good}"
  /\ Validate.stripFences asciiTrimSpace (fence "json" "{good}")
     = asciiTrimSpace "{good}".
Proof.
  refine (conj eq_refl (conj eq_refl _)).
  exact (proj1 (@ValidateExtras.stripFences_fenced
                  float64 asciiQuote asciiTrimSpace (tableUnmarshal documents)
                  "json" "{good}" eq_refl eq_refl)).
Defined.

Lemma error_names_first_invalid_finding_witness :
  let good := goodIssue "ISSUE-0001" SeverityWarn [evidence 1 2] in
  let r := reportOf [good; badSeverityIssue] [] [] in
  let e := "issue[1]: invalid severity " ++ DQ ++ "HIGH" ++ DQ
             ++ " (must be INFO, WARN, or CRITICAL)" in
  Validate.validateReport asciiQuote r 10 = Some e
  /\ ((exists pre bad post,
          Report_Issues r = (pre ++ bad :: post)%list
          /\ Forall (IssueOK 10) pre
          /\ ~ IssueOK 10 bad
          /\ HasPrefix e ("issue[" ++ Fmt.itoa (Z.of_nat (List.length pre)) ++ "]")
             = true)
      \/ (Forall (IssueOK 10) (Report_Issues r)
          /\ exists pre bad post,
              Report_Questions r = (pre ++ bad :: post)%list
              /\ Forall (QuestionOK 10) pre
              /\ ~ QuestionOK 10 bad
              /\ HasPrefix e ("question["
                                ++ Fmt.itoa (Z.of_nat (List.length pre)) ++ "]")
                 = true)).
Proof.
  intros good r e. split; [reflexivity |].
  exact (@ValidateExtras.error_names_first_invalid_finding
           float64 asciiQuote r 10 e eq_refl).
Defined.

Lemma acceptance_monotone_in_lineCount_witness :
  (20 <= 0 \/ (0 < 10 /\ 10 <= 20))
  /\ Validate.validateReport asciiQuote goodReport 10 = None
  /\ Validate.validateReport asciiQuote goodReport 20 = None.
Proof.
  assert (H : 20 <= 0 \/ (0 < 10 /\ 10 <= 20)) by (right; lia).
  refine (conj H (conj eq_refl _)).
  exact (@ValidateExtras.acceptance_monotone_in_lineCount
           float64 asciiQuote goodReport 10 20 H eq_refl).
Defined.

Lemma decode_failure_is_JSON_syntax_error_witness :
  let script := [Ok (response "not json"); Ok (response "{good}")] in
  let err := "invalid character 'n' looking for beginning of object key string" in
  scriptedComplete script request
  = (Ok (response "not json"), [Ok (response "{good}")])
  /\ tableUnmarshal documents (Validate.stripFences asciiTrimSpace "not json")
     = Err err
  /\ Validate.Parse asciiQuote asciiTrimSpace (tableUnmarshal documents)
                    "not json" 10
     = Err ("JSON parse failed: " ++ err).
Proof.
  intros script err. refine (conj eq_refl (conj eq_refl _)).
  exact (proj1 (@MainExtras.decode_failure_is_JSON_syntax_error
                  float64 asciiQuote asciiTrimSpace (tableUnmarshal documents)
                  Scripted scriptedComplete (world script) request 10 false
                  (response "not json") [Ok (response "{good}")] err
                  eq_refl eq_refl)).
Defined.

Lemma id_violation_label_follows_id_text_witness :
  let issue := goodIssue "invalid severity" SeverityInfo [] in
  ~ IDFormat "ISSUE-" (Issue_ID issue)
  /\ Contains (asciiQuote (Issue_ID issue)) "invalid severity" = true
  /\ Main.sanitizeErrForPrompt
       (("issue[" ++ Fmt.itoa 0 ++ "]") ++ ": id " ++ asciiQuote (Issue_ID issue)
          ++ " does not match ISSUE-XXXX format")
     = "invalid enum value (severity must be INFO, WARN, or CRITICAL)".
Proof.
  intros issue.
  assert (Hid : ~ IDFormat "ISSUE-" (Issue_ID issue)).
  { intros H. apply matchLitFourDigits_iff in H. discriminate H. }
  refine (conj Hid (conj eq_refl _)).
  exact (proj2 (@MainExtras.id_violation_label_follows_id_text
                  asciiQuote issue 0 10 Hid eq_refl)).
Defined.

Lemma callWithRetry_returns_validated_output_witness :
  callScripted [Ok (response "{good}")] 10
  = Ok (goodReport, "anthropic:claude-sonnet-4-6")
  /\ Forall (IssueOK 10) (Report_Issues goodReport).
Proof.
  split; [reflexivity |].
  exact (proj1 (@MainExtras.callWithRetry_returns_validated_output
                  float64 asciiQuote asciiTrimSpace (tableUnmarshal documents)
                  Scripted scriptedComplete (world [Ok (response "{good}")])
                  request 10 false goodReport "anthropic:claude-sonnet-4-6"
                  eq_refl)).
Defined.

Lemma callWithRetry_error_prefix_tells_failure_witness :
  callScripted [] 10 = Err connectionRefused
  /\ (HasPrefix connectionRefused "LLM call failed: " = true <->
      exists err p1, scriptedComplete [] request = (Err err, p1)).
Proof.
  split; [reflexivity |].
  exact (proj1 (@MainExtras.callWithRetry_error_prefix_tells_failure
                  float64 asciiQuote asciiTrimSpace (tableUnmarshal documents)
                  Scripted scriptedComplete (world []) request 10 false
                  connectionRefused eq_refl)).
Defined.

Lemma accepted_format_has_a_renderer_witness :
  validateFlagsHundredths (flagsFailOn "INVALID" "warn") = None
  /\ (Render.NewRenderer asciiQuote "json" = Ok Render.jsonRenderer
      \/ Render.NewRenderer asciiQuote "json" = Ok Render.markdownRenderer).
Proof.
  split; [reflexivity |].
  exact (proj1 (@FlagsExtras.accepted_format_has_a_renderer
                  float64 Z.ltb 0 200 gHundredths asciiQuote
                  (flagsFailOn "INVALID" "warn") eq_refl)).
Defined.

Lemma accepted_threshold_names_its_severity_witness :
  validateFlagsHundredths (flagsFailOn "" "critical") = None
  /\ forall s, ValidSeverity (Main.parseSeverityThreshold s).
Proof.
  split; [reflexivity |].
  exact (proj1 (proj2 (@FlagsExtras.accepted_threshold_names_its_severity
                         float64 Z.ltb 0 200 gHundredths asciiQuote
                         (flagsFailOn "" "critical") eq_refl))).
Defined.

Lemma fail_on_threshold_witness :
  let issues := [issueOfSeverity SeverityInfo] in
  validateFlagsHundredths (flagsFailOn "VALID_WITH_GAPS" "info") = None
  /\ (Flags.runCheck_step18 (Review.Verdict issues []) "VALID_WITH_GAPS" = None
      \/ exists text,
          Flags.runCheck_step18 (Review.Verdict issues []) "VALID_WITH_GAPS"
          = Some {| Main.code := 2; Main.msg := text |}).
Proof.
  intros issues. split; [reflexivity |].
  exact (proj2 (@FlagsExtras.fail_on_threshold
                  float64 Z.ltb 0 200 gHundredths asciiQuote
                  (flagsFailOn "VALID_WITH_GAPS" "info") issues [] eq_refl)).
Defined.

Lemma addLineNumbers_numbers_every_line_witness :
  threeLines <> ""
  /\ snd (SpecLoader.addLineNumbers threeLines)
     = Z.of_nat (List.length
                   (Split (fst (SpecLoader.addLineNumbers threeLines)) LF)).
Proof.
  assert (H : threeLines <> "") by discriminate.
  split; [exact H |].
  exact (proj2 (@LoaderExtras.addLineNumbers_numbers_every_line threeLines H)).
Defined.

Lemma validated_evidence_cites_existing_lines_witness :
  threeLines <> ""
  /\ Validate.validateReport asciiQuote goodReport
                             (snd (SpecLoader.addLineNumbers threeLines))
     = None
  /\ Forall (fun ev => lineExists threeLines (Evidence_LineStart ev)
                       /\ lineExists threeLines (Evidence_LineEnd ev))
            (allEvidence goodReport).
Proof.
  assert (H : threeLines <> "") by discriminate.
  refine (conj H (conj eq_refl _)).
  exact (@LoaderExtras.validated_evidence_cites_existing_lines
           float64 asciiQuote threeLines goodReport H eq_refl).
Defined.

Lemma normalize_without_CR_witness :
  Contains specWithTrailingSpaces CR = false
  /\ Patch.normalize (Patch.normalize specWithTrailingSpaces)
     = Patch.normalize specWithTrailingSpaces.
Proof.
  split; [reflexivity |].
  exact (proj1 (@PatchExtras.normalize_without_CR
                  specWithTrailingSpaces eq_refl)).
Defined.

End ExtraScenarios.

(** ** The label of the repair prompt *)

Module RepairLabel.
Import Schema Spec Strings Llm Fixtures.

(** C5, at the failing input: the first response holds one issue whose
    only defect is its id, the text [invalid severity]. [Parse]
    rejects it for the ID format, and the one repair request that
    follows names the severity category, not the ID-format category,
    which the repair request names for the same defect with the id
    [BAD-1]. *)
Theorem repair_prompt_names_another_category :
  let findings id := reportOf [goodIssue id SeverityInfo [evidence 1 2]] [] [] in
  let table := [ ("{crafted id}", findings "invalid severity");
                 ("{plain id}", findings "BAD-1");
                 ("{good}", goodReport) ] in
  let parse doc :=
    Validate.Parse asciiQuote asciiTrimSpace (tableUnmarshal table) doc 10 in
  let prompts doc :=
    map (@UserPrompt float64)
        (Main.calls
           (snd (runState
                   (Main.callWithRetry asciiQuote asciiTrimSpace
                                       (tableUnmarshal table)
                                       scriptedComplete request 10 false)
                   (world [Ok (response doc); Ok (response "{good}")])))) in
  let repairPrompt label :=
    UserPrompt request ++ LF ++ LF
      ++ "Your previous response failed schema validation (error category: "
      ++ DQ ++ label ++ DQ
      ++ "). Return only valid JSON matching the schema above." in
  parse "{crafted id}"
  = Err ("issue[0]: id " ++ DQ ++ "invalid severity" ++ DQ
           ++ " does not match ISSUE-XXXX format")
  /\ Validate.validateReport asciiQuote (findings "ISSUE-0001") 10 = None
  /\ prompts "{crafted id}"
     = [ UserPrompt request;
         repairPrompt
           "invalid enum value (severity must be INFO, WARN, or CRITICAL)" ]
  /\ parse "{plain id}"
     = Err ("issue[0]: id " ++ DQ ++ "BAD-1" ++ DQ
              ++ " does not match ISSUE-XXXX format")
  /\ prompts "{plain id}"
     = [ UserPrompt request; repairPrompt "invalid ID format" ].
Proof.
  cbv zeta.
  refine (conj _ (conj _ (conj _ (conj _ _)))); vm_compute; reflexivity.
Qed.

End RepairLabel.
